(** * The room relay of phase-web-api (class [WSServer])

    A shallow embedding of the WebSocket relay of
    [src/phase-web-api/src/routes/index.ts] (second document of that file,
    [export class WSServer]) and the verification of its membership,
    broadcast and dispatch properties.

    Conventions of the embedding.
    - A JavaScript [Map] keeps its entries in insertion order, and the code
      depends on that order ([Array.from(rooms.values()).find], [forEach]):
      [JSMap.t] is an association list in insertion order.
    - [User] objects are never assigned to after their creation, so the two
      references to one user ([room.users] and [this.users]) are modelled by
      two copies of one value.  A [Room] object lives in [this.rooms] only and
      is mutated in place: a mutation rewrites the entry under the key where
      the object was found.
    - The [ws] handle of a connection is a token; what the transport answers
      ([readyState], whether [send] throws) is the environment [Env] of one
      handler run.
    - [uuidv4()] and [Date.now()] are external: the values they return during
      one handler run are the record [Draws] given to the handler.
    - A frame is whatever [JSON.parse] returns.  The payload is [any] in the
      source and its fields are not checked for their type: [roomName],
      [userName], [userRole] and [content] are JSON values ([JSValue]), with
      the truthiness, the [===] and the conversion to text that JavaScript
      gives them.  The conversion of a value in a template literal can throw
      ([ToString]); the handlers build the texts of their system messages and
      of their log lines that way ([to_text], [logger_info]).
    - A handler returns an outcome (normal return or thrown error), the state
      it leaves and the list of [ws.send] calls it made.  A thrown error keeps
      the state reached so far, as in JavaScript.
    - The [async] handlers contain no [await]: the body of a handler runs to
      its end, or to its throw, in the turn of the event loop that starts it.
      [handleMessage] awaits [handleJoinRoom] and [handleChatMessage]: when
      one of them throws, the [catch] of [handleMessage] runs from a
      microtask, after the listener has returned.  The listener of a frame
      therefore returns the error still to be reported, if any, and [report]
      is the later [catch].  The report changes no state.
    - Nothing catches an error thrown by the listener of [close] or [error].
      A run goes on from the state such a listener left; the process of
      [src/phase-web-api/src/index.ts] exits on an uncaught exception, so the
      runs of the model include all runs of the server.

    The file also embeds the conversation history of [ChatSDK]
    ([src/phase-web-api/src/pkg/agent/chat.ts]), [CacheManager]
    ([src/unnamed/part_000]) and [MemoryDatabase]
    ([src/phase-web-api/src/pkg/db/memory-db.ts]); their conventions are
    given where they are defined. *)

From Stdlib Require Import String List Bool Arith ZArith Lia.
Import ListNotations.
Open Scope string_scope.

(** ** JavaScript [Map] with string keys *)

Module JSMap.

Definition t (V : Type) : Type := list (string * V).

Section Ops.
Context {V : Type}.

Definition empty : t V := [].

(** [m.get(k)] *)
Fixpoint get (m : t V) (k : string) : option V :=
  match m with
  | [] => None
  | (k', v) :: m' => if String.eqb k' k then Some v else get m' k
  end.

(** [m.has(k)] *)
Definition has (m : t V) (k : string) : bool :=
  match get m k with Some _ => true | None => false end.

(** [m.set(k, v)]: an existing key keeps its position, a new key goes last. *)
Fixpoint set (m : t V) (k : string) (v : V) : t V :=
  match m with
  | [] => [(k, v)]
  | (k', v') :: m' =>
      if String.eqb k' k then (k', v) :: m' else (k', v') :: set m' k v
  end.

(** [m.delete(k)] *)
Definition delete (m : t V) (k : string) : t V :=
  filter (fun e => negb (String.eqb (fst e) k)) m.

(** [m.size] *)
Definition size (m : t V) : nat := length m.

(** [m.values()] and [m.keys()], in insertion order *)
Definition values (m : t V) : list V := map snd m.
Definition keys (m : t V) : list string := map fst m.

End Ops.
End JSMap.

(** ** The handler monad: outcome, state, [ws.send] calls *)

Inductive outcome (A : Type) : Type :=
| Ok (a : A)
| Throw (e : string).
Arguments Ok {A} a.
Arguments Throw {A} e.

(** ** JavaScript values *)

(** A value [JSON.parse] can return.  A number is given by the text
    [String(n)] of it, so [0] and [-0] are one value, as for [===]. *)
#[local] Unset Elimination Schemes.
Inductive JSValue : Type :=
| JNull
| JBool (b : bool)
| JNumber (text : string)
| JString (s : string)
| JArray (elements : list JSValue)
| JObject (fields : list (string * JSValue)).
#[local] Set Elimination Schemes.

(** [!!v] *)
Definition ToBoolean (v : JSValue) : bool :=
  match v with
  | JNull => false
  | JBool b => b
  | JNumber text => negb (String.eqb text "0")
  | JString s => negb (String.eqb s "")
  | JArray _ => true
  | JObject _ => true
  end.

(** [a === b] for a stored value and a value of the frame at hand.  Arrays
    and objects are compared by identity, and each frame is parsed into new
    objects: a stored one is never the one of a later frame. *)
Definition strict_eq (a b : JSValue) : bool :=
  match a, b with
  | JNull, JNull => true
  | JBool x, JBool y => Bool.eqb x y
  | JNumber x, JNumber y => String.eqb x y
  | JString x, JString y => String.eqb x y
  | _, _ => false
  end.

Definition TypeError_primitive : string :=
  "Cannot convert object to primitive value".

(** The conversion of a template literal, [`${v}`].  An array is joined with
    commas, [null] elements giving the empty text.  An object gives
    [[object Object]] through [Object.prototype.toString], unless it has a
    property [toString] of its own: a value of JSON is not callable, the
    inherited [valueOf] returns the object, and the conversion throws. *)
Fixpoint ToString (v : JSValue) : outcome string :=
  match v with
  | JNull => Ok "null"
  | JBool b => Ok (if b then "true" else "false")
  | JNumber text => Ok text
  | JString s => Ok s
  | JArray elements =>
      (fix join (l : list JSValue) : outcome string :=
         match l with
         | [] => Ok ""
         | x :: l' =>
             match (match x with JNull => Ok "" | _ => ToString x end) with
             | Throw e => Throw e
             | Ok t =>
                 match l' with
                 | [] => Ok t
                 | _ :: _ =>
                     match join l' with
                     | Ok rest => Ok (t ++ "," ++ rest)
                     | Throw e => Throw e
                     end
                 end
             end
         end) elements
  | JObject fields =>
      if existsb (fun f => String.eqb (fst f) "toString") fields
      then Throw TypeError_primitive
      else Ok "[object Object]"
  end.

(** ** Data model *)

Inductive UserRole : Type := product_manager | developer.

(** The handle of one connection's socket. *)
Definition WebSocket : Type := string.

Inductive ReadyState : Type := CONNECTING | OPEN | CLOSING | CLOSED.

Definition isOPEN (r : ReadyState) : bool :=
  match r with OPEN => true | _ => false end.

Module User.
Record t : Type := mk {
  id : string;
  socket : WebSocket;
  role : UserRole;
  name : JSValue;
  roomId : string;
  joinedAt : Z
}.
End User.

Module Room.
Record t : Type := mk {
  id : string;
  name : JSValue;
  users : JSMap.t User.t;
  createdAt : Z
}.

(** The room object after a mutation of its [users] map. *)
Definition with_users (r : t) (us : JSMap.t User.t) : t :=
  mk (id r) (name r) us (createdAt r).
End Room.

(** [{ id, name, role }], the element of a [users] list on the wire *)
Record UserInfo : Type := mkUserInfo {
  info_id : string;
  info_name : JSValue;
  info_role : UserRole
}.

(** [{ id, type: 'system_message', userName, content, timestamp }] *)
Record SystemMessage : Type := mkSystemMessage {
  sys_id : string;
  sys_userName : string;
  sys_content : string;
  sys_timestamp : Z
}.

(** [ChatMessage] with [type: 'chat_message']; [content] is whatever
    [payload.content] was, possibly undefined. *)
Record ChatMessage : Type := mkChatMessage {
  chat_id : string;
  chat_userId : string;
  chat_userName : JSValue;
  chat_userRole : UserRole;
  chat_content : option JSValue;
  chat_timestamp : Z
}.

(** Server to client messages, by their [type] tag *)
Inductive ServerMessage : Type :=
| connection_established (userId : string)
| room_joined (roomId : string) (roomName : JSValue) (userCount : nat)
| user_joined (user : UserInfo) (users : list UserInfo) (message : SystemMessage)
| user_left (user : UserInfo) (users : list UserInfo) (message : SystemMessage)
| chat_message (message : ChatMessage)
| user_list (users : list UserInfo)
| error (e : string).

(** The four properties the handlers read from [message.payload]; [None] is
    [undefined].  A payload that is a number, a string, a boolean or an array
    has none of them. *)
Record Payload : Type := mkPayload {
  roomName : option JSValue;
  userName : option JSValue;
  userRole : option JSValue;
  content : option JSValue
}.

(** [message.payload], [any] in the source: absent, [null], or a value whose
    properties can be read *)
Inductive PayloadValue : Type :=
| PUndefined
| PNull
| PObject (p : Payload).

(** What [JSON.parse] returned: [null], or a value with its [type] (absent
    for a number, a string, a boolean or an array) and its [payload]. *)
Inductive WSMessage : Type :=
| NullMessage
| Msg (type : option JSValue) (payload : PayloadValue).

(** An inbound text frame: [JSON.parse] throws, or returns a message. *)
Inductive Frame : Type :=
| Unparsable
| Parsed (message : WSMessage).

(** [this.rooms] and [this.users] *)
Record State : Type := mkState {
  rooms : JSMap.t Room.t;
  users : JSMap.t User.t
}.

Definition init : State := mkState JSMap.empty JSMap.empty.

(** The transport at one moment: the listener of an event runs in one of
    them, and the microtask that reports a rejected handler in a later one. *)
Record Env : Type := mkEnv {
  readyState : WebSocket -> ReadyState;
  sendThrows : WebSocket -> ServerMessage -> bool
}.

(** The results of [uuidv4()] and [Date.now()] during one handler run, named
    by the place that uses them. *)
Record Draws : Type := mkDraws {
  uuid_room : string;        (* id of a created room *)
  uuid_left : string;        (* id of the user_left system message *)
  uuid_joined : string;      (* id of the user_joined system message *)
  uuid_chat : string;        (* id of the chat message *)
  now_left : Z;
  now_created : Z;
  now_joinedAt : Z;
  now_joined : Z;
  now_chat : Z
}.

Definition Sent : Type := (WebSocket * ServerMessage)%type.

Record Res (A : Type) : Type := mkRes {
  out : outcome A;
  st : State;
  log : list Sent
}.
Arguments mkRes {A} out st log.
Arguments out {A} r.
Arguments st {A} r.
Arguments log {A} r.

Definition M (A : Type) : Type := State -> Res A.

Definition ret {A} (a : A) : M A := fun s => mkRes (Ok a) s [].

Definition throw {A} (e : string) : M A := fun s => mkRes (Throw e) s [].

Definition bind {A B} (m : M A) (f : A -> M B) : M B :=
  fun s =>
    let r := m s in
    match out r with
    | Ok a => let r' := f a (st r) in mkRes (out r') (st r') (log r ++ log r')
    | Throw e => mkRes (Throw e) (st r) (log r)
    end.

(** [try { m } catch (error) { h error.message }] *)
Definition try_catch {A} (m : M A) (h : string -> M A) : M A :=
  fun s =>
    let r := m s in
    match out r with
    | Ok a => r
    | Throw e => let r' := h e (st r) in mkRes (out r') (st r') (log r ++ log r')
    end.

Definition get_state : M State := fun s => mkRes (Ok s) s [].

Definition put_state (s' : State) : M unit := fun _ => mkRes (Ok tt) s' [].

Notation "x <- m ;; k" := (bind m (fun x => k))
  (at level 61, m at next level, right associativity).
Notation "m ;;; k" := (bind m (fun _ => k))
  (at level 61, right associativity).

(** [list.forEach(f)] *)
Fixpoint forEach {A} (l : list A) (f : A -> M unit) : M unit :=
  match l with
  | [] => ret tt
  | x :: l' => f x ;;; forEach l' f
  end.

(** The text of [v] in a template literal: the conversion can throw. *)
Definition to_text (v : JSValue) : M string :=
  fun s => mkRes (ToString v) s [].

(** [logger.info(`...`)] with the values [vs] in the template, in their
    order: the logger changes nothing, the conversions can throw. *)
Fixpoint logger_info (vs : list JSValue) : M unit :=
  match vs with
  | [] => ret tt
  | v :: vs' => to_text v ;;; logger_info vs'
  end.

(** ** Tests on the fields of a payload *)

(** [!x] for a string that may be absent: false exactly for a present,
    non-empty string. *)
Definition truthy (x : option string) : option string :=
  match x with
  | Some s => if String.eqb s "" then None else Some s
  | None => None
  end.

(** [!x] is false exactly for a present value that is not falsy. *)
Definition truthy_field (x : option JSValue) : option JSValue :=
  match x with
  | Some v => if ToBoolean v then Some v else None
  | None => None
  end.

(** [userRole !== 'product_manager' && userRole !== 'developer'] fails *)
Definition parseRole (v : JSValue) : option UserRole :=
  match v with
  | JString s =>
      if String.eqb s "product_manager" then Some product_manager
      else if String.eqb s "developer" then Some developer
      else None
  | _ => None
  end.

(** Messages of the engine's [TypeError]s, in the wording of V8 for the source
    as written; what is proved below depends on which error is thrown, not
    on its wording. *)
Definition TypeError_null_type : string :=
  "Cannot read properties of null (reading 'type')".
Definition TypeError_destructure : string :=
  "Cannot destructure property 'roomName' of 'payload' as it is undefined.".
Definition TypeError_destructure_null : string :=
  "Cannot destructure property 'roomName' of 'payload' as it is null.".
Definition TypeError_content : string :=
  "Cannot read properties of undefined (reading 'content')".
Definition TypeError_content_null : string :=
  "Cannot read properties of null (reading 'content')".

(** [excludeUserId?: string] against a key: [userId !== excludeUserId] *)
Definition not_excluded (userId : string) (excludeUserId : option string) : bool :=
  match excludeUserId with
  | Some x => negb (String.eqb userId x)
  | None => true
  end.

Definition userInfo (u : User.t) : UserInfo :=
  mkUserInfo (User.id u) (User.name u) (User.role u).

(** ** The methods of [WSServer] *)

Section WSServer.
Variable env : Env.

(** [ws.send(JSON.stringify(message))] *)
Definition ws_send (ws : WebSocket) (message : ServerMessage) : M unit :=
  fun s =>
    mkRes (if sendThrows env ws message then Throw "send failed" else Ok tt)
          s [(ws, message)].

Definition sendToUser (ws : WebSocket) (message : ServerMessage) : M unit :=
  if isOPEN (readyState env ws)
  then try_catch (ws_send ws message) (fun _ => ret tt)
  else ret tt.

Definition sendError (ws : WebSocket) (e : string) : M unit :=
  sendToUser ws (error e).

Definition getRoomUsers (roomId : string) : M (list UserInfo) :=
  s <- get_state ;;
  match JSMap.get (rooms s) roomId with
  | None => ret []
  | Some room => ret (map userInfo (JSMap.values (Room.users room)))
  end.

Definition broadcastToRoom (roomId : string) (message : ServerMessage)
    (excludeUserId : option string) : M unit :=
  s <- get_state ;;
  match JSMap.get (rooms s) roomId with
  | None => ret tt
  | Some room =>
      forEach (Room.users room) (fun e =>
        if not_excluded (fst e) excludeUserId
           && isOPEN (readyState env (User.socket (snd e)))
        then sendToUser (User.socket (snd e)) message
        else ret tt)
  end.

Definition sendUserList (userId : string) : M unit :=
  s <- get_state ;;
  match JSMap.get (users s) userId with
  | None => ret tt
  | Some user =>
      match JSMap.get (rooms s) (User.roomId user) with
      | None => ret tt
      | Some room =>
          us <- getRoomUsers (Room.id room) ;;
          sendToUser (User.socket user) (user_list us)
      end
  end.

Definition handleListUsers (userId : string) : M unit :=
  s <- get_state ;;
  match JSMap.get (users s) userId with
  | None => ret tt
  | Some _ => sendUserList userId
  end.

Definition handleLeaveRoom (userId : string) (d : Draws) : M unit :=
  s <- get_state ;;
  match JSMap.get (users s) userId with
  | None => ret tt
  | Some user =>
      match JSMap.get (rooms s) (User.roomId user) with
      | None => ret tt
      | Some room =>
          let userName := User.name user in
          (* room.users.delete(userId); this.users.delete(userId) *)
          let room' := Room.with_users room (JSMap.delete (Room.users room) userId) in
          put_state (mkState (JSMap.set (rooms s) (User.roomId user) room')
                             (JSMap.delete (users s) userId)) ;;;
          us <- getRoomUsers (Room.id room') ;;
          text <- to_text userName ;;
          broadcastToRoom (Room.id room')
            (user_left (userInfo user) us
               (mkSystemMessage (uuid_left d) "系统"
                  (text ++ " 离开了房间") (now_left d)))
            None ;;;
          (if Nat.eqb (JSMap.size (Room.users room')) 0
           then s1 <- get_state ;;
                put_state (mkState (JSMap.delete (rooms s1) (Room.id room')) (users s1)) ;;;
                logger_info [Room.name room']
           else ret tt) ;;;
          logger_info [userName; Room.name room']
      end
  end.

Definition handleDisconnect (userId : string) (d : Draws) : M unit :=
  handleLeaveRoom userId d.

Definition handleJoinRoom (userId : string) (ws : WebSocket)
    (payload : PayloadValue) (d : Draws) : M unit :=
  match payload with
  | PUndefined => throw TypeError_destructure
  | PNull => throw TypeError_destructure_null
  | PObject p =>
      match truthy_field (roomName p), truthy_field (userName p),
            truthy_field (userRole p) with
      | Some roomName, Some userName, Some userRole =>
          match parseRole userRole with
          | None => sendError ws "无效的用户角色"
          | Some role =>
              handleLeaveRoom userId d ;;;
              s <- get_state ;;
              (* the room object and the key it is stored under *)
              entry <-
                match find (fun e => strict_eq (Room.name (snd e)) roomName) (rooms s) with
                | Some existingRoom => ret existingRoom
                | None =>
                    let room := Room.mk (uuid_room d) roomName JSMap.empty (now_created d) in
                    put_state (mkState (JSMap.set (rooms s) (Room.id room) room) (users s)) ;;;
                    logger_info [roomName] ;;;
                    ret (Room.id room, room)
                end ;;
              let key := fst entry in
              let room := snd entry in
              let user := User.mk userId ws role userName (Room.id room) (now_joinedAt d) in
              (* room.users.set(userId, user); this.users.set(userId, user) *)
              let room' := Room.with_users room (JSMap.set (Room.users room) userId user) in
              s1 <- get_state ;;
              put_state (mkState (JSMap.set (rooms s1) key room')
                                 (JSMap.set (users s1) userId user)) ;;;
              sendToUser ws
                (room_joined (Room.id room') (Room.name room')
                   (JSMap.size (Room.users room'))) ;;;
              us <- getRoomUsers (Room.id room') ;;
              text <- to_text userName ;;
              broadcastToRoom (Room.id room')
                (user_joined (userInfo user) us
                   (mkSystemMessage (uuid_joined d) "系统"
                      (text ++ " 加入了房间") (now_joined d)))
                (Some userId) ;;;
              sendUserList userId ;;;
              logger_info [userName; userRole; Room.name room']
          end
      | _, _, _ => sendError ws "缺少必要参数: roomName, userName, userRole"
      end
  end.

Definition handleChatMessage (userId : string) (payload : PayloadValue)
    (d : Draws) : M unit :=
  s <- get_state ;;
  match JSMap.get (users s) userId with
  | None => throw "用户未加入任何房间"
  | Some user =>
      match JSMap.get (rooms s) (User.roomId user) with
      | None => throw "房间不存在"
      | Some room =>
          match payload with
          | PUndefined => throw TypeError_content
          | PNull => throw TypeError_content_null
          | PObject p =>
              let chatMessage :=
                mkChatMessage (uuid_chat d) (User.id user) (User.name user)
                  (User.role user) (content p) (now_chat d) in
              broadcastToRoom (Room.id room) (chat_message chatMessage) (Some userId) ;;;
              logger_info [User.name user; Room.name room]
          end
      end
  end.

(** The [switch] of [handleMessage], before its [catch] *)
Definition dispatch (userId : string) (ws : WebSocket) (message : WSMessage)
    (d : Draws) : M unit :=
  match message with
  | NullMessage => throw TypeError_null_type
  | Msg type payload =>
      match type with
      | Some (JString ty) =>
          if String.eqb ty "join_room" then handleJoinRoom userId ws payload d
          else if String.eqb ty "chat_message" then handleChatMessage userId payload d
          else if String.eqb ty "leave_room" then handleLeaveRoom userId d
          else if String.eqb ty "list_users" then handleListUsers userId
          else sendError ws "未知的消息类型"
      | _ => sendError ws "未知的消息类型"
      end
  end.

(** The cases of the [switch] that [await] their handler: an error thrown
    there rejects the awaited promise, and the [catch] runs from a microtask,
    after the listener has returned. *)
Definition awaited (message : WSMessage) : bool :=
  match message with
  | Msg (Some (JString ty)) _ =>
      String.eqb ty "join_room" || String.eqb ty "chat_message"
  | _ => false
  end.

(** [handleMessage] up to the return of the listener.  The result is
    [Some e] when an awaited handler threw [e]: the error is then reported by
    [report], later.  An error thrown without an [await] is caught and
    reported at once. *)
Definition handleMessage (userId : string) (ws : WebSocket) (message : WSMessage)
    (d : Draws) : M (option string) :=
  fun s =>
    let r := dispatch userId ws message d s in
    match out r with
    | Ok _ => mkRes (Ok None) (st r) (log r)
    | Throw e =>
        if awaited message
        then mkRes (Ok (Some e)) (st r) (log r)
        else let r' := sendError ws e (st r) in
             mkRes (Ok None) (st r') (log r ++ log r')
    end.

(** The [catch] of [handleMessage] for a rejected handler, run from the
    microtask: the transport is read then. *)
Definition report (ws : WebSocket) (pending : option string) : M unit :=
  match pending with
  | Some e => sendError ws e
  | None => ret tt
  end.

(** [ws.on('message', ...)] *)
Definition onMessage (userId : string) (ws : WebSocket) (frame : Frame)
    (d : Draws) : M (option string) :=
  match frame with
  | Unparsable => sendError ws "消息格式错误" ;;; ret None
  | Parsed message => handleMessage userId ws message d
  end.

(** [wss.on('connection', ...)], with [userId] the result of [uuidv4()] *)
Definition onConnection (userId : string) (ws : WebSocket) : M unit :=
  sendToUser ws (connection_established userId).

(** [ws.on('close', ...)] and [ws.on('error', ...)] *)
Definition onClose (userId : string) (d : Draws) : M unit :=
  handleDisconnect userId d.

End WSServer.

(** [getStats()] *)
Record RoomStats : Type := mkRoomStats {
  stats_id : string;
  stats_name : JSValue;
  userCount : nat;
  stats_createdAt : Z
}.

Record Stats : Type := mkStats {
  totalRooms : nat;
  totalUsers : nat;
  roomsInfo : list RoomStats
}.

Definition getStats (s : State) : Stats :=
  mkStats (JSMap.size (rooms s)) (JSMap.size (users s))
    (map (fun room => mkRoomStats (Room.id room) (Room.name room)
                        (JSMap.size (Room.users room)) (Room.createdAt room))
         (JSMap.values (rooms s))).

(** ** Runs of the server *)

Inductive Event : Type :=
| Connection (userId : string) (ws : WebSocket)
| Incoming (userId : string) (ws : WebSocket) (frame : Frame) (d : Draws)
| Closed (userId : string) (d : Draws).

(** The listener of an event.  The result of a frame is the error still to
    be reported, if any; an error thrown by the listener of a disconnection
    is caught by nothing. *)
Definition handle (env : Env) (ev : Event) : M (option string) :=
  match ev with
  | Connection userId ws => onConnection env userId ws ;;; ret None
  | Incoming userId ws frame d => onMessage env userId ws frame d
  | Closed userId d => onClose env userId d ;;; ret None
  end.

Definition step (s : State) (x : Env * Event) : State :=
  st (handle (fst x) (snd x) s).

(** The state after a run from [s]. *)
Definition run (s : State) (tr : list (Env * Event)) : State :=
  fold_left step tr s.

(** The id [uuidv4()] gives to a created room is not the id of a live room. *)
Definition fresh_draw (s : State) (ev : Event) : bool :=
  match ev with
  | Connection _ _ => true
  | Incoming _ _ _ d => negb (JSMap.has (rooms s) (uuid_room d))
  | Closed _ _ => true
  end.

Fixpoint fresh_run (s : State) (tr : list (Env * Event)) : bool :=
  match tr with
  | [] => true
  | x :: tr' => fresh_draw s (snd x) && fresh_run (step s x) tr'
  end.

(** ** Derived forms: what a handler sends and the state it leaves *)

(** The text of a value whose conversion does not throw *)
Definition text_of (v : JSValue) : string :=
  match ToString v with
  | Ok t => t
  | Throw _ => ""
  end.

Definition converts (v : JSValue) : bool :=
  match ToString v with
  | Ok _ => true
  | Throw _ => false
  end.

(** The outcome of the conversions of a template, in their order *)
Fixpoint template (vs : list JSValue) : outcome unit :=
  match vs with
  | [] => Ok tt
  | v :: vs' =>
      match ToString v with
      | Ok _ => template vs'
      | Throw e => Throw e
      end
  end.

(** The [ws.send] calls of one [sendToUser] *)
Definition send_log (env : Env) (ws : WebSocket) (message : ServerMessage) : list Sent :=
  if isOPEN (readyState env ws) then [(ws, message)] else [].

(** The members a broadcast sends to *)
Definition recipients (env : Env) (us : JSMap.t User.t) (excludeUserId : option string)
  : list (string * User.t) :=
  filter (fun e => not_excluded (fst e) excludeUserId
                   && isOPEN (readyState env (User.socket (snd e)))) us.

Definition broadcast_log (env : Env) (us : JSMap.t User.t) (message : ServerMessage)
    (excludeUserId : option string) : list Sent :=
  map (fun e => (User.socket (snd e), message)) (recipients env us excludeUserId).

(** The [ws.send] calls that returned normally: the messages handed to the
    transport. *)
Definition delivered (env : Env) (l : list Sent) : list Sent :=
  filter (fun x => negb (sendThrows env (fst x) (snd x))) l.

Definition room_users_info (s : State) (roomId : string) : list UserInfo :=
  match JSMap.get (rooms s) roomId with
  | None => []
  | Some room => map userInfo (JSMap.values (Room.users room))
  end.

Definition room_broadcast (env : Env) (s : State) (roomId : string)
    (message : ServerMessage) (excludeUserId : option string) : list Sent :=
  match JSMap.get (rooms s) roomId with
  | None => []
  | Some room => broadcast_log env (Room.users room) message excludeUserId
  end.

Definition user_list_log (env : Env) (s : State) (userId : string) : list Sent :=
  match JSMap.get (users s) userId with
  | None => []
  | Some user =>
      match JSMap.get (rooms s) (User.roomId user) with
      | None => []
      | Some room =>
          send_log env (User.socket user) (user_list (room_users_info s (Room.id room)))
      end
  end.

Definition left_message (user : User.t) (us : list UserInfo) (d : Draws) : ServerMessage :=
  user_left (userInfo user) us
    (mkSystemMessage (uuid_left d) "系统"
       (text_of (User.name user) ++ " 离开了房间") (now_left d)).

Definition joined_message (user : User.t) (us : list UserInfo) (d : Draws) : ServerMessage :=
  user_joined (userInfo user) us
    (mkSystemMessage (uuid_joined d) "系统"
       (text_of (User.name user) ++ " 加入了房间") (now_joined d)).

(** The state between the two deletions of [handleLeaveRoom] and its test of
    [room.users.size] *)
Definition left_room (room : Room.t) (userId : string) : Room.t :=
  Room.with_users room (JSMap.delete (Room.users room) userId).

Definition leave_mid (s : State) (userId : string) (user : User.t) (room : Room.t) : State :=
  mkState (JSMap.set (rooms s) (User.roomId user) (left_room room userId))
          (JSMap.delete (users s) userId).

(** The state after a leave that went to its end *)
Definition leave_state (s : State) (userId : string) : State :=
  match JSMap.get (users s) userId with
  | None => s
  | Some user =>
      match JSMap.get (rooms s) (User.roomId user) with
      | None => s
      | Some room =>
          let s1 := leave_mid s userId user room in
          if Nat.eqb (JSMap.size (Room.users (left_room room userId))) 0
          then mkState (JSMap.delete (rooms s1) (Room.id room)) (users s1)
          else s1
      end
  end.

Definition leave_log (env : Env) (s : State) (userId : string) (d : Draws) : list Sent :=
  match JSMap.get (users s) userId with
  | None => []
  | Some user =>
      match JSMap.get (rooms s) (User.roomId user) with
      | None => []
      | Some room =>
          let s1 := leave_mid s userId user room in
          room_broadcast env s1 (Room.id room)
            (left_message user (room_users_info s1 (Room.id room)) d) None
      end
  end.

(** What [handleLeaveRoom] does.  When the name of the leaving user has no
    text, it throws between its two deletions and its broadcast. *)
Definition leave_result (env : Env) (s : State) (userId : string) (d : Draws)
  : Res unit :=
  match JSMap.get (users s) userId with
  | None => mkRes (Ok tt) s []
  | Some user =>
      match JSMap.get (rooms s) (User.roomId user) with
      | None => mkRes (Ok tt) s []
      | Some room =>
          match ToString (User.name user) with
          | Throw e => mkRes (Throw e) (leave_mid s userId user room) []
          | Ok _ =>
              mkRes (template [Room.name room]) (leave_state s userId)
                    (leave_log env s userId d)
          end
      end
  end.

(** The session can leave: it is in no room, or its name and the name of its
    room have a text. *)
Definition can_leave (s : State) (userId : string) : bool :=
  match JSMap.get (users s) userId with
  | None => true
  | Some user =>
      match JSMap.get (rooms s) (User.roomId user) with
      | None => true
      | Some room => converts (User.name user) && converts (Room.name room)
      end
  end.

(** The lookup of [handleJoinRoom] by name *)
Definition find_room (s : State) (roomName : JSValue) : option (string * Room.t) :=
  find (fun e => strict_eq (Room.name (snd e)) roomName) (rooms s).

Definition new_room (roomName : JSValue) (d : Draws) : Room.t :=
  Room.mk (uuid_room d) roomName JSMap.empty (now_created d).

(** The state after the creation of a room *)
Definition create_state (s : State) (roomName : JSValue) (d : Draws) : State :=
  mkState (JSMap.set (rooms s) (uuid_room d) (new_room roomName d)) (users s).

(** The room a join resolves to: the key it is stored under, the object, and
    the directory after a possible creation *)
Definition resolve_room (s : State) (roomName : JSValue) (d : Draws)
  : string * Room.t * JSMap.t Room.t :=
  match find_room s roomName with
  | Some existingRoom => (fst existingRoom, snd existingRoom, rooms s)
  | None => (uuid_room d, new_room roomName d, rooms (create_state s roomName d))
  end.

Definition new_user (userId : string) (ws : WebSocket) (role : UserRole)
    (userName : JSValue) (room : Room.t) (d : Draws) : User.t :=
  User.mk userId ws role userName (Room.id room) (now_joinedAt d).

Definition joined_room (room : Room.t) (userId : string) (user : User.t) : Room.t :=
  Room.with_users room (JSMap.set (Room.users room) userId user).

(** The state after the insertions of [handleJoinRoom], from the state [s]
    its call of [handleLeaveRoom] left *)
Definition enter_state (s : State) (userId : string) (ws : WebSocket)
    (roomName userName : JSValue) (role : UserRole) (d : Draws) : State :=
  let '(key, room, rooms1) := resolve_room s roomName d in
  let user := new_user userId ws role userName room d in
  mkState (JSMap.set rooms1 key (joined_room room userId user))
          (JSMap.set (users s) userId user).

(** The reply [room_joined] of a join *)
Definition joined_reply (env : Env) (s : State) (userId : string) (ws : WebSocket)
    (roomName userName : JSValue) (role : UserRole) (d : Draws) : list Sent :=
  let '(key, room, rooms1) := resolve_room s roomName d in
  let user := new_user userId ws role userName room d in
  let room' := joined_room room userId user in
  send_log env ws (room_joined (Room.id room') (Room.name room')
                     (JSMap.size (Room.users room'))).

(** The [send] calls of a join after its leave, when it goes to its end *)
Definition enter_log (env : Env) (s : State) (userId : string) (ws : WebSocket)
    (roomName userName : JSValue) (role : UserRole) (d : Draws) : list Sent :=
  let '(key, room, rooms1) := resolve_room s roomName d in
  let user := new_user userId ws role userName room d in
  let room' := joined_room room userId user in
  let s' := enter_state s userId ws roomName userName role d in
  send_log env ws (room_joined (Room.id room') (Room.name room')
                     (JSMap.size (Room.users room')))
  ++ room_broadcast env s' (Room.id room')
       (joined_message user (room_users_info s' (Room.id room')) d) (Some userId)
  ++ user_list_log env s' userId.

(** What [handleJoinRoom] does with a payload that passes its two tests,
    from the state and with the log its call of [handleLeaveRoom] left: it
    throws after the creation of a room whose name has no text, and after the
    insertions and the reply when the name of the user has none. *)
Definition enter_result (env : Env) (s : State) (l : list Sent) (userId : string)
    (ws : WebSocket) (roomName userName : JSValue) (role : UserRole) (d : Draws)
  : Res unit :=
  match find_room s roomName, ToString roomName with
  | None, Throw e => mkRes (Throw e) (create_state s roomName d) l
  | _, _ =>
      match ToString userName with
      | Throw e =>
          mkRes (Throw e) (enter_state s userId ws roomName userName role d)
                (l ++ joined_reply env s userId ws roomName userName role d)
      | Ok _ =>
          mkRes (Ok tt) (enter_state s userId ws roomName userName role d)
                (l ++ enter_log env s userId ws roomName userName role d)
      end
  end.

Definition join_result (env : Env) (s : State) (userId : string) (ws : WebSocket)
    (roomName userName : JSValue) (role : UserRole) (d : Draws) : Res unit :=
  let left := leave_result env s userId d in
  match out left with
  | Throw e => left
  | Ok _ => enter_result env (st left) (log left) userId ws roomName userName role d
  end.

(** ** Properties of states *)

(** Every stored room object carries the key it is stored under, and no key
    occurs twice. *)
Definition directory_ok (s : State) : Prop :=
  NoDup (JSMap.keys (rooms s)) /\
  forall k room, In (k, room) (rooms s) -> Room.id room = k.

Definition rooms_nonempty (s : State) : Prop :=
  forall k room, JSMap.get (rooms s) k = Some room ->
    JSMap.size (Room.users room) <> 0.

(** No two rooms have names that [===] takes for equal. *)
Definition names_unique (s : State) : Prop :=
  forall k1 room1 k2 room2,
    JSMap.get (rooms s) k1 = Some room1 ->
    JSMap.get (rooms s) k2 = Some room2 ->
    strict_eq (Room.name room1) (Room.name room2) = true -> k1 = k2.

(** The name of a room that has a member has a text. *)
Definition members_named (s : State) : Prop :=
  forall k room, JSMap.get (rooms s) k = Some room ->
    JSMap.size (Room.users room) <> 0 -> converts (Room.name room) = true.

(** [userId] is in the membership map of the room stored under [k]. *)
Definition member (s : State) (userId k : string) : Prop :=
  exists room, JSMap.get (rooms s) k = Some room /\
               JSMap.has (Room.users room) userId = true.

(** The sum of [room.users.size] over a directory *)
Definition members_sum (m : JSMap.t Room.t) : nat :=
  list_sum (map (fun room => JSMap.size (Room.users room)) (JSMap.values m)).

Definition total_members (s : State) : nat := members_sum (rooms s).

Record consistent (s : State) : Prop := mkConsistent {
  users_keys : NoDup (JSMap.keys (users s));
  members_keys : forall k room, JSMap.get (rooms s) k = Some room ->
      NoDup (JSMap.keys (Room.users room));
  user_in_room : forall userId user, JSMap.get (users s) userId = Some user ->
      exists room, JSMap.get (rooms s) (User.roomId user) = Some room /\
                   JSMap.get (Room.users room) userId = Some user;
  member_is_user : forall k room userId user,
      JSMap.get (rooms s) k = Some room ->
      JSMap.get (Room.users room) userId = Some user ->
      JSMap.get (users s) userId = Some user /\ User.roomId user = k;
  users_count : JSMap.size (users s) = total_members s
}.

(** The invariant of every run, and the one of runs whose room ids are fresh *)
Definition Inv (s : State) : Prop :=
  directory_ok s /\ names_unique s /\ members_named s.

Definition Inv_fresh (s : State) : Prop := Inv s /\ consistent s.

(** [ev] is a [join_room] message of the session [userId] with a payload. *)
Definition is_join_of (userId : string) (ev : Event) : bool :=
  match ev with
  | Incoming u _ (Parsed (Msg (Some (JString ty)) (PObject _))) _ =>
      String.eqb u userId && String.eqb ty "join_room"
  | _ => false
  end.

(** The session [userId] sent no [join_room] during the run. *)
Definition never_joined (userId : string) (tr : list (Env * Event)) : bool :=
  forallb (fun x => negb (is_join_of userId (snd x))) tr.

(** ** Sessions and their rooms *)

(** The session an event comes from *)
Definition event_user (ev : Event) : string :=
  match ev with
  | Connection userId _ => userId
  | Incoming userId _ _ _ => userId
  | Closed userId _ => userId
  end.

(** The record of [userId] in the membership map of the room stored under
    [k], if there is such a room and such a member *)
Definition member_record (s : State) (k userId : string) : option User.t :=
  match JSMap.get (rooms s) k with
  | Some room => JSMap.get (Room.users room) userId
  | None => None
  end.

(** The payload passes the two tests at the head of [handleJoinRoom]: the
    room name, the user name and the role it is accepted with. *)
Definition valid_join (p : Payload) : option (JSValue * JSValue * UserRole) :=
  match truthy_field (roomName p), truthy_field (userName p),
        truthy_field (userRole p) with
  | Some rn, Some un, Some ur =>
      match parseRole ur with
      | Some role => Some (rn, un, role)
      | None => None
      end
  | _, _, _ => None
  end.

(** Every [send] of the log was made on a socket in the OPEN state. *)
Definition all_open (env : Env) (l : list Sent) : Prop :=
  Forall (fun x => readyState env (fst x) = OPEN) l.

(** The stored records: a user is stored under its own id and has a truthy
    name, and so has every room. *)
Definition records_ok (s : State) : Prop :=
  (forall k user, JSMap.get (users s) k = Some user ->
     User.id user = k /\ ToBoolean (User.name user) = true) /\
  (forall k room, JSMap.get (rooms s) k = Some room ->
     ToBoolean (Room.name room) = true).


(** The names of an accepted [join_room] have a text, as every string, number
    and boolean has; other events pass. *)
Definition texts_ok_event (ev : Event) : bool :=
  match ev with
  | Incoming _ _ (Parsed (Msg (Some (JString ty)) (PObject p))) _ =>
      if String.eqb ty "join_room"
      then match valid_join p with
           | Some (rn, un, _) => converts rn && converts un
           | None => true
           end
      else true
  | _ => true
  end.

(** A run in which the names of every accepted [join_room] have a text *)
Definition texts_ok (tr : list (Env * Event)) : bool :=
  forallb (fun x => texts_ok_event (snd x)) tr.

(** The name of every stored user has a text. *)
Definition users_named (s : State) : Prop :=
  forall k user, JSMap.get (users s) k = Some user -> converts (User.name user) = true.

(** The name of the room [users] places the session in *)
Definition session_room (s : State) (userId : string) : option JSValue :=
  match JSMap.get (users s) userId with
  | Some user =>
      match JSMap.get (rooms s) (User.roomId user) with
      | Some room => Some (Room.name room)
      | None => None
      end
  | None => None
  end.

(** The state machine of one session, on the name of its room: [None] is
    "connected, in no room".  A connection leaves it where it is, an
    accepted [join_room] of the session moves it to the named room, its
    [leave_room] and its disconnection move it to no room, and nothing else
    moves it. *)
Definition session_machine (userId : string) (cur : option JSValue) (ev : Event)
  : option JSValue :=
  match ev with
  | Connection _ _ => cur
  | Closed v _ => if String.eqb v userId then None else cur
  | Incoming v _ (Parsed (Msg (Some (JString ty)) payload)) _ =>
      if String.eqb v userId then
        if String.eqb ty "join_room" then
          match payload with
          | PObject p =>
              match valid_join p with
              | Some (rn, _, _) => Some rn
              | None => cur
              end
          | _ => cur
          end
        else if String.eqb ty "chat_message" then cur
        else if String.eqb ty "leave_room" then None
        else cur
      else cur
  | Incoming _ _ _ _ => cur
  end.

(** ** The states a listener can leave *)

(** The state after an event of the session [u]: the state before it, the
    state after a leave, the state between the deletions of a leave that
    throws, and for an accepted [join_room] the state after the creation of a
    room whose name has no text, or the state after the insertions. *)
Inductive reached (s : State) (u : string) (ev : Event) : State -> Prop :=
| reached_same : reached s u ev s
| reached_leave : reached s u ev (leave_state s u)
| reached_mid user room :
    JSMap.get (users s) u = Some user ->
    JSMap.get (rooms s) (User.roomId user) = Some room ->
    converts (User.name user) = false ->
    reached s u ev (leave_mid s u user room)
| reached_create ws p d rn un role :
    ev = Incoming u ws (Parsed (Msg (Some (JString "join_room")) (PObject p))) d ->
    valid_join p = Some (rn, un, role) ->
    find_room (leave_state s u) rn = None ->
    converts rn = false ->
    reached s u ev (create_state (leave_state s u) rn d)
| reached_enter ws p d rn un role :
    ev = Incoming u ws (Parsed (Msg (Some (JString "join_room")) (PObject p))) d ->
    valid_join p = Some (rn, un, role) ->
    (find_room (leave_state s u) rn <> None \/ converts rn = true) ->
    reached s u ev (enter_state (leave_state s u) u ws rn un role d).

(** ** Sample values: the scenario of the specification *)

(** Every socket open, no send throws. *)
Definition env_open : Env := mkEnv (fun _ => OPEN) (fun _ _ => false).

(** Alice's socket throws on send, Carol's is closing. *)
Definition env_faulty : Env :=
  mkEnv (fun ws => if String.eqb ws "wsC" then CLOSING else OPEN)
        (fun ws _ => String.eqb ws "wsA").

Definition draws (room : string) : Draws :=
  mkDraws room "m-left" "m-joined" "m-chat" 10 20 30 40 50.

Definition join_payload (room name : JSValue) (role : string) : Payload :=
  mkPayload (Some room) (Some name) (Some (JString role)) None.

Definition join_message (p : Payload) : Frame :=
  Parsed (Msg (Some (JString "join_room")) (PObject p)).

Definition join_frame (room name role : string) : Frame :=
  join_message (join_payload (JString room) (JString name) role).

Definition chat_frame (text : option string) : Frame :=
  Parsed (Msg (Some (JString "chat_message"))
            (PObject (mkPayload None None None (option_map JString text)))).

Definition leave_frame : Frame :=
  Parsed (Msg (Some (JString "leave_room")) PUndefined).

(** A connects and joins "alpha", B connects and joins "alpha", C connects and
    joins "beta". *)
Definition trace_abc : list (Env * Event) :=
  [ (env_open, Connection "A" "wsA");
    (env_open, Incoming "A" "wsA" (join_frame "alpha" "Alice" "product_manager") (draws "r1"));
    (env_open, Connection "B" "wsB");
    (env_open, Incoming "B" "wsB" (join_frame "alpha" "Bob" "developer") (draws "r2"));
    (env_open, Connection "C" "wsC");
    (env_open, Incoming "C" "wsC" (join_frame "beta" "Carol" "developer") (draws "r3")) ].

Definition state_abc : State := run init trace_abc.

(** A join payload with a role outside the enumeration *)
Definition payload_bad_role : Payload :=
  join_payload (JString "beta") (JString "Alice") "admin".

(** The records of Alice and Bob in [state_abc] *)
Definition alice : User.t :=
  User.mk "A" "wsA" product_manager (JString "Alice") "r1" 30.
Definition bob : User.t := User.mk "B" "wsB" developer (JString "Bob") "r1" 30.

(** The state after A and B joined "alpha" *)
Definition state_ab : State := run init (firstn 4 trace_abc).

(** Valid join payloads *)
Definition payload_alice_beta : Payload :=
  join_payload (JString "beta") (JString "Alice") "product_manager".
Definition payload_dave_alpha : Payload :=
  join_payload (JString "alpha") (JString "Dave") "developer".

(** The room "alpha" in [state_abc] *)
Definition room_alpha : Room.t :=
  Room.mk "r1" (JString "alpha") [("A", alice); ("B", bob)] 20.

(** Carol and her room in [state_abc] *)
Definition carol : User.t := User.mk "C" "wsC" developer (JString "Carol") "r3" 30.
Definition room_beta : Room.t := Room.mk "r3" (JString "beta") [("C", carol)] 20.

(** A join payload for the room one is in, and one with an empty room name *)
Definition payload_carol_beta : Payload :=
  join_payload (JString "beta") (JString "Carol") "developer".
Definition payload_empty_room : Payload :=
  join_payload (JString "") (JString "Alice") "admin".

(** The JSON object [{"toString": 1}], which has no text, and the array
    [["alpha"]], whose text is [alpha] *)
Definition no_text : JSValue := JObject [("toString", JNumber "1")].
Definition alpha_array : JSValue := JArray [JString "alpha"].

(** Join payloads with a room name and with a user name that has no text,
    and with an array for the room name *)
Definition payload_room_no_text : Payload :=
  join_payload no_text (JString "Alice") "developer".
Definition payload_name_no_text : Payload :=
  join_payload (JString "alpha") no_text "developer".
Definition payload_room_array (name : string) : Payload :=
  join_payload alpha_array (JString name) "developer".

(** A joins "alpha" under a name that has no text: the join is stored, then
    throws. *)
Definition trace_no_text : list (Env * Event) :=
  [ (env_open, Connection "A" "wsA");
    (env_open, Incoming "A" "wsA" (join_message payload_name_no_text) (draws "r1")) ].

(** A and B join with the room name [["alpha"]]. *)
Definition trace_arrays : list (Env * Event) :=
  [ (env_open, Connection "A" "wsA");
    (env_open, Incoming "A" "wsA" (join_message (payload_room_array "Alice")) (draws "r1"));
    (env_open, Connection "B" "wsB");
    (env_open, Incoming "B" "wsB" (join_message (payload_room_array "Bob")) (draws "r2")) ].
(** * The conversation history of [ChatSDK]

    [src/phase-web-api/src/pkg/agent/chat.ts].  A message is a value: the
    only assignment to a stored message, in [updateSystemPrompt], is modelled
    by the replacement of the message in the list.  [maxLength] is a JavaScript
    number; the model takes it to be an integer.  The fields of a completion
    that [ResponseExtractor] reads are strings or absent, and the value a
    rejected API call carries is an object.  [chat] has one [await], of the
    API call, and the SDK of [translateController] is one object shared by
    all requests: [chat] is given by its two synchronous segments,
    [chat_begin] up to the call and [chat_end] from its settlement on, and
    other calls on the same SDK may run between the two. *)

Module ChatSDK.

Inductive Role : Type := system | user | assistant.

Definition is_system (r : Role) : bool :=
  match r with system => true | _ => false end.

Record ChatMessage : Type := mkChatMessage {
  role : Role;
  content : string;
  timestamp : Z
}.

Record ChatHistory : Type := mkChatHistory {
  messages : list ChatMessage;
  maxLength : Z
}.

(** [msg => msg.role === 'system'] and [msg => msg.role !== 'system'] *)
Definition isSystemMessage (m : ChatMessage) : bool := is_system (role m).
Definition notSystemMessage (m : ChatMessage) : bool := negb (is_system (role m)).

(** [array.slice(start)] for an integer [start]: a negative [start] counts
    from the end. *)
Definition slice {A : Type} (l : list A) (start : Z) : list A :=
  let len := Z.of_nat (List.length l) in
  let k := if (start <? 0)%Z then Z.max (len + start) 0 else Z.min start len in
  skipn (Z.to_nat k) l.

(** The constructor: [systemPrompt ? [{ role: 'system', ... }] : []] and
    [maxLength: 20] *)
Definition create (systemPrompt : option string) (now : Z) : ChatHistory :=
  mkChatHistory
    match truthy systemPrompt with
    | Some p => [mkChatMessage system p now]
    | None => []
    end
    20.

Definition addMessage (h : ChatHistory) (r : Role) (c : string) (now : Z)
  : ChatHistory :=
  let pushed := (messages h ++ [mkChatMessage r c now])%list in
  if negb (maxLength h =? 0)%Z && (Z.of_nat (List.length pushed) >? maxLength h)%Z
  then
    let systemMessage := find isSystemMessage pushed in
    let otherMessages :=
      slice (filter notSystemMessage pushed)
            (- maxLength h + (match systemMessage with Some _ => 1 | None => 0 end))%Z in
    mkChatHistory
      match systemMessage with
      | Some m => m :: otherMessages
      | None => otherMessages
      end
      (maxLength h)
  else mkChatHistory pushed (maxLength h).

(** [{ role, content }], the message as the API takes it *)
Record OpenAIMessage : Type := mkOpenAIMessage {
  api_role : Role;
  api_content : string
}.

Definition convertToOpenAIMessage (msg : ChatMessage) : OpenAIMessage :=
  match role msg with
  | system => mkOpenAIMessage system (content msg)
  | user => mkOpenAIMessage user (content msg)
  | assistant => mkOpenAIMessage assistant (content msg)
  end.

Definition getFormattedMessages (h : ChatHistory) : list OpenAIMessage :=
  map convertToOpenAIMessage (messages h).

Definition getHistory (h : ChatHistory) : list ChatMessage := messages h.

Definition clearHistory (h : ChatHistory) (keepSystemPrompt : bool) : ChatHistory :=
  if keepSystemPrompt
  then mkChatHistory
         match find isSystemMessage (messages h) with
         | Some m => [m]
         | None => []
         end
         (maxLength h)
  else mkChatHistory [] (maxLength h).

(** [findIndex] of the first system message and the assignment of its
    [content] and [timestamp]; [None] when there is none *)
Fixpoint updateFirstSystem (l : list ChatMessage) (systemPrompt : string) (now : Z)
  : option (list ChatMessage) :=
  match l with
  | [] => None
  | m :: l' =>
      if isSystemMessage m
      then Some (mkChatMessage (role m) systemPrompt now :: l')
      else match updateFirstSystem l' systemPrompt now with
           | Some l'' => Some (m :: l'')
           | None => None
           end
  end.

Definition updateSystemPrompt (h : ChatHistory) (systemPrompt : string) (now : Z)
  : ChatHistory :=
  match updateFirstSystem (messages h) systemPrompt now with
  | Some l => mkChatHistory l (maxLength h)
  | None => mkChatHistory (mkChatMessage system systemPrompt now :: messages h)
                          (maxLength h)
  end.

Definition setMaxHistoryLength (h : ChatHistory) (n : Z) : ChatHistory :=
  mkChatHistory (messages h) n.

(** ** [getStats] *)

Definition is_user (r : Role) : bool :=
  match r with user => true | _ => false end.
Definition is_assistant (r : Role) : bool :=
  match r with assistant => true | _ => false end.

(** [m.timestamp || 0] *)
Definition timestamp_or_0 (m : ChatMessage) : Z :=
  if (timestamp m =? 0)%Z then 0%Z else timestamp m.

(** [Math.min(...)] and [Math.max(...)] of one number or more *)
Definition Math_min (x : Z) (xs : list Z) : Z := fold_left Z.min xs x.
Definition Math_max (x : Z) (xs : list Z) : Z := fold_left Z.max xs x.

(** The dates are given by their time value; [None] is [null]. *)
Record Stats : Type := mkStats {
  totalMessages : nat;
  systemMessages : nat;
  userMessages : nat;
  assistantMessages : nat;
  oldestMessage : option Z;
  newestMessage : option Z
}.

Definition getStats (h : ChatHistory) : Stats :=
  mkStats
    (List.length (messages h))
    (List.length (filter (fun m => is_system (role m)) (messages h)))
    (List.length (filter (fun m => is_user (role m)) (messages h)))
    (List.length (filter (fun m => is_assistant (role m)) (messages h)))
    match map timestamp_or_0 (messages h) with
    | x :: xs => Some (Math_min x xs)
    | [] => None
    end
    match map timestamp_or_0 (messages h) with
    | x :: xs => Some (Math_max x xs)
    | [] => None
    end.

(** ** [ResponseExtractor] *)

Record CompletionMessage : Type := mkCompletionMessage {
  message_content : option string;
  message_text : option string
}.

Record Choice : Type := mkChoice {
  message : option CompletionMessage;
  text : option string;
  delta_content : option string;     (* [delta?.content] *)
  finish_reason : string
}.

(** [completion.choices], absent or an array whose elements may be null *)
Record Completion : Type := mkCompletion {
  choices : option (list (option Choice))
}.

Definition extractContent (completion : option Completion) : outcome string :=
  match completion with
  | None => Throw "无效的API响应: choices为空"
  | Some c =>
      match choices c with
      | None | Some [] => Throw "无效的API响应: choices为空"
      | Some (None :: _) => Throw "无效的API响应: 第一个choice不存在"
      | Some (Some firstChoice :: _) =>
          match truthy (match message firstChoice with
                        | Some m => message_content m | None => None end) with
          | Some s => Ok s
          | None =>
              match truthy (match message firstChoice with
                            | Some m => message_text m | None => None end) with
              | Some s => Ok s
              | None =>
                  match text firstChoice with
                  | Some s => Ok s
                  | None =>
                      match truthy (delta_content firstChoice) with
                      | Some s => Ok s
                      | None =>
                          Throw ("无法提取回复内容。完成原因: " ++ finish_reason firstChoice)
                      end
                  end
              end
          end
      end
  end.

Definition safeExtract (completion : option Completion) (defaultValue : string) : string :=
  match extractContent completion with
  | Ok s => s
  | Throw _ => defaultValue
  end.

(** ** [chat] *)

(** What the rejected promise of the API call carries, as the [catch] of
    [chat] reads it: [error.response] (its status and the JSON text of its
    data), [error.code], [error.message], and whether it is an [Error]. *)
Record ApiError : Type := mkApiError {
  response : option (string * string);
  code : option string;
  err_message : string;
  instanceofError : bool
}.

Inductive ApiOutcome : Type :=
| Resolved (completion : option Completion)
| Rejected (e : ApiError).

Definition chatError (e : ApiError) : string :=
  match response e with
  | Some (status, data) => "API错误: " ++ status ++ " - " ++ data
  | None =>
      match truthy (code e) with
      | Some c => "连接错误: " ++ c ++ " - " ++ err_message e
      | None =>
          "聊天失败: " ++ (if instanceofError e then err_message e else "未知错误")
      end
  end.

(** [chat] up to its [await]: the user's message is added, and the request
    carries the history as it is then. *)
Definition chat_begin (h : ChatHistory) (userInput : string) (now_user : Z)
  : ChatHistory * list OpenAIMessage :=
  let h1 := addMessage h user userInput now_user in
  (h1, getFormattedMessages h1).

(** [chat] from the settlement of the API call on, with the history [h] of
    that time: what [chat] returns or throws, and the history it leaves. *)
Definition chat_end (h : ChatHistory) (answer : ApiOutcome) (now_reply : Z)
  : outcome (option Completion) * ChatHistory :=
  match answer with
  | Resolved completion =>
      match extractContent completion with
      | Ok assistantContent =>
          (Ok completion,
           match truthy (Some assistantContent) with
           | Some _ => addMessage h assistant assistantContent now_reply
           | None => h
           end)
      | Throw msg => (Throw ("聊天失败: " ++ msg), h)
      end
  | Rejected e => (Throw (chatError e), h)
  end.

(** A [chat] during whose [await] no other call on the SDK runs; [api] gives
    the settlement of the call for a request. *)
Definition chat (h : ChatHistory) (userInput : string) (now_user : Z)
    (api : list OpenAIMessage -> ApiOutcome) (now_reply : Z)
  : outcome (option Completion) * ChatHistory :=
  let begun := chat_begin h userInput now_user in
  chat_end (fst begun) (api (snd begun)) now_reply.

(** ** [translateController]: the use of the SDK for one request *)

(** [sdk.updateSystemPrompt(config.systemPrompt); sdk.clearHistory(true);
    await sdk.chat(content, chatOptions)], up to the [await]: the three calls
    run with nothing in between. *)
Definition translate_begin (h : ChatHistory) (systemPrompt content : string)
    (now_prompt now_user : Z) : ChatHistory * list OpenAIMessage :=
  chat_begin (clearHistory (updateSystemPrompt h systemPrompt now_prompt) true)
             content now_user.

(** The synchronous steps on an SDK: the two segments of a [chat] and the
    other public operations.  A sequence of them is an interleaving of
    calls. *)
Inductive Op : Type :=
| OpChatBegin (userInput : string) (now_user : Z)
| OpChatEnd (answer : ApiOutcome) (now_reply : Z)
| OpClearHistory (keepSystemPrompt : bool)
| OpUpdateSystemPrompt (systemPrompt : string) (now : Z)
| OpSetMaxHistoryLength (n : Z).

Definition apply (h : ChatHistory) (op : Op) : ChatHistory :=
  match op with
  | OpChatBegin userInput now_user => fst (chat_begin h userInput now_user)
  | OpChatEnd answer now_reply => snd (chat_end h answer now_reply)
  | OpClearHistory keep => clearHistory h keep
  | OpUpdateSystemPrompt p now => updateSystemPrompt h p now
  | OpSetMaxHistoryLength n => setMaxHistoryLength h n
  end.

(** No message after the first is a system message. *)
Definition prompt_first (l : list ChatMessage) : Prop :=
  forall m, In m (tl l) -> isSystemMessage m = false.

End ChatSDK.

(** Sample values of the conversation history *)

Definition prompt_message : ChatSDK.ChatMessage :=
  ChatSDK.mkChatMessage ChatSDK.system "translate" 100.

Definition question_message : ChatSDK.ChatMessage :=
  ChatSDK.mkChatMessage ChatSDK.user "first question" 101.

(** A history at its limit of two messages, and the same with the limit 1 *)
Definition history_full : ChatSDK.ChatHistory :=
  ChatSDK.mkChatHistory [prompt_message; question_message] 2.

Definition history_limit_one : ChatSDK.ChatHistory :=
  ChatSDK.mkChatHistory [prompt_message; question_message] 1.

(** A completion whose only content is an empty [text], a completion with
    an answer, and an API that gives the latter *)
Definition completion_empty_text : ChatSDK.Completion :=
  ChatSDK.mkCompletion
    (Some [Some (ChatSDK.mkChoice (Some (ChatSDK.mkCompletionMessage (Some "") None))
                                  (Some "") None "stop")]).

Definition completion_answer : ChatSDK.Completion :=
  ChatSDK.mkCompletion
    (Some [Some (ChatSDK.mkChoice (Some (ChatSDK.mkCompletionMessage (Some "an answer") None))
                                  None None "stop")]).

Definition api_answers (req : list ChatSDK.OpenAIMessage) : ChatSDK.ApiOutcome :=
  ChatSDK.Resolved (Some completion_answer).

(** * The cache and the in-memory database

    [CacheManager] ([src/unnamed/part_000]) and [MemoryDatabase]
    ([src/phase-web-api/src/pkg/db/memory-db.ts]).  Times are the values of
    [Date.now()], given to each operation in the order it reads the clock; a
    [ttl] is an integer number of seconds.  The file of the database is not
    modelled: [saveToFile] catches its own failures and changes neither map.
    Every operation of the database changes its two maps before its first
    [await], so an operation is one step.  The constructor starts
    [loadFromFile] and does not await it: the load is a step of its own,
    which comes after the construction and possibly after operations. *)

Module CacheManager.
Section Ops.
Context {V : Type}.

Record CacheItem : Type := mkCacheItem {
  value : V;
  expiresAt : option Z;
  createdAt : Z
}.

Definition t : Type := JSMap.t CacheItem.

(** [item.expiresAt && item.expiresAt < now] *)
Definition expired (item : CacheItem) (now : Z) : bool :=
  match expiresAt item with
  | Some e => negb (e =? 0)%Z && (e <? now)%Z
  | None => false
  end.

(** [ttl ? now + ttl * 1000 : undefined] *)
Definition expiry (ttl : option Z) (now : Z) : option Z :=
  match ttl with
  | Some n => if (n =? 0)%Z then None else Some (now + n * 1000)%Z
  | None => None
  end.

Definition set (c : t) (key : string) (v : V) (ttl : option Z)
    (now_created now_expires : Z) : t :=
  JSMap.set c key (mkCacheItem v (expiry ttl now_expires) now_created).

Definition get (c : t) (key : string) (now : Z) : option V * t :=
  match JSMap.get c key with
  | None => (None, c)
  | Some item =>
      if expired item now then (None, JSMap.delete c key)
      else (Some (value item), c)
  end.

Definition delete (c : t) (key : string) : bool * t :=
  (JSMap.has c key, JSMap.delete c key).

Definition clear (c : t) : t := JSMap.empty.

Definition has (c : t) (key : string) (now : Z) : bool * t :=
  match JSMap.get c key with
  | None => (false, c)
  | Some item =>
      if expired item now then (false, JSMap.delete c key)
      else (true, c)
  end.

(** The loop over [this.cache.entries()] that deletes the expired keys *)
Definition cleanup (c : t) (now : Z) : t :=
  fold_left (fun m e => if expired (snd e) now then JSMap.delete m (fst e) else m) c c.

Definition size (c : t) (now : Z) : nat * t :=
  (JSMap.size (cleanup c now), cleanup c now).

Definition keys (c : t) (now : Z) : list string * t :=
  (JSMap.keys (cleanup c now), cleanup c now).

End Ops.
Arguments CacheItem : clear implicits.
Arguments t : clear implicits.
End CacheManager.

Module MemoryDatabase.
Section Ops.
Context {V : Type}.

(** Whether a stored value is truthy, for [if (cached) return cached] *)
Variable truthy_value : V -> bool.

Record DatabaseRecord : Type := mkDatabaseRecord {
  value : V;
  createdAt : Z;
  expiresAt : option Z
}.

Record t : Type := mk {
  data : JSMap.t DatabaseRecord;
  cache : CacheManager.t V
}.

(** [record.expiresAt && record.expiresAt < Date.now()] *)
Definition expired (record : DatabaseRecord) (now : Z) : bool :=
  match expiresAt record with
  | Some e => negb (e =? 0)%Z && (e <? now)%Z
  | None => false
  end.

(** The clock as [set] reads it: twice for the record, twice in
    [this.cache.set] *)
Record SetTimes : Type := mkSetTimes {
  record_created : Z;
  record_expires : Z;
  cache_created : Z;
  cache_expires : Z
}.

Definition set (db : t) (key : string) (v : V) (ttl : option Z) (times : SetTimes) : t :=
  let record := mkDatabaseRecord v (record_created times)
                  (CacheManager.expiry ttl (record_expires times)) in
  mk (JSMap.set (data db) key record)
     (CacheManager.set (cache db) key v ttl (cache_created times) (cache_expires times)).

Definition delete (db : t) (key : string) : bool * t :=
  let existed := JSMap.has (data db) key in
  (existed, mk (JSMap.delete (data db) key) (snd (CacheManager.delete (cache db) key))).

(** The clock as [get] reads it: in [this.cache.get], at the check of the
    record, and in [this.cache.set] *)
Record GetTimes : Type := mkGetTimes {
  cache_checked : Z;
  record_checked : Z;
  cached_again : Z
}.

Definition get (db : t) (key : string) (times : GetTimes) : option V * t :=
  let (cached, cache1) := CacheManager.get (cache db) key (cache_checked times) in
  let db1 := mk (data db) cache1 in
  let from_data :=
    match JSMap.get (data db1) key with
    | None => (None, db1)
    | Some record =>
        if expired record (record_checked times)
        then (None, snd (delete db1 key))
        else (Some (value record),
              mk (data db1)
                 (CacheManager.set (cache db1) key (value record) None
                    (cached_again times) (cached_again times)))
    end in
  match cached with
  | Some v => if truthy_value v then (Some v, db1) else from_data
  | None => from_data
  end.

Definition exists_ (db : t) (key : string) (now : Z) : bool * t :=
  match JSMap.get (data db) key with
  | None => (false, db)
  | Some record =>
      if expired record now then (false, snd (delete db key))
      else (true, db)
  end.

Definition clear (db : t) : t := mk JSMap.empty (CacheManager.clear (cache db)).

(** [new MemoryDatabase(...)] *)
Definition create : t := mk JSMap.empty JSMap.empty.

(** The end of [loadFromFile]: [this.data = new Map(Object.entries(data))]
    when the file gave an object, here the map [file] of its records; nothing
    when the load failed or gave no object. *)
Definition load (db : t) (file : option (JSMap.t DatabaseRecord)) : t :=
  match file with
  | Some records => mk records (cache db)
  | None => db
  end.

(** The operations on a database, and the timer of its cache *)
Inductive Op : Type :=
| OpSet (key : string) (v : V) (ttl : option Z) (times : SetTimes)
| OpGet (key : string) (times : GetTimes)
| OpDelete (key : string)
| OpExists (key : string) (now : Z)
| OpClear
| OpCleanup (now : Z)
| OpLoad (file : option (JSMap.t DatabaseRecord)).

Definition apply (db : t) (op : Op) : t :=
  match op with
  | OpSet key v ttl times => set db key v ttl times
  | OpGet key times => snd (get db key times)
  | OpDelete key => snd (delete db key)
  | OpExists key now => snd (exists_ db key now)
  | OpClear => clear db
  | OpCleanup now => mk (data db) (CacheManager.cleanup (cache db) now)
  | OpLoad file => load db file
  end.

(** Whether an operation is the load *)
Definition is_load (op : Op) : bool :=
  match op with OpLoad _ => true | _ => false end.


End Ops.
Arguments DatabaseRecord : clear implicits.
Arguments t : clear implicits.
Arguments Op : clear implicits.
End MemoryDatabase.

(** Every key of the cache of a database is a key of its data. *)
Definition cached_keys_stored {V : Type} (db : MemoryDatabase.t V) : Prop :=
  forall k, In k (JSMap.keys (MemoryDatabase.cache db)) ->
            In k (JSMap.keys (MemoryDatabase.data db)).


(** Sample values of the cache and of the database *)

Definition cache_sample : CacheManager.t string :=
  [("old", CacheManager.mkCacheItem "stale" (Some 4000%Z) 1000%Z);
   ("new", CacheManager.mkCacheItem "fresh" (Some 9000%Z) 1000%Z)].

(** The truthiness of a string value *)
Definition string_truthy (s : string) : bool := negb (String.eqb s "").

Definition record_sample : MemoryDatabase.DatabaseRecord string :=
  MemoryDatabase.mkDatabaseRecord "hello" 1000%Z (Some 4000%Z).

(** A database after the load of one record from its file *)
Definition db_loaded : MemoryDatabase.t string :=
  MemoryDatabase.mk [("greeting", record_sample)] JSMap.empty.

Definition get_times_sample : MemoryDatabase.GetTimes :=
  MemoryDatabase.mkGetTimes 2000%Z 2000%Z 2000%Z.

(** * Verification *)

(** ** Facts on [JSMap] *)

Module JSMapFacts.
Import JSMap.

Section Facts.
Context {V : Type}.
Implicit Types (m : JSMap.t V) (k : string) (v : V).

Lemma get_set m k v k' :
  get (set m k v) k' = if String.eqb k k' then Some v else get m k'.
Proof.
  induction m as [|[k0 v0] m IH]; simpl.
  - reflexivity.
  - destruct (String.eqb_spec k0 k) as [->|Hk0]; simpl.
    + destruct (String.eqb k k'); reflexivity.
    + rewrite IH. destruct (String.eqb_spec k0 k') as [->|Hk0'].
      * destruct (String.eqb_spec k k'); congruence.
      * reflexivity.
Qed.

Lemma get_set_same m k v : get (set m k v) k = Some v.
Proof. rewrite get_set, String.eqb_refl. reflexivity. Qed.

Lemma get_set_other m k v k' : k <> k' -> get (set m k v) k' = get m k'.
Proof.
  intros H. rewrite get_set. destruct (String.eqb_spec k k'); congruence.
Qed.

Lemma get_delete m k k' :
  get (delete m k) k' = if String.eqb k k' then None else get m k'.
Proof.
  unfold delete. induction m as [|[k0 v0] m IH]; simpl.
  - destruct (String.eqb k k'); reflexivity.
  - destruct (String.eqb_spec k0 k) as [->|Hk0]; simpl.
    + rewrite IH. destruct (String.eqb k k'); reflexivity.
    + rewrite IH. destruct (String.eqb_spec k0 k') as [->|Hk0'].
      * destruct (String.eqb_spec k k'); congruence.
      * reflexivity.
Qed.

Lemma get_delete_same m k : get (delete m k) k = None.
Proof. rewrite get_delete, String.eqb_refl. reflexivity. Qed.

Lemma get_delete_other m k k' : k <> k' -> get (delete m k) k' = get m k'.
Proof.
  intros H. rewrite get_delete. destruct (String.eqb_spec k k'); congruence.
Qed.

Lemma get_In m k v : get m k = Some v -> In (k, v) m.
Proof.
  induction m as [|[k0 v0] m IH]; simpl; [discriminate|].
  destruct (String.eqb_spec k0 k) as [->|Hk0]; intros H.
  - left. congruence.
  - right. auto.
Qed.

Lemma get_None_keys m k : get m k = None <-> ~ In k (keys m).
Proof.
  induction m as [|[k0 v0] m IH]; simpl.
  - tauto.
  - destruct (String.eqb_spec k0 k) as [->|Hk0].
    + split; [discriminate | intros H; exfalso; apply H; now left].
    + rewrite IH. tauto.
Qed.

Lemma In_get m k v : NoDup (keys m) -> In (k, v) m -> get m k = Some v.
Proof.
  induction m as [|[k0 v0] m IH]; simpl; [tauto|].
  intros Hnd [Heq|Hin]; inversion Hnd as [|? ? Hnotin Hnd']; subst.
  - inversion Heq; subst. now rewrite String.eqb_refl.
  - destruct (String.eqb_spec k0 k) as [->|Hk0]; [|auto].
    exfalso. apply Hnotin. change k with (fst (k, v)). now apply in_map.
Qed.

Lemma delete_absent m k : get m k = None -> delete m k = m.
Proof.
  unfold delete. induction m as [|[k0 v0] m IH]; simpl; [reflexivity|].
  destruct (String.eqb_spec k0 k) as [->|Hk0]; [discriminate|].
  intros H. simpl. now rewrite IH.
Qed.

Lemma set_absent m k v : get m k = None -> set m k v = (m ++ [(k, v)])%list.
Proof.
  induction m as [|[k0 v0] m IH]; simpl; [reflexivity|].
  destruct (String.eqb_spec k0 k) as [->|Hk0]; [discriminate|].
  intros H. now rewrite IH.
Qed.

Lemma keys_set_present m k v v0 : get m k = Some v0 -> keys (set m k v) = keys m.
Proof.
  induction m as [|[k1 v1] m IH]; simpl; [discriminate|].
  destruct (String.eqb_spec k1 k) as [->|Hk1]; simpl; [reflexivity|].
  intros H. now rewrite IH.
Qed.

Lemma In_keys_set m k v k' : In k' (keys (set m k v)) <-> k' = k \/ In k' (keys m).
Proof.
  induction m as [|[k1 v1] m IH]; simpl.
  - intuition congruence.
  - destruct (String.eqb_spec k1 k) as [->|Hk1]; simpl.
    + intuition congruence.
    + rewrite IH. tauto.
Qed.

Lemma NoDup_keys_set m k v : NoDup (keys m) -> NoDup (keys (set m k v)).
Proof.
  induction m as [|[k1 v1] m IH]; simpl; intros Hnd.
  - constructor; [tauto | constructor].
  - inversion Hnd as [|? ? Hnotin Hnd']; subst.
    destruct (String.eqb_spec k1 k) as [->|Hk1]; simpl.
    + now constructor.
    + constructor; [|auto]. rewrite In_keys_set. intros [->|H]; tauto.
Qed.

Lemma In_delete m k e : In e (delete m k) <-> In e m /\ fst e <> k.
Proof.
  unfold delete. rewrite filter_In.
  destruct (String.eqb_spec (fst e) k); simpl; intuition congruence.
Qed.

Lemma In_keys_delete m k k' : In k' (keys (delete m k)) -> In k' (keys m).
Proof.
  unfold keys. rewrite !in_map_iff. intros [e [He Hin]].
  apply In_delete in Hin. exists e. tauto.
Qed.

Lemma NoDup_keys_delete m k : NoDup (keys m) -> NoDup (keys (delete m k)).
Proof.
  unfold delete. induction m as [|[k1 v1] m IH]; simpl; intros Hnd; [constructor|].
  inversion Hnd as [|? ? Hnotin Hnd']; subst.
  destruct (String.eqb k1 k); simpl; [auto|].
  constructor; [|auto]. intros H. apply Hnotin. now apply In_keys_delete in H.
Qed.

Lemma In_set m k v e : In e (set m k v) -> e = (k, v) \/ In e m.
Proof.
  induction m as [|[k1 v1] m IH]; simpl.
  - intuition.
  - destruct (String.eqb_spec k1 k) as [->|Hk1]; simpl; intuition.
Qed.

Lemma size_set_absent m k v : get m k = None -> size (set m k v) = S (size m).
Proof.
  intros H. rewrite set_absent by assumption. unfold size.
  rewrite length_app. simpl. lia.
Qed.

Lemma size_set_present m k v v0 : get m k = Some v0 -> size (set m k v) = size m.
Proof.
  unfold size. induction m as [|[k1 v1] m IH]; simpl; [discriminate|].
  destruct (String.eqb_spec k1 k) as [->|Hk1]; simpl; [reflexivity|].
  intros H. now rewrite IH.
Qed.

Lemma size_set_pos m k v : size (set m k v) <> 0.
Proof.
  unfold size. destruct m as [|[k1 v1] m]; simpl; [discriminate|].
  destruct (String.eqb k1 k); simpl; discriminate.
Qed.

Lemma size_delete m k v :
  NoDup (keys m) -> get m k = Some v -> S (size (delete m k)) = size m.
Proof.
  unfold size, delete. induction m as [|[k1 v1] m IH]; simpl; [discriminate|].
  intros Hnd H. inversion Hnd as [|? ? Hnotin Hnd']; subst.
  destruct (String.eqb_spec k1 k) as [->|Hk1]; simpl.
  - apply get_None_keys in Hnotin. apply delete_absent in Hnotin.
    unfold delete in Hnotin. now rewrite Hnotin.
  - now rewrite IH.
Qed.

Lemma has_true m k : has m k = true <-> exists v, get m k = Some v.
Proof.
  unfold has. destruct (get m k); split; try eauto; try discriminate.
  intros [v H]; discriminate.
Qed.

Lemma has_false m k : has m k = false <-> get m k = None.
Proof.
  unfold has. destruct (get m k); split; congruence.
Qed.

End Facts.
End JSMapFacts.

(** ** What each method returns *)

Lemma bind_eq {A B} (m : M A) (f : A -> M B) s a s1 l1 :
  m s = mkRes (Ok a) s1 l1 ->
  bind m f s = mkRes (out (f a s1)) (st (f a s1)) (l1 ++ log (f a s1)).
Proof. intros H. unfold bind. rewrite H. reflexivity. Qed.

Lemma bind_throw {A B} (m : M A) (f : A -> M B) s e s1 l1 :
  m s = mkRes (Throw e) s1 l1 -> bind m f s = mkRes (Throw e) s1 l1.
Proof. intros H. unfold bind. rewrite H. reflexivity. Qed.

Lemma res_eta {A} (r : Res A) : mkRes (out r) (st r) (log r) = r.
Proof. destruct r; reflexivity. Qed.

Lemma bind_get {B} (f : State -> M B) s : bind get_state f s = f s s.
Proof. unfold bind, get_state. simpl. apply res_eta. Qed.

Lemma bind_put {B} s' (f : unit -> M B) s : bind (put_state s') f s = f tt s'.
Proof. unfold bind, put_state. simpl. apply res_eta. Qed.

Lemma bind_silent {A B} (m : M A) (f : A -> M B) s a s1 :
  m s = mkRes (Ok a) s1 [] -> bind m f s = f a s1.
Proof. intros H. rewrite (bind_eq _ _ _ _ _ _ H). simpl. apply res_eta. Qed.

Lemma forEach_eq {A} (f : A -> M unit) (g : A -> list Sent) :
  (forall x s, f x s = mkRes (Ok tt) s (g x)) ->
  forall l s, forEach l f s = mkRes (Ok tt) s (flat_map g l).
Proof.
  intros Hf l. induction l as [|x l IH]; intros s; simpl.
  - reflexivity.
  - rewrite (bind_eq _ _ _ _ _ _ (Hf x s)), IH. reflexivity.
Qed.

(** ** Conversions *)

Lemma logger_info_eq vs s : logger_info vs s = mkRes (template vs) s [].
Proof.
  induction vs as [|v vs IH]; simpl; [reflexivity|].
  unfold bind, to_text. simpl. destruct (ToString v) as [t|e]; simpl; [|reflexivity].
  rewrite IH. reflexivity.
Qed.

Lemma to_text_converts v s :
  converts v = true -> to_text v s = mkRes (Ok (text_of v)) s [].
Proof.
  unfold converts, to_text, text_of. destruct (ToString v); [reflexivity|discriminate].
Qed.

Lemma converts_Ok v : converts v = true <-> exists t, ToString v = Ok t.
Proof.
  unfold converts. destruct (ToString v) as [t|e]; split; intros H;
    try reflexivity; try discriminate; eauto.
  destruct H; discriminate.
Qed.

Lemma converts_false v : converts v = false <-> exists e, ToString v = Throw e.
Proof.
  unfold converts. destruct (ToString v) as [t|e]; split; intros H;
    try reflexivity; try discriminate; eauto.
  destruct H; discriminate.
Qed.

(** Values that [===] takes for equal are equal, and have a text. *)
Lemma strict_eq_true a b : strict_eq a b = true -> a = b /\ converts a = true.
Proof.
  destruct a, b; simpl; try discriminate; intros H.
  - split; reflexivity.
  - apply Bool.eqb_prop in H. subst. split; reflexivity.
  - apply String.eqb_eq in H. subst. split; reflexivity.
  - apply String.eqb_eq in H. subst. split; reflexivity.
Qed.

Lemma parseRole_string v role : parseRole v = Some role -> exists s, v = JString s.
Proof. destruct v; simpl; try discriminate. eauto. Qed.

Lemma template_one v : template [v] = Ok tt <-> converts v = true.
Proof.
  unfold converts. simpl. destruct (ToString v); split; intros H;
    try reflexivity; discriminate.
Qed.

Section Methods.
Variable env : Env.

Lemma sendToUser_eq ws message s :
  sendToUser env ws message s = mkRes (Ok tt) s (send_log env ws message).
Proof.
  unfold sendToUser, send_log, try_catch, ws_send, ret.
  destruct (isOPEN (readyState env ws)); [|reflexivity].
  simpl. destruct (sendThrows env ws message); reflexivity.
Qed.

Lemma sendError_eq ws e s :
  sendError env ws e s = mkRes (Ok tt) s (send_log env ws (error e)).
Proof. apply sendToUser_eq. Qed.

Lemma getRoomUsers_eq roomId s :
  getRoomUsers roomId s = mkRes (Ok (room_users_info s roomId)) s [].
Proof.
  unfold getRoomUsers, room_users_info, bind, get_state, ret. simpl.
  destruct (JSMap.get (rooms s) roomId); reflexivity.
Qed.

Lemma broadcast_flat_map us message excludeUserId :
  flat_map (fun e : string * User.t =>
              if not_excluded (fst e) excludeUserId
                 && isOPEN (readyState env (User.socket (snd e)))
              then send_log env (User.socket (snd e)) message else [])
           us
  = broadcast_log env us message excludeUserId.
Proof.
  unfold broadcast_log, recipients, send_log.
  induction us as [|e us IH]; simpl; [reflexivity|].
  rewrite IH.
  destruct (not_excluded (fst e) excludeUserId); simpl; [|reflexivity].
  destruct (isOPEN (readyState env (User.socket (snd e)))); reflexivity.
Qed.

Lemma broadcastToRoom_eq roomId message excludeUserId s :
  broadcastToRoom env roomId message excludeUserId s
  = mkRes (Ok tt) s (room_broadcast env s roomId message excludeUserId).
Proof.
  unfold broadcastToRoom, room_broadcast, bind, get_state. simpl.
  destruct (JSMap.get (rooms s) roomId) as [room|]; [|reflexivity].
  rewrite (forEach_eq _
             (fun e => if not_excluded (fst e) excludeUserId
                          && isOPEN (readyState env (User.socket (snd e)))
                       then send_log env (User.socket (snd e)) message else [])).
  - simpl. now rewrite broadcast_flat_map.
  - intros e s0.
    destruct (not_excluded (fst e) excludeUserId
              && isOPEN (readyState env (User.socket (snd e)))).
    + apply sendToUser_eq.
    + reflexivity.
Qed.

Lemma sendUserList_eq userId s :
  sendUserList env userId s = mkRes (Ok tt) s (user_list_log env s userId).
Proof.
  unfold sendUserList, user_list_log. rewrite bind_get.
  destruct (JSMap.get (users s) userId) as [user|]; [|reflexivity].
  destruct (JSMap.get (rooms s) (User.roomId user)) as [room|]; [|reflexivity].
  rewrite (bind_silent _ _ _ _ _ (getRoomUsers_eq _ _)).
  apply sendToUser_eq.
Qed.

Lemma handleListUsers_eq userId s :
  handleListUsers env userId s = mkRes (Ok tt) s (user_list_log env s userId).
Proof.
  unfold handleListUsers. rewrite bind_get.
  destruct (JSMap.get (users s) userId) as [user|] eqn:E.
  - apply sendUserList_eq.
  - unfold user_list_log. rewrite E. reflexivity.
Qed.

Lemma handleLeaveRoom_eq userId d s :
  handleLeaveRoom env userId d s = leave_result env s userId d.
Proof.
  unfold handleLeaveRoom, leave_result, leave_state, leave_log.
  rewrite bind_get.
  destruct (JSMap.get (users s) userId) as [user|]; [|reflexivity].
  destruct (JSMap.get (rooms s) (User.roomId user)) as [room|]; [|reflexivity].
  rewrite bind_put.
  rewrite (bind_silent _ _ _ _ _ (getRoomUsers_eq _ _)).
  fold (left_room room userId). fold (leave_mid s userId user room).
  change (Room.id (left_room room userId)) with (Room.id room).
  change (Room.name (left_room room userId)) with (Room.name room).
  set (s1 := leave_mid s userId user room).
  unfold left_message, text_of.
  destruct (ToString (User.name user)) as [text|e] eqn:Et.
  2:{ assert (Ht : to_text (User.name user) s1 = mkRes (Throw e) s1 [])
        by (unfold to_text; rewrite Et; reflexivity).
      rewrite (bind_throw _ _ _ _ _ _ Ht). reflexivity. }
  assert (Ht : to_text (User.name user) s1 = mkRes (Ok text) s1 [])
    by (unfold to_text; rewrite Et; reflexivity).
  rewrite (bind_silent _ _ _ _ _ Ht).
  rewrite (bind_eq _ _ _ _ _ _ (broadcastToRoom_eq _ _ _ _)).
  set (l := room_broadcast env s1 (Room.id room) _ None).
  assert (Hlast : forall s', logger_info [User.name user; Room.name room] s'
                             = mkRes (template [Room.name room]) s' []).
  { intros s'. rewrite logger_info_eq. cbn [template]. rewrite Et. reflexivity. }
  destruct (JSMap.size (Room.users (left_room room userId)) =? 0)%nat.
  - set (s2 := mkState (JSMap.delete (rooms s1) (Room.id room)) (users s1)).
    assert (Hdel : (s0 <- get_state ;;
                    put_state (mkState (JSMap.delete (rooms s0) (Room.id room)) (users s0)) ;;;
                    logger_info [Room.name room]) s1
                   = mkRes (template [Room.name room]) s2 []).
    { rewrite bind_get, bind_put. apply logger_info_eq. }
    destruct (template [Room.name room]) as [[]|e].
    + rewrite (bind_silent _ _ _ _ _ Hdel), Hlast. cbn [out st log].
      rewrite app_nil_r. reflexivity.
    + rewrite (bind_throw _ _ _ _ _ _ Hdel). cbn [out st log].
      rewrite app_nil_r. reflexivity.
  - rewrite (bind_silent _ _ _ tt s1) by reflexivity.
    rewrite Hlast. cbn [out st log]. rewrite app_nil_r. reflexivity.
Qed.

(** A leave that goes to its end *)
Lemma leave_result_ok userId d s :
  can_leave s userId = true ->
  leave_result env s userId d
  = mkRes (Ok tt) (leave_state s userId) (leave_log env s userId d).
Proof.
  unfold can_leave, leave_result, leave_state, leave_log, converts.
  destruct (JSMap.get (users s) userId) as [user|]; [|reflexivity].
  destruct (JSMap.get (rooms s) (User.roomId user)) as [room|]; [|reflexivity].
  simpl. destruct (ToString (User.name user)); [|discriminate].
  destruct (ToString (Room.name room)); [reflexivity|discriminate].
Qed.

Lemma handleLeaveRoom_ok userId d s :
  can_leave s userId = true ->
  handleLeaveRoom env userId d s
  = mkRes (Ok tt) (leave_state s userId) (leave_log env s userId d).
Proof. intros H. rewrite handleLeaveRoom_eq. now apply leave_result_ok. Qed.

(** The state and the log of a leave, whatever its outcome *)
Lemma leave_result_cases userId d s :
  (out (leave_result env s userId d) = Ok tt /\
   st (leave_result env s userId d) = leave_state s userId /\
   log (leave_result env s userId d) = leave_log env s userId d) \/
  (exists e, out (leave_result env s userId d) = Throw e /\
     ((st (leave_result env s userId d) = leave_state s userId /\
       log (leave_result env s userId d) = leave_log env s userId d) \/
      (exists user room,
         JSMap.get (users s) userId = Some user /\
         JSMap.get (rooms s) (User.roomId user) = Some room /\
         converts (User.name user) = false /\
         st (leave_result env s userId d) = leave_mid s userId user room /\
         log (leave_result env s userId d) = []))).
Proof.
  unfold leave_result, leave_state, leave_log, converts.
  destruct (JSMap.get (users s) userId) as [user|] eqn:Eu; [|left; repeat split].
  destruct (JSMap.get (rooms s) (User.roomId user)) as [room|] eqn:Er;
    [|left; repeat split].
  destruct (ToString (User.name user)) as [t|e] eqn:Et.
  - simpl. destruct (ToString (Room.name room)) as [t'|e'].
    + left. repeat split.
    + right. exists e'. split; [reflexivity|]. left. split; reflexivity.
  - right. exists e. split; [reflexivity|]. right. exists user, room.
    rewrite Et. repeat split; auto.
Qed.

Lemma handleJoinRoom_valid userId ws p d s rn un role :
  valid_join p = Some (rn, un, role) ->
  handleJoinRoom env userId ws (PObject p) d s
  = join_result env s userId ws rn un role d.
Proof.
  unfold valid_join, handleJoinRoom. intros Hv.
  destruct (truthy_field (roomName p)) as [rn'|]; [|discriminate].
  destruct (truthy_field (userName p)) as [un'|]; [|discriminate].
  destruct (truthy_field (userRole p)) as [ur|]; [|discriminate].
  destruct (parseRole ur) as [role'|] eqn:Hrole; [|discriminate].
  inversion Hv; subst rn' un' role'. clear Hv.
  unfold join_result. rewrite <- (handleLeaveRoom_eq userId d s).
  destruct (handleLeaveRoom env userId d s) as [o s0 l0] eqn:EL.
  destruct o as [[]|e]; cbn [out st log].
  2:{ now rewrite (bind_throw _ _ _ _ _ _ EL). }
  rewrite (bind_eq _ _ _ _ _ _ EL). rewrite bind_get.
  unfold enter_result, enter_log, joined_reply, enter_state, resolve_room, find_room.
  assert (Hur : converts ur = true).
  { destruct (parseRole_string _ _ Hrole) as [x ->]. reflexivity. }
  destruct (find (fun e => strict_eq (Room.name (snd e)) rn) (rooms s0))
    as [[key room]|] eqn:Ef.
  - assert (Hname : Room.name room = rn /\ converts (Room.name room) = true).
    { apply find_some in Ef. destruct Ef as [_ Hse]. now apply strict_eq_true in Hse. }
    destruct Hname as [Hn Hc].
    rewrite (bind_silent _ _ _ (key, room) s0) by reflexivity.
    rewrite bind_get, bind_put.
    rewrite (bind_eq _ _ _ _ _ _ (sendToUser_eq _ _ _)).
    rewrite (bind_silent _ _ _ _ _ (getRoomUsers_eq _ _)).
    cbn [fst snd]. unfold joined_message, text_of, new_user. cbn [User.name].
    destruct (ToString un) as [text|e] eqn:Et.
    + assert (Ht : forall s', to_text un s' = mkRes (Ok text) s' [])
        by (intros s'; unfold to_text; rewrite Et; reflexivity).
      rewrite (bind_silent _ _ _ _ _ (Ht _)).
      rewrite (bind_eq _ _ _ _ _ _ (broadcastToRoom_eq _ _ _ _)).
      rewrite (bind_eq _ _ _ _ _ _ (sendUserList_eq _ _)).
      rewrite logger_info_eq. cbn [out st log template]. rewrite Et.
      change (Room.name (Room.with_users room
                (JSMap.set (Room.users room) userId
                   (User.mk userId ws role un (Room.id room) (now_joinedAt d)))))
        with (Room.name room).
      unfold converts in Hur, Hc.
      destruct (ToString ur); [|discriminate].
      destruct (ToString (Room.name room)); [|discriminate].
      destruct (ToString rn); cbn [out st log]; rewrite ?app_nil_r, ?app_assoc;
        reflexivity.
    + assert (Ht : forall s', to_text un s' = mkRes (Throw e) s' [])
        by (intros s'; unfold to_text; rewrite Et; reflexivity).
      rewrite (bind_throw _ _ _ _ _ _ (Ht _)). cbn [out st log].
      destruct (ToString rn); rewrite ?app_nil_r; reflexivity.
  - unfold create_state, new_room.
    set (room := Room.mk (uuid_room d) rn JSMap.empty (now_created d)).
    set (s1 := mkState (JSMap.set (rooms s0) (uuid_room d) room) (users s0)).
    assert (Hm : (put_state (mkState (JSMap.set (rooms s0) (Room.id room) room) (users s0)) ;;;
                  logger_info [rn] ;;; ret (Room.id room, room)) s0
                 = match ToString rn with
                   | Ok _ => mkRes (Ok (uuid_room d, room)) s1 []
                   | Throw e => mkRes (Throw e) s1 []
                   end).
    { rewrite bind_put. unfold bind. rewrite logger_info_eq. cbn [out st log template].
      destruct (ToString rn); reflexivity. }
    destruct (ToString rn) as [trn|ern] eqn:Ern.
    2:{ rewrite (bind_throw _ _ _ _ _ _ Hm). cbn [out st log]. rewrite ?app_nil_r.
        reflexivity. }
    rewrite (bind_silent _ _ _ _ _ Hm).
    rewrite bind_get, bind_put.
    rewrite (bind_eq _ _ _ _ _ _ (sendToUser_eq _ _ _)).
    rewrite (bind_silent _ _ _ _ _ (getRoomUsers_eq _ _)).
    cbn [fst snd]. unfold joined_message, text_of, new_user. cbn [User.name].
    destruct (ToString un) as [text|e] eqn:Et.
    + assert (Ht : forall s', to_text un s' = mkRes (Ok text) s' [])
        by (intros s'; unfold to_text; rewrite Et; reflexivity).
      rewrite (bind_silent _ _ _ _ _ (Ht _)).
      rewrite (bind_eq _ _ _ _ _ _ (broadcastToRoom_eq _ _ _ _)).
      rewrite (bind_eq _ _ _ _ _ _ (sendUserList_eq _ _)).
      rewrite logger_info_eq. cbn [out st log template Room.name Room.with_users room].
      rewrite Et, Ern. unfold converts in Hur.
      destruct (ToString ur); [|discriminate].
      cbn [out st log]. rewrite ?app_nil_r, ?app_assoc. reflexivity.
    + assert (Ht : forall s', to_text un s' = mkRes (Throw e) s' [])
        by (intros s'; unfold to_text; rewrite Et; reflexivity).
      rewrite (bind_throw _ _ _ _ _ _ (Ht _)). cbn [out st log].
      rewrite ?app_nil_r. reflexivity.
Qed.

(** The four ways a join with an accepted payload can go *)
Lemma join_result_cases userId ws rn un role d s :
  let r := join_result env s userId ws rn un role d in
  let s1 := leave_state s userId in
  (exists e, out (leave_result env s userId d) = Throw e /\
             r = leave_result env s userId d) \/
  (out (leave_result env s userId d) = Ok tt /\
   ((exists e, find_room s1 rn = None /\ ToString rn = Throw e /\
               r = mkRes (Throw e) (create_state s1 rn d) (leave_log env s userId d)) \/
    ((find_room s1 rn <> None \/ converts rn = true) /\
     ((exists e, ToString un = Throw e /\
                 r = mkRes (Throw e) (enter_state s1 userId ws rn un role d)
                       (leave_log env s userId d
                        ++ joined_reply env s1 userId ws rn un role d)) \/
      (converts un = true /\
       r = mkRes (Ok tt) (enter_state s1 userId ws rn un role d)
             (leave_log env s userId d
              ++ enter_log env s1 userId ws rn un role d)))))).
Proof.
  intros r s1. subst r s1. unfold join_result.
  destruct (leave_result_cases userId d s) as [[Ho [Hs Hl]]|[e [Ho _]]].
  2:{ left. exists e. rewrite Ho. split; reflexivity. }
  right. split; [exact Ho|]. rewrite Ho, Hs, Hl. unfold enter_result, converts.
  destruct (find_room (leave_state s userId) rn) as [entry|] eqn:Ef.
  - right. split; [left; discriminate|].
    destruct (ToString rn); destruct (ToString un) as [t|eu];
      [right|left; exists eu|right|left; exists eu]; split; reflexivity.
  - destruct (ToString rn) as [trn|ern].
    + right. split; [right; reflexivity|].
      destruct (ToString un) as [t|eu]; [right|left; exists eu]; split; reflexivity.
    + left. exists ern. repeat split.
Qed.

Lemma handleJoinRoom_invalid userId ws p d s :
  valid_join p = None ->
  exists e, (e = "缺少必要参数: roomName, userName, userRole" \/ e = "无效的用户角色") /\
            handleJoinRoom env userId ws (PObject p) d s
            = mkRes (Ok tt) s (send_log env ws (error e)).
Proof.
  unfold valid_join, handleJoinRoom.
  destruct (truthy_field (roomName p)) as [rn|];
    [|eexists; split; [left; reflexivity|apply sendError_eq]].
  destruct (truthy_field (userName p)) as [un|];
    [|eexists; split; [left; reflexivity|apply sendError_eq]].
  destruct (truthy_field (userRole p)) as [ur|];
    [|eexists; split; [left; reflexivity|apply sendError_eq]].
  destruct (parseRole ur); [discriminate|].
  eexists; split; [right; reflexivity|apply sendError_eq].
Qed.

Lemma handleChatMessage_eq userId payload d s :
  handleChatMessage env userId payload d s
  = match JSMap.get (users s) userId with
    | None => mkRes (Throw "用户未加入任何房间") s []
    | Some user =>
        match JSMap.get (rooms s) (User.roomId user) with
        | None => mkRes (Throw "房间不存在") s []
        | Some room =>
            match payload with
            | PUndefined => mkRes (Throw TypeError_content) s []
            | PNull => mkRes (Throw TypeError_content_null) s []
            | PObject p =>
                mkRes (template [User.name user; Room.name room]) s
                  (room_broadcast env s (Room.id room)
                     (chat_message
                        (mkChatMessage (uuid_chat d) (User.id user) (User.name user)
                           (User.role user) (content p) (now_chat d)))
                     (Some userId))
            end
        end
    end.
Proof.
  unfold handleChatMessage. rewrite bind_get.
  destruct (JSMap.get (users s) userId) as [user|]; [|reflexivity].
  destruct (JSMap.get (rooms s) (User.roomId user)) as [room|]; [|reflexivity].
  destruct payload as [| |p]; [reflexivity|reflexivity|].
  rewrite (bind_eq _ _ _ _ _ _ (broadcastToRoom_eq _ _ _ _)).
  rewrite logger_info_eq. cbn [out st log]. rewrite app_nil_r. reflexivity.
Qed.

Lemma handleMessage_eq userId ws message d s :
  handleMessage env userId ws message d s
  = let r := dispatch env userId ws message d s in
    match out r with
    | Ok _ => mkRes (Ok None) (st r) (log r)
    | Throw e =>
        if awaited message
        then mkRes (Ok (Some e)) (st r) (log r)
        else mkRes (Ok None) (st r) (log r ++ send_log env ws (error e))
    end.
Proof.
  unfold handleMessage. cbv zeta.
  destruct (out (dispatch env userId ws message d s)); [reflexivity|].
  destruct (awaited message); [reflexivity|]. rewrite sendError_eq. reflexivity.
Qed.

Lemma st_handleMessage userId ws message d s :
  st (handleMessage env userId ws message d s)
  = st (dispatch env userId ws message d s).
Proof.
  rewrite handleMessage_eq. cbv zeta.
  destruct (out (dispatch env userId ws message d s)); [reflexivity|].
  destruct (awaited message); reflexivity.
Qed.

Lemma report_eq ws pending s :
  report env ws pending s
  = mkRes (Ok tt) s match pending with
                    | Some e => send_log env ws (error e)
                    | None => []
                    end.
Proof. destruct pending; [apply sendError_eq|reflexivity]. Qed.

End Methods.

(** ** The state after an event *)

Lemma reached_leave_result env s u ev d :
  reached s u ev (st (leave_result env s u d)).
Proof.
  destruct (leave_result_cases env u d s)
    as [[_ [Hs _]]|[e [_ [[Hs _]|[user [room [Hu [Hr [Hc [Hs _]]]]]]]]]]; rewrite Hs.
  - apply reached_leave.
  - apply reached_leave.
  - now apply reached_mid.
Qed.

Lemma st_handle env ev s : reached s (event_user ev) ev (st (handle env ev s)).
Proof.
  destruct ev as [userId ws|userId ws frame d|userId d]; cbn [handle event_user].
  - unfold onConnection. rewrite (bind_eq _ _ _ _ _ _ (sendToUser_eq _ _ _ _)).
    apply reached_same.
  - unfold onMessage. destruct frame as [|message].
    + rewrite (bind_eq _ _ _ _ _ _ (sendError_eq _ _ _ _)). apply reached_same.
    + rewrite st_handleMessage. unfold dispatch.
      destruct message as [|[[| | |ty| |]|] payload];
        try (rewrite sendError_eq; apply reached_same).
      { apply reached_same. }
      destruct (String.eqb_spec ty "join_room") as [->|_].
      { destruct payload as [| |p]; try apply reached_same.
        destruct (valid_join p) as [[[rn un] role]|] eqn:Hv.
        - rewrite (handleJoinRoom_valid env userId ws p d s rn un role Hv).
          destruct (join_result_cases env userId ws rn un role d s)
            as [[e [_ H]]|[_ [[e [Hf [Ht H]]]|[Hc [[e [_ H]]|[_ H]]]]]]; rewrite H.
          + apply reached_leave_result.
          + cbn [st]. eapply reached_create; eauto. apply converts_false. eauto.
          + cbn [st]. eapply reached_enter; eauto.
          + cbn [st]. eapply reached_enter; eauto.
        - destruct (handleJoinRoom_invalid env userId ws p d s Hv) as [e [_ H]].
          rewrite H. apply reached_same. }
      destruct (String.eqb ty "chat_message").
      { rewrite handleChatMessage_eq.
        destruct (JSMap.get (users s) userId) as [user|]; [|apply reached_same].
        destruct (JSMap.get (rooms s) (User.roomId user)) as [room|]; [|apply reached_same].
        destruct payload; apply reached_same. }
      destruct (String.eqb ty "leave_room").
      { rewrite handleLeaveRoom_eq. apply reached_leave_result. }
      destruct (String.eqb ty "list_users").
      { rewrite handleListUsers_eq. apply reached_same. }
      rewrite sendError_eq. apply reached_same.
  - unfold onClose, handleDisconnect.
    pose proof (reached_leave_result env s userId (Closed userId d) d) as Hr.
    rewrite <- handleLeaveRoom_eq in Hr.
    destruct (handleLeaveRoom env userId d s) as [[[]|e] s' l] eqn:E.
    + rewrite (bind_eq _ _ _ _ _ _ E). exact Hr.
    + rewrite (bind_throw _ _ _ _ _ _ E). exact Hr.
Qed.

(** ** Broadcast *)

(** C1. A broadcast with an excluded sender returns normally whatever the
    sockets do, leaves the state alone, and calls [send] exactly on the
    members of the room at the time of the call whose key is not the sender's
    and whose socket is open, once each and in the order of the membership
    map: never on the sender's entry, and on every other open member whether
    or not a send to another member threw.  Every such member whose own send
    does not throw is handed the message. *)
Theorem broadcastToRoom_excludes_sender env s roomId room message sender :
  JSMap.get (rooms s) roomId = Some room ->
  let r := broadcastToRoom env roomId message (Some sender) s in
  out r = Ok tt /\ st r = s /\
  log r = map (fun e => (User.socket (snd e), message))
            (filter (fun e => negb (String.eqb (fst e) sender)
                              && isOPEN (readyState env (User.socket (snd e))))
                    (Room.users room)) /\
  (forall ws m, In (ws, m) (log r) ->
     exists userId user,
       In (userId, user) (Room.users room) /\ userId <> sender /\
       ws = User.socket user /\ m = message /\ readyState env ws = OPEN) /\
  (forall userId user,
     In (userId, user) (Room.users room) -> userId <> sender ->
     readyState env (User.socket user) = OPEN ->
     In (User.socket user, message) (log r) /\
     (sendThrows env (User.socket user) message = false ->
      In (User.socket user, message) (delivered env (log r)))).
Proof.
  intros Hroom r. subst r. rewrite broadcastToRoom_eq. simpl.
  unfold room_broadcast. rewrite Hroom. unfold broadcast_log, recipients. simpl.
  split; [reflexivity|]. split; [reflexivity|]. split; [reflexivity|]. split.
  - intros ws m Hin. apply in_map_iff in Hin. destruct Hin as [[userId user] [Heq Hin]].
    apply filter_In in Hin. destruct Hin as [Hin Hc]. simpl in *.
    apply andb_true_iff in Hc. destruct Hc as [Hne Hopen].
    inversion Heq; subst. exists userId, user. repeat split; auto.
    + intros ->. rewrite String.eqb_refl in Hne. discriminate.
    + destruct (readyState env (User.socket user)); simpl in Hopen; congruence.
  - intros userId user Hin Hne Hopen.
    assert (Hlog : In (User.socket user, message)
              (map (fun e : string * User.t => (User.socket (snd e), message))
                 (filter (fun e => negb (fst e =? sender)
                                   && isOPEN (readyState env (User.socket (snd e))))
                    (Room.users room)))).
    { apply in_map_iff. exists (userId, user). split; [reflexivity|].
      apply filter_In. split; [assumption|]. simpl.
      rewrite Hopen. destruct (String.eqb_spec userId sender); [contradiction|reflexivity]. }
    split; [exact Hlog|].
    intros Hsend. unfold delivered. apply filter_In. split; [exact Hlog|].
    simpl. now rewrite Hsend.
Qed.

Lemma broadcastToRoom_excludes_sender_witness :
  let r := broadcastToRoom env_faulty "r1" (error "x") (Some "B") state_abc in
  out r = Ok tt /\ st r = state_abc /\ log r = [("wsA", error "x")].
Proof.
  assert (H : JSMap.get (rooms state_abc) "r1" = Some room_alpha)
    by (vm_compute; reflexivity).
  destruct (broadcastToRoom_excludes_sender env_faulty state_abc "r1" room_alpha
              (error "x") "B" H) as [Hout [Hst [Hlog _]]].
  split; [exact Hout|]. split; [exact Hst|].
  rewrite Hlog. vm_compute. reflexivity.
Defined.

(** ** Leaving *)

Lemma handleLeaveRoom_absent env userId d s :
  JSMap.get (users s) userId = None ->
  handleLeaveRoom env userId d s = mkRes (Ok tt) s [].
Proof.
  intros Hu. rewrite handleLeaveRoom_eq. unfold leave_result. rewrite Hu. reflexivity.
Qed.

(** C9. For a session with no room ([users] has no entry for it),
    [handleLeaveRoom] returns normally, leaves the state as it is and sends
    nothing; so does a second call right after the first. *)
Theorem handleLeaveRoom_idempotent env env' userId d d' s :
  JSMap.get (users s) userId = None ->
  handleLeaveRoom env userId d s = mkRes (Ok tt) s [] /\
  handleLeaveRoom env' userId d' (st (handleLeaveRoom env userId d s))
  = mkRes (Ok tt) s [].
Proof.
  intros Hu.
  pose proof (handleLeaveRoom_absent env userId d s Hu) as H1.
  split; [exact H1|]. rewrite H1. cbn [st]. now apply handleLeaveRoom_absent.
Qed.

Lemma handleLeaveRoom_idempotent_witness :
  handleLeaveRoom env_open "D" (draws "r9") state_abc = mkRes (Ok tt) state_abc [] /\
  handleLeaveRoom env_faulty "D" (draws "r8")
    (st (handleLeaveRoom env_open "D" (draws "r9") state_abc))
  = mkRes (Ok tt) state_abc [].
Proof.
  apply (handleLeaveRoom_idempotent env_open env_faulty "D" (draws "r9") (draws "r8")
           state_abc).
  reflexivity.
Defined.

(** ** Dispatch *)

Lemma onMessage_join env userId ws p d s :
  onMessage env userId ws (Parsed (Msg (Some (JString "join_room")) (PObject p))) d s
  = let r := handleJoinRoom env userId ws (PObject p) d s in
    mkRes (match out r with Ok _ => Ok None | Throw e => Ok (Some e) end)
          (st r) (log r).
Proof.
  unfold onMessage. rewrite handleMessage_eq. cbv zeta.
  change (dispatch env userId ws (Msg (Some (JString "join_room")) (PObject p)) d s)
    with (handleJoinRoom env userId ws (PObject p) d s).
  destruct (out (handleJoinRoom env userId ws (PObject p) d s)); reflexivity.
Qed.

Lemma onMessage_chat env userId ws payload d s :
  onMessage env userId ws (Parsed (Msg (Some (JString "chat_message")) payload)) d s
  = let r := handleChatMessage env userId payload d s in
    mkRes (match out r with Ok _ => Ok None | Throw e => Ok (Some e) end)
          (st r) (log r).
Proof.
  unfold onMessage. rewrite handleMessage_eq. cbv zeta.
  change (dispatch env userId ws (Msg (Some (JString "chat_message")) payload) d s)
    with (handleChatMessage env userId payload d s).
  destruct (out (handleChatMessage env userId payload d s)); reflexivity.
Qed.

Lemma onMessage_leave env userId ws payload d s :
  onMessage env userId ws (Parsed (Msg (Some (JString "leave_room")) payload)) d s
  = let r := leave_result env s userId d in
    match out r with
    | Ok _ => mkRes (Ok None) (st r) (log r)
    | Throw e => mkRes (Ok None) (st r) (log r ++ send_log env ws (error e))
    end.
Proof.
  unfold onMessage. rewrite handleMessage_eq. cbv zeta.
  change (dispatch env userId ws (Msg (Some (JString "leave_room")) payload) d s)
    with (handleLeaveRoom env userId d s).
  rewrite handleLeaveRoom_eq. reflexivity.
Qed.

Lemma valid_join_None p :
  valid_join p = None <->
  truthy_field (roomName p) = None \/ truthy_field (userName p) = None \/
  truthy_field (userRole p) = None \/
  (userRole p <> Some (JString "product_manager") /\
   userRole p <> Some (JString "developer")).
Proof.
  unfold valid_join.
  assert (Hrole : forall ur, truthy_field (userRole p) = Some ur ->
            (parseRole ur = None <->
             userRole p <> Some (JString "product_manager") /\
             userRole p <> Some (JString "developer"))).
  { intros ur Hur. unfold truthy_field in Hur.
    destruct (userRole p) as [v|]; [|discriminate].
    destruct (ToBoolean v); [|discriminate]. inversion Hur; subst v. clear Hur.
    unfold parseRole. destruct ur; try (split; [split; discriminate|reflexivity]).
    destruct (String.eqb_spec s "product_manager") as [->|H1].
    { split; [discriminate|]. intros [H _]. now contradiction H. }
    destruct (String.eqb_spec s "developer") as [->|H2].
    { split; [discriminate|]. intros [_ H]. now contradiction H. }
    split; [|reflexivity]. intros _. split; congruence. }
  destruct (truthy_field (roomName p)) as [rn|]; [|tauto].
  destruct (truthy_field (userName p)) as [un|]; [|tauto].
  destruct (truthy_field (userRole p)) as [ur|] eqn:Hur; [|tauto].
  specialize (Hrole ur eq_refl).
  destruct (parseRole ur) as [role|].
  - split; [discriminate|]. intros [H|[H|[H|H]]]; try discriminate.
    apply Hrole in H. discriminate.
  - split; [|reflexivity]. intros _. right; right; right. now apply Hrole.
Qed.

(** C6. A [join_room] whose payload lacks [roomName], [userName] or
    [userRole] (the property is absent or its value is falsy), or whose
    [userRole] is neither ['product_manager'] nor ['developer'], returns
    normally, sends one [error] message to the requesting socket and nothing
    to any other, leaves nothing to report later, and leaves the whole state
    (so also a membership the session already had) as it was. *)
Theorem join_validation_failure env s userId ws p d :
  (truthy_field (roomName p) = None \/ truthy_field (userName p) = None \/
   truthy_field (userRole p) = None \/
   (userRole p <> Some (JString "product_manager") /\
    userRole p <> Some (JString "developer"))) ->
  exists e,
    (e = "缺少必要参数: roomName, userName, userRole" \/ e = "无效的用户角色") /\
    handleJoinRoom env userId ws (PObject p) d s
    = mkRes (Ok tt) s (send_log env ws (error e)) /\
    onMessage env userId ws
      (Parsed (Msg (Some (JString "join_room")) (PObject p))) d s
    = mkRes (Ok None) s (send_log env ws (error e)).
Proof.
  intros H. apply valid_join_None in H.
  destruct (handleJoinRoom_invalid env userId ws p d s H) as [e [He Hj]].
  exists e. split; [exact He|]. split; [exact Hj|].
  rewrite onMessage_join. cbv zeta. rewrite Hj. reflexivity.
Qed.

Lemma join_validation_failure_witness :
  exists e,
    (e = "缺少必要参数: roomName, userName, userRole" \/ e = "无效的用户角色") /\
    handleJoinRoom env_open "A" "wsA" (PObject payload_bad_role) (draws "r7") state_abc
    = mkRes (Ok tt) state_abc (send_log env_open "wsA" (error e)) /\
    onMessage env_open "A" "wsA"
      (Parsed (Msg (Some (JString "join_room")) (PObject payload_bad_role)))
      (draws "r7") state_abc
    = mkRes (Ok None) state_abc (send_log env_open "wsA" (error e)).
Proof.
  apply (join_validation_failure env_open state_abc "A" "wsA" payload_bad_role
           (draws "r7")).
  right; right; right. split; discriminate.
Defined.

(** ** Invariants of every run *)

Lemma get_size_pos {V} (m : JSMap.t V) k v :
  JSMap.get m k = Some v -> JSMap.size m <> 0.
Proof. destruct m; simpl; [discriminate|]. intros _. discriminate. Qed.

Lemma directory_ok_set s k room us :
  directory_ok s -> Room.id room = k ->
  directory_ok (mkState (JSMap.set (rooms s) k room) us).
Proof.
  intros [Hnd Hid] Hroom. split; simpl.
  - now apply JSMapFacts.NoDup_keys_set.
  - intros k' room' Hin. apply JSMapFacts.In_set in Hin.
    destruct Hin as [Heq|Hin]; [inversion Heq; subst; reflexivity|auto].
Qed.

Lemma directory_ok_delete s k us :
  directory_ok s -> directory_ok (mkState (JSMap.delete (rooms s) k) us).
Proof.
  intros [Hnd Hid]. split; simpl.
  - now apply JSMapFacts.NoDup_keys_delete.
  - intros k' room' Hin. apply JSMapFacts.In_delete in Hin. apply Hid, Hin.
Qed.

Lemma directory_ok_get s k room :
  directory_ok s -> JSMap.get (rooms s) k = Some room -> Room.id room = k.
Proof. intros [_ Hid] H. apply Hid. now apply JSMapFacts.get_In. Qed.

(** The rooms of the state a leave produces *)
Lemma leave_state_rooms s userId k :
  directory_ok s ->
  JSMap.get (rooms (leave_state s userId)) k = JSMap.get (rooms s) k \/
  exists user room,
    JSMap.get (users s) userId = Some user /\
    JSMap.get (rooms s) (User.roomId user) = Some room /\
    k = User.roomId user /\
    JSMap.get (rooms (leave_state s userId)) k
    = if Nat.eqb (JSMap.size (Room.users (left_room room userId))) 0
      then None else Some (left_room room userId).
Proof.
  intros Hdir. unfold leave_state.
  destruct (JSMap.get (users s) userId) as [user|] eqn:Hu; [|now left].
  destruct (JSMap.get (rooms s) (User.roomId user)) as [room|] eqn:Hr; [|now left].
  pose proof (directory_ok_get _ _ _ Hdir Hr) as Hid.
  destruct (String.eqb_spec (User.roomId user) k) as [Hk|Hk].
  - right. exists user, room. repeat (split; [auto|]).
    destruct (Nat.eqb (JSMap.size (Room.users (left_room room userId))) 0); simpl.
    + rewrite Hid, Hk. apply JSMapFacts.get_delete_same.
    + rewrite Hk. apply JSMapFacts.get_set_same.
  - left.
    destruct (Nat.eqb (JSMap.size (Room.users (left_room room userId))) 0); simpl.
    + rewrite Hid, JSMapFacts.get_delete_other, JSMapFacts.get_set_other; auto.
    + rewrite JSMapFacts.get_set_other; auto.
Qed.

Lemma directory_ok_leave s userId :
  directory_ok s -> directory_ok (leave_state s userId).
Proof.
  intros Hdir. unfold leave_state.
  destruct (JSMap.get (users s) userId) as [user|] eqn:Hu; [|assumption].
  destruct (JSMap.get (rooms s) (User.roomId user)) as [room|] eqn:Hr; [|assumption].
  pose proof (directory_ok_get _ _ _ Hdir Hr) as Hid.
  assert (H1 : directory_ok (leave_mid s userId user room)).
  { apply directory_ok_set; assumption. }
  destruct (Nat.eqb (JSMap.size (Room.users (left_room room userId))) 0);
    [|assumption].
  now apply directory_ok_delete.
Qed.

Lemma resolve_room_cases s rn d :
  (exists key room,
     resolve_room s rn d = (key, room, rooms s) /\
     In (key, room) (rooms s) /\ Room.name room = rn /\
     find_room s rn = Some (key, room) /\ converts rn = true) \/
  (resolve_room s rn d
   = (uuid_room d, new_room rn d, JSMap.set (rooms s) (uuid_room d) (new_room rn d)) /\
   find_room s rn = None /\
   forall k room, In (k, room) (rooms s) -> strict_eq (Room.name room) rn = false).
Proof.
  unfold resolve_room, find_room.
  destruct (find (fun e => strict_eq (Room.name (snd e)) rn) (rooms s))
    as [[key room]|] eqn:E.
  - left. exists key, room. apply find_some in E. destruct E as [Hin Hname].
    simpl in Hname. apply strict_eq_true in Hname. destruct Hname as [Hn Hc].
    subst rn. auto.
  - right. split; [reflexivity|]. split; [reflexivity|]. intros k room Hin.
    apply (find_none _ _ E) in Hin. exact Hin.
Qed.

Lemma directory_ok_mid s userId user room :
  directory_ok s -> JSMap.get (rooms s) (User.roomId user) = Some room ->
  directory_ok (leave_mid s userId user room).
Proof.
  intros Hdir Hr. apply directory_ok_set; [assumption|].
  exact (directory_ok_get _ _ _ Hdir Hr).
Qed.

Lemma directory_ok_create s rn d :
  directory_ok s -> directory_ok (create_state s rn d).
Proof. intros Hdir. apply directory_ok_set; [assumption|reflexivity]. Qed.

(** The rooms of the state between the deletions of a leave *)
Lemma leave_mid_rooms s userId user room k :
  JSMap.get (rooms (leave_mid s userId user room)) k
  = if String.eqb (User.roomId user) k then Some (left_room room userId)
    else JSMap.get (rooms s) k.
Proof. apply JSMapFacts.get_set. Qed.

Lemma names_unique_sub s s' :
  names_unique s ->
  (forall k room', JSMap.get (rooms s') k = Some room' ->
     exists room, JSMap.get (rooms s) k = Some room /\ Room.name room = Room.name room') ->
  names_unique s'.
Proof.
  intros Hn Hsub k1 room1 k2 room2 H1 H2 Heq.
  destruct (Hsub _ _ H1) as [r1 [G1 N1]]. destruct (Hsub _ _ H2) as [r2 [G2 N2]].
  apply (Hn k1 r1 k2 r2 G1 G2). congruence.
Qed.

Lemma Inv_mid s userId user room :
  Inv s -> JSMap.get (rooms s) (User.roomId user) = Some room ->
  Inv (leave_mid s userId user room).
Proof.
  intros [Hdir [Hnames Hm]] Hr. split; [now apply directory_ok_mid|]. split.
  - apply (names_unique_sub s); [assumption|]. intros k room'.
    rewrite leave_mid_rooms. destruct (String.eqb_spec (User.roomId user) k) as [<-|_].
    + intros H; inversion H; subst. exists room. split; [assumption|reflexivity].
    + eauto.
  - intros k room'. rewrite leave_mid_rooms.
    destruct (String.eqb_spec (User.roomId user) k) as [<-|_]; [|apply Hm].
    intros H; inversion H; subst room'. cbn [left_room Room.with_users Room.users Room.name].
    intros Hsize. apply (Hm _ _ Hr). intros E. apply Hsize.
    destruct (Room.users room); [reflexivity|discriminate].
Qed.

Lemma Inv_delete s k :
  Inv s -> Inv (mkState (JSMap.delete (rooms s) k) (users s)).
Proof.
  intros [Hdir [Hnames Hm]]. split; [now apply directory_ok_delete|]. split.
  - apply (names_unique_sub s); [assumption|]. intros k' room'. cbn [rooms].
    rewrite JSMapFacts.get_delete. destruct (String.eqb k k'); [discriminate|]. eauto.
  - intros k' room'. cbn [rooms]. rewrite JSMapFacts.get_delete.
    destruct (String.eqb k k'); [discriminate|]. apply Hm.
Qed.

Lemma Inv_leave s userId : Inv s -> Inv (leave_state s userId).
Proof.
  intros HI. unfold leave_state.
  destruct (JSMap.get (users s) userId) as [user|] eqn:Hu; [|assumption].
  destruct (JSMap.get (rooms s) (User.roomId user)) as [room|] eqn:Hr; [|assumption].
  pose proof (Inv_mid s userId user room HI Hr) as Hmid.
  destruct (Nat.eqb (JSMap.size (Room.users (left_room room userId))) 0);
    [|assumption].
  exact (Inv_delete _ (Room.id room) Hmid).
Qed.

Lemma Inv_create s rn d :
  Inv s -> find_room s rn = None -> Inv (create_state s rn d).
Proof.
  intros [Hdir [Hnames Hm]] Hf. split; [now apply directory_ok_create|].
  assert (Hnone : forall k room, JSMap.get (rooms s) k = Some room ->
                                 strict_eq (Room.name room) rn = false).
  { intros k room Hget. apply JSMapFacts.get_In in Hget.
    exact (find_none _ _ Hf _ Hget). }
  assert (Hsym : forall a b, strict_eq a b = strict_eq b a).
  { intros a b. destruct a, b; simpl; try reflexivity.
    - destruct b, b0; reflexivity.
    - apply String.eqb_sym.
    - apply String.eqb_sym. }
  split.
  - intros k1 room1 k2 room2. unfold create_state. cbn [rooms].
    rewrite !JSMapFacts.get_set.
    destruct (String.eqb_spec (uuid_room d) k1) as [E1|E1];
      destruct (String.eqb_spec (uuid_room d) k2) as [E2|E2]; try congruence.
    + intros H1 H2 Heq. inversion H1; subst room1. cbn [new_room Room.name] in Heq.
      rewrite Hsym, (Hnone _ _ H2) in Heq. discriminate.
    + intros H1 H2 Heq. inversion H2; subst room2. cbn [new_room Room.name] in Heq.
      rewrite (Hnone _ _ H1) in Heq. discriminate.
    + apply Hnames.
  - intros k room. unfold create_state. cbn [rooms]. rewrite JSMapFacts.get_set.
    destruct (String.eqb (uuid_room d) k); [|apply Hm].
    intros H; inversion H; subst room. intros Hsize. now contradiction Hsize.
Qed.

(** The rooms of the state an insertion produces *)
Lemma enter_state_rooms s userId ws rn un role d :
  directory_ok s ->
  exists key room,
    Room.id room = key /\ Room.name room = rn /\
    (JSMap.get (rooms s) key = Some room /\ find_room s rn = Some (key, room) \/
     (key = uuid_room d /\ Room.users room = [] /\ room = new_room rn d /\
      find_room s rn = None /\
      forall k room0, JSMap.get (rooms s) k = Some room0 ->
                      strict_eq (Room.name room0) rn = false)) /\
    users (enter_state s userId ws rn un role d)
    = JSMap.set (users s) userId (new_user userId ws role un room d) /\
    forall k,
      JSMap.get (rooms (enter_state s userId ws rn un role d)) k
      = if String.eqb key k
        then Some (joined_room room userId (new_user userId ws role un room d))
        else JSMap.get (rooms s) k.
Proof.
  intros Hdir. unfold enter_state.
  destruct (resolve_room_cases s rn d)
    as [[key [room [E [Hin [Hname [Hf Hc]]]]]]|[E [Hf Hnone]]]; rewrite E.
  - exists key, room. destruct Hdir as [Hnd Hid].
    split; [auto|]. split; [assumption|].
    split; [left; split; [now apply JSMapFacts.In_get|assumption]|].
    split; [reflexivity|].
    intros k. simpl. apply JSMapFacts.get_set.
  - exists (uuid_room d), (new_room rn d).
    split; [reflexivity|]. split; [reflexivity|].
    split.
    { right. repeat (split; [reflexivity|]). split; [assumption|].
      intros k room0 Hget. apply (Hnone k). now apply JSMapFacts.get_In. }
    split; [reflexivity|].
    intros k. simpl. rewrite !JSMapFacts.get_set.
    destruct (String.eqb (uuid_room d) k); reflexivity.
Qed.

Lemma directory_ok_enter s userId ws rn un role d :
  directory_ok s -> directory_ok (enter_state s userId ws rn un role d).
Proof.
  intros Hdir. unfold enter_state.
  destruct (resolve_room_cases s rn d)
    as [[key [room [E [Hin [Hname [Hf Hc]]]]]]|[E [Hf Hnone]]]; rewrite E.
  - apply directory_ok_set; [assumption|]. simpl. now apply Hdir.
  - apply (directory_ok_set (create_state s rn d)); [|reflexivity].
    now apply directory_ok_create.
Qed.

Lemma Inv_enter s userId ws rn un role d :
  Inv s -> (find_room s rn <> None \/ converts rn = true) ->
  Inv (enter_state s userId ws rn un role d).
Proof.
  intros [Hdir [Hnames Hm]] Hok. split; [now apply directory_ok_enter|].
  destruct (enter_state_rooms s userId ws rn un role d Hdir)
    as [key [room [Hid [Hname [Hcase [_ Hget]]]]]].
  assert (Hsym : forall a b, strict_eq a b = strict_eq b a).
  { intros a b. destruct a, b; simpl; try reflexivity.
    - destruct b, b0; reflexivity.
    - apply String.eqb_sym.
    - apply String.eqb_sym. }
  split.
  - intros k1 room1 k2 room2 H1 H2 Hn. rewrite Hget in H1, H2.
    destruct (String.eqb_spec key k1) as [E1|E1];
      destruct (String.eqb_spec key k2) as [E2|E2]; try congruence.
    + inversion H1; subst room1. simpl in Hn. exfalso.
      destruct Hcase as [[Hold _]|[_ [_ [_ [_ Hnew]]]]].
      * apply E2. apply (Hnames key room k2 room2); congruence.
      * rewrite Hname, Hsym, (Hnew k2 room2 H2) in Hn. discriminate.
    + inversion H2; subst room2. simpl in Hn. exfalso.
      destruct Hcase as [[Hold _]|[_ [_ [_ [_ Hnew]]]]].
      * apply E1. symmetry. apply (Hnames k1 room1 key room); congruence.
      * rewrite Hname, (Hnew k1 room1 H1) in Hn. discriminate.
    + eapply Hnames; eauto.
  - intros k room' H. rewrite Hget in H.
    destruct (String.eqb key k); [|now apply (Hm k)].
    inversion H; subst room'. intros _. cbn [joined_room Room.with_users Room.name].
    rewrite Hname.
    destruct Hcase as [[_ Hf]|[_ [_ [_ [Hf _]]]]].
    + unfold find_room in Hf. apply find_some in Hf. destruct Hf as [_ Hse].
      cbn [snd] in Hse. apply strict_eq_true in Hse. destruct Hse as [Hn Hc]. congruence.
    + destruct Hok as [Hok|Hok]; [congruence|assumption].
Qed.

Lemma Inv_init : Inv init.
Proof.
  split; [split; [constructor|intros k room []]|].
  split; intros k; simpl; intros; discriminate.
Qed.

Lemma Inv_reached s u ev s' : Inv s -> reached s u ev s' -> Inv s'.
Proof.
  intros HI Hr. destruct Hr as [| |user room Hu Hroom Hc|ws p d rn un role _ _ Hf Hc
                                |ws p d rn un role _ _ Hok].
  - assumption.
  - now apply Inv_leave.
  - now apply Inv_mid.
  - apply Inv_create; [now apply Inv_leave|assumption].
  - apply Inv_enter; [now apply Inv_leave|assumption].
Qed.

Lemma Inv_step s x : Inv s -> Inv (step s x).
Proof. intros H. unfold step. eapply Inv_reached; [eassumption|apply st_handle]. Qed.

Lemma Inv_run tr : forall s, Inv s -> Inv (run s tr).
Proof.
  induction tr as [|x tr IH]; intros s H; simpl; [assumption|].
  apply IH. now apply Inv_step.
Qed.

(** ** Invariants of runs with fresh room ids *)

Lemma members_sum_set m k room room0 :
  JSMap.get m k = Some room0 ->
  members_sum (JSMap.set m k room) + JSMap.size (Room.users room0)
  = members_sum m + JSMap.size (Room.users room).
Proof.
  unfold members_sum. induction m as [|[k1 r1] m IH]; simpl; [discriminate|].
  destruct (String.eqb_spec k1 k) as [->|Hk]; simpl.
  - intros H. inversion H; subst. lia.
  - intros H. specialize (IH H). unfold JSMap.values in *. lia.
Qed.

Lemma members_sum_set_absent m k room :
  JSMap.get m k = None ->
  members_sum (JSMap.set m k room) = members_sum m + JSMap.size (Room.users room).
Proof.
  intros H. rewrite JSMapFacts.set_absent by assumption.
  unfold members_sum, JSMap.values. rewrite !map_app, list_sum_app. simpl. lia.
Qed.

Lemma members_sum_delete m k room0 :
  NoDup (JSMap.keys m) -> JSMap.get m k = Some room0 ->
  members_sum (JSMap.delete m k) + JSMap.size (Room.users room0) = members_sum m.
Proof.
  unfold members_sum, JSMap.delete.
  induction m as [|[k1 r1] m IH]; simpl; [discriminate|].
  intros Hnd H. inversion Hnd as [|? ? Hnotin Hnd']; subst.
  destruct (String.eqb_spec k1 k) as [->|Hk]; simpl.
  - inversion H; subst. apply JSMapFacts.get_None_keys in Hnotin.
    apply JSMapFacts.delete_absent in Hnotin. unfold JSMap.delete in Hnotin.
    rewrite Hnotin. unfold JSMap.values. lia.
  - specialize (IH Hnd' H). unfold JSMap.values in *. lia.
Qed.

Lemma total_members_eq s : total_members s = members_sum (rooms s).
Proof. reflexivity. Qed.

Lemma consistent_init : consistent init.
Proof.
  constructor; simpl; try constructor; intros; discriminate.
Qed.

Lemma leave_state_rooms_None s userId k :
  JSMap.get (rooms s) k = None ->
  JSMap.get (rooms (leave_state s userId)) k = None.
Proof.
  intros Hk. unfold leave_state.
  destruct (JSMap.get (users s) userId) as [user|] eqn:Hu; [|assumption].
  destruct (JSMap.get (rooms s) (User.roomId user)) as [room|] eqn:Hr; [|assumption].
  assert (Hne : User.roomId user <> k) by congruence.
  destruct (Nat.eqb (JSMap.size (Room.users (left_room room userId))) 0); simpl.
  - rewrite JSMapFacts.get_delete. destruct (String.eqb (Room.id room) k); [reflexivity|].
    rewrite JSMapFacts.get_set_other; assumption.
  - rewrite JSMapFacts.get_set_other; assumption.
Qed.

Lemma consistent_add_room s k room :
  consistent s -> JSMap.get (rooms s) k = None -> Room.users room = [] ->
  consistent (mkState (JSMap.set (rooms s) k room) (users s)).
Proof.
  intros Hc Hk Hempty. constructor; simpl.
  - apply Hc.
  - intros k' r. rewrite JSMapFacts.get_set. destruct (String.eqb k k').
    + intros H; inversion H; subst. rewrite Hempty. constructor.
    + apply (members_keys s Hc).
  - intros v V HV. destruct (user_in_room s Hc _ _ HV) as [r [Hr Hm]].
    exists r. split; [|assumption].
    rewrite JSMapFacts.get_set_other; [assumption|congruence].
  - intros k' r v V. rewrite JSMapFacts.get_set. destruct (String.eqb k k').
    + intros H; inversion H; subst. rewrite Hempty. discriminate.
    + apply (member_is_user s Hc).
  - rewrite total_members_eq. simpl. rewrite members_sum_set_absent by assumption.
    rewrite Hempty. pose proof (users_count s Hc) as Hcount.
    rewrite total_members_eq in Hcount. simpl. lia.
Qed.

Lemma consistent_insert s key room userId user :
  consistent s -> JSMap.get (rooms s) key = Some room ->
  JSMap.get (users s) userId = None -> User.roomId user = key ->
  consistent (mkState (JSMap.set (rooms s) key (joined_room room userId user))
                      (JSMap.set (users s) userId user)).
Proof.
  intros Hc Hr Hu Hkey.
  assert (Hnot : JSMap.get (Room.users room) userId = None).
  { destruct (JSMap.get (Room.users room) userId) as [V|] eqn:E; [|reflexivity].
    destruct (member_is_user s Hc _ _ _ _ Hr E) as [H _]. congruence. }
  constructor; simpl.
  - apply JSMapFacts.NoDup_keys_set, Hc.
  - intros k r. rewrite JSMapFacts.get_set. destruct (String.eqb key k).
    + intros H; inversion H; subst. simpl.
      apply JSMapFacts.NoDup_keys_set. eapply members_keys; eauto.
    + apply (members_keys s Hc).
  - intros v V. rewrite JSMapFacts.get_set.
    destruct (String.eqb_spec userId v) as [<-|Hv].
    + intros H; inversion H; subst V. rewrite Hkey, JSMapFacts.get_set_same.
      eexists. split; [reflexivity|]. simpl. apply JSMapFacts.get_set_same.
    + intros HV. destruct (user_in_room s Hc _ _ HV) as [r [Hr' Hm]].
      rewrite JSMapFacts.get_set.
      destruct (String.eqb_spec key (User.roomId V)) as [E|E].
      * eexists. split; [reflexivity|]. simpl.
        rewrite JSMapFacts.get_set_other by assumption. congruence.
      * exists r. auto.
  - intros k r v V. rewrite JSMapFacts.get_set.
    destruct (String.eqb_spec key k) as [E|E].
    + intros H; inversion H; subst r. simpl. rewrite !JSMapFacts.get_set.
      destruct (String.eqb_spec userId v) as [<-|Hv].
      * intros H'; inversion H'; subst V. split; congruence.
      * intros HV. subst k. apply (member_is_user s Hc key room v V); assumption.
    + intros Hk HV. destruct (member_is_user s Hc k r v V Hk HV) as [HuV HkV].
      split; [|assumption].
      rewrite JSMapFacts.get_set_other; [assumption|congruence].
  - rewrite total_members_eq. simpl.
    pose proof (members_sum_set (rooms s) key (joined_room room userId user) room Hr)
      as Hsum.
    pose proof (users_count s Hc) as Hcount. rewrite total_members_eq in Hcount.
    rewrite (JSMapFacts.size_set_absent _ _ _ Hu).
    simpl in Hsum. rewrite (JSMapFacts.size_set_absent _ _ _ Hnot) in Hsum. lia.
Qed.

(** The state between the deletions of a leave and its test of the size *)
Lemma consistent_mid s userId user room :
  directory_ok s -> consistent s ->
  JSMap.get (users s) userId = Some user ->
  JSMap.get (rooms s) (User.roomId user) = Some room ->
  consistent (leave_mid s userId user room).
Proof.
  intros Hdir Hc Hu Hr.
  assert (Hmem : JSMap.get (Room.users room) userId = Some user).
  { destruct (user_in_room s Hc _ _ Hu) as [room0 [Hr0 Hm0]]. congruence. }
  pose proof (directory_ok_get _ _ _ Hdir Hr) as Hid.
  set (kr := User.roomId user) in *.
  set (room' := left_room room userId).
  assert (Hsize : S (JSMap.size (Room.users room')) = JSMap.size (Room.users room)).
  { apply (JSMapFacts.size_delete _ _ user); [|assumption].
    eapply members_keys; eauto. }
  constructor; simpl.
  - apply JSMapFacts.NoDup_keys_delete, Hc.
  - intros k r. rewrite JSMapFacts.get_set. fold kr.
    destruct (String.eqb kr k).
    + intros H; inversion H; subst. simpl.
      apply JSMapFacts.NoDup_keys_delete. eapply members_keys; eauto.
    + apply (members_keys s Hc).
  - intros v V. rewrite JSMapFacts.get_delete.
    destruct (String.eqb_spec userId v) as [->|Hv]; [discriminate|].
    intros HV. destruct (user_in_room s Hc _ _ HV) as [r [Hr' Hm']].
    rewrite JSMapFacts.get_set. fold kr.
    destruct (String.eqb_spec kr (User.roomId V)) as [E|E].
    * exists room'. split; [reflexivity|]. simpl.
      rewrite JSMapFacts.get_delete_other by assumption.
      rewrite <- E in Hr'. congruence.
    * exists r. auto.
  - intros k r v V. rewrite JSMapFacts.get_set. fold kr.
    destruct (String.eqb_spec kr k) as [E|E].
    + intros H; inversion H; subst r. simpl. rewrite JSMapFacts.get_delete.
      destruct (String.eqb_spec userId v) as [->|Hv]; [discriminate|].
      intros HV. rewrite JSMapFacts.get_delete_other by assumption.
      subst k. apply (member_is_user s Hc kr room v V); assumption.
    + intros Hk HV. destruct (member_is_user s Hc k r v V Hk HV) as [HuV HkV].
      split; [|assumption].
      rewrite JSMapFacts.get_delete_other; [assumption|].
      intros ->. apply E. unfold kr. congruence.
  - rewrite total_members_eq. simpl.
    pose proof (members_sum_set (rooms s) kr room' room Hr) as Hsum.
    pose proof (JSMapFacts.size_delete (users s) userId user (users_keys s Hc) Hu).
    pose proof (users_count s Hc) as Hcount. rewrite total_members_eq in Hcount.
    fold kr. change (left_room room userId) with room'. lia.
Qed.

(** The deletion of a room that has no member *)
Lemma consistent_delete_empty s k room :
  directory_ok s -> consistent s ->
  JSMap.get (rooms s) k = Some room -> JSMap.size (Room.users room) = 0 ->
  consistent (mkState (JSMap.delete (rooms s) k) (users s)).
Proof.
  intros Hdir Hc Hget E. constructor; simpl.
  - apply (users_keys _ Hc).
  - intros k' r. rewrite JSMapFacts.get_delete. destruct (String.eqb k k'); [discriminate|].
    apply (members_keys _ Hc).
  - intros v V HV. destruct (user_in_room _ Hc _ _ HV) as [r [Hr' Hm']].
    exists r. split; [|assumption].
    rewrite JSMapFacts.get_delete_other; [assumption|].
    intros Heq. rewrite <- Heq in Hr'. rewrite Hget in Hr'. inversion Hr'; subst r.
    apply get_size_pos in Hm'. contradiction.
  - intros k' r v V. rewrite JSMapFacts.get_delete.
    destruct (String.eqb k k'); [discriminate|].
    apply (member_is_user _ Hc).
  - rewrite total_members_eq. simpl.
    pose proof (members_sum_delete _ k room (proj1 Hdir) Hget) as Hsum.
    pose proof (users_count _ Hc) as Hcount. rewrite total_members_eq in Hcount.
    lia.
Qed.

(** After a leave the session has no user record. *)
Lemma leave_state_users s userId :
  consistent s -> JSMap.get (users (leave_state s userId)) userId = None.
Proof.
  intros Hc. unfold leave_state.
  destruct (JSMap.get (users s) userId) as [user|] eqn:Hu; [|assumption].
  destruct (user_in_room s Hc _ _ Hu) as [room [Hr _]]. rewrite Hr.
  destruct (Nat.eqb (JSMap.size (Room.users (left_room room userId))) 0); simpl;
    apply JSMapFacts.get_delete_same.
Qed.

Lemma consistent_leave s userId :
  directory_ok s -> consistent s -> consistent (leave_state s userId).
Proof.
  intros Hdir Hc. unfold leave_state.
  destruct (JSMap.get (users s) userId) as [user|] eqn:Hu; [|assumption].
  destruct (JSMap.get (rooms s) (User.roomId user)) as [room|] eqn:Hr; [|assumption].
  pose proof (consistent_mid s userId user room Hdir Hc Hu Hr) as Hmid.
  pose proof (directory_ok_get _ _ _ Hdir Hr) as Hid.
  destruct (Nat.eqb (JSMap.size (Room.users (left_room room userId))) 0) eqn:E;
    [|assumption].
  apply Nat.eqb_eq in E.
  apply (consistent_delete_empty (leave_mid s userId user room) (Room.id room)
           (left_room room userId)).
  - now apply directory_ok_mid.
  - assumption.
  - rewrite Hid. apply JSMapFacts.get_set_same.
  - assumption.
Qed.

Lemma consistent_create s rn d :
  consistent s -> JSMap.get (rooms s) (uuid_room d) = None ->
  consistent (create_state s rn d).
Proof. intros Hc Hf. now apply consistent_add_room. Qed.

Lemma consistent_enter s userId ws rn un role d :
  directory_ok s -> consistent s ->
  JSMap.get (users s) userId = None -> JSMap.get (rooms s) (uuid_room d) = None ->
  consistent (enter_state s userId ws rn un role d).
Proof.
  intros Hdir Hc Hu Hfresh. unfold enter_state.
  destruct (resolve_room_cases s rn d)
    as [[key [room [E [Hin [Hname [Hf Hcv]]]]]]|[E [Hf Hnone]]]; rewrite E.
  - apply consistent_insert; try assumption.
    + apply JSMapFacts.In_get; [apply Hdir|assumption].
    + simpl. now apply Hdir.
  - apply (consistent_insert (create_state s rn d)); simpl.
    + now apply consistent_create.
    + apply JSMapFacts.get_set_same.
    + assumption.
    + reflexivity.
Qed.

Lemma Inv_fresh_init : Inv_fresh init.
Proof. split; [apply Inv_init|apply consistent_init]. Qed.

Lemma Inv_fresh_reached s u ev s' :
  Inv_fresh s -> fresh_draw s ev = true -> reached s u ev s' -> Inv_fresh s'.
Proof.
  intros [HI Hc] Hfresh Hr. split; [eapply Inv_reached; eassumption|].
  destruct Hr as [| |user room Hu Hroom Hcv|ws p d rn un role Hev _ Hf Hcv
                  |ws p d rn un role Hev _ Hok].
  - assumption.
  - apply consistent_leave; [apply HI|assumption].
  - apply consistent_mid; [apply HI|assumption..].
  - rewrite Hev in Hfresh. simpl in Hfresh.
    apply negb_true_iff, JSMapFacts.has_false in Hfresh.
    apply consistent_create.
    + apply consistent_leave; [apply HI|assumption].
    + now apply leave_state_rooms_None.
  - rewrite Hev in Hfresh. simpl in Hfresh.
    apply negb_true_iff, JSMapFacts.has_false in Hfresh.
    apply consistent_enter.
    + apply directory_ok_leave, HI.
    + apply consistent_leave; [apply HI|assumption].
    + now apply leave_state_users.
    + now apply leave_state_rooms_None.
Qed.

Lemma Inv_fresh_step s x :
  Inv_fresh s -> fresh_draw s (snd x) = true -> Inv_fresh (step s x).
Proof.
  intros H Hf. unfold step. eapply Inv_fresh_reached; [eassumption..|apply st_handle].
Qed.

Lemma Inv_fresh_run tr :
  forall s, Inv_fresh s -> fresh_run s tr = true -> Inv_fresh (run s tr).
Proof.
  induction tr as [|x tr IH]; intros s H Hf; simpl in *; [assumption|].
  apply andb_true_iff in Hf. destruct Hf as [Hx Htr].
  apply IH; [now apply Inv_fresh_step|assumption].
Qed.

(** In a state of a run with fresh ids, a session that has a user record can
    leave exactly when its own name has a text: the name of its room has one. *)
Lemma room_of_user_named s userId user room :
  Inv_fresh s ->
  JSMap.get (users s) userId = Some user ->
  JSMap.get (rooms s) (User.roomId user) = Some room ->
  converts (Room.name room) = true /\
  JSMap.get (Room.users room) userId = Some user.
Proof.
  intros [[_ [_ Hm]] Hc] Hu Hr.
  destruct (user_in_room s Hc _ _ Hu) as [room0 [Hr0 Hm0]].
  assert (room0 = room) by congruence. subst room0.
  split; [|assumption]. apply (Hm _ _ Hr). now apply get_size_pos in Hm0.
Qed.

Lemma can_leave_fresh s userId :
  Inv_fresh s ->
  can_leave s userId
  = match JSMap.get (users s) userId with
    | Some user => converts (User.name user)
    | None => true
    end.
Proof.
  intros HI. unfold can_leave.
  destruct (JSMap.get (users s) userId) as [user|] eqn:Hu; [|reflexivity].
  destruct (user_in_room s (proj2 HI) _ _ Hu) as [room [Hr _]]. rewrite Hr.
  destruct (room_of_user_named s userId user room HI Hu Hr) as [Hc _].
  rewrite Hc. apply andb_true_r.
Qed.

(** ** The room directory *)

Lemma In_values_get s room :
  directory_ok s -> In room (JSMap.values (rooms s)) ->
  exists k, JSMap.get (rooms s) k = Some room.
Proof.
  intros [Hnd _] Hin. unfold JSMap.values in Hin. apply in_map_iff in Hin.
  destruct Hin as [[k r] [Heq Hin]]. simpl in Heq. subst r.
  exists k. now apply JSMapFacts.In_get.
Qed.

(** ** Users and rooms *)

Lemma member_unique s userId k1 k2 :
  consistent s -> member s userId k1 -> member s userId k2 -> k1 = k2.
Proof.
  intros Hc [room1 [H1 M1]] [room2 [H2 M2]].
  apply JSMapFacts.has_true in M1, M2.
  destruct M1 as [u1 M1]. destruct M2 as [u2 M2].
  destruct (member_is_user s Hc _ _ _ _ H1 M1) as [U1 K1].
  destruct (member_is_user s Hc _ _ _ _ H2 M2) as [U2 K2].
  congruence.
Qed.

Lemma user_iff_member s userId :
  consistent s ->
  (JSMap.has (users s) userId = true <-> exists k, member s userId k).
Proof.
  intros Hc. split.
  - intros H. apply JSMapFacts.has_true in H. destruct H as [user Hu].
    destruct (user_in_room s Hc _ _ Hu) as [room [Hr Hm]].
    exists (User.roomId user), room. split; [assumption|].
    apply JSMapFacts.has_true. eauto.
  - intros [k [room [Hr Hm]]]. apply JSMapFacts.has_true in Hm.
    destruct Hm as [user Hm]. apply JSMapFacts.has_true. exists user.
    apply (member_is_user s Hc _ _ _ _ Hr Hm).
Qed.

Lemma getStats_sum s :
  list_sum (map userCount (roomsInfo (getStats s))) = total_members s.
Proof.
  unfold getStats, total_members, members_sum. simpl. rewrite map_map. reflexivity.
Qed.

Lemma leave_state_users_None s userId v :
  JSMap.get (users s) v = None ->
  JSMap.get (users (leave_state s userId)) v = None.
Proof.
  intros Hv. unfold leave_state.
  destruct (JSMap.get (users s) userId) as [user|]; [|assumption].
  destruct (JSMap.get (rooms s) (User.roomId user)) as [room|]; [|assumption].
  destruct (Nat.eqb (JSMap.size (Room.users (left_room room userId))) 0); simpl;
    rewrite JSMapFacts.get_delete; destruct (String.eqb userId v); auto.
Qed.

Lemma enter_state_users s userId ws rn un role d v :
  v <> userId ->
  JSMap.get (users (enter_state s userId ws rn un role d)) v = JSMap.get (users s) v.
Proof.
  intros Hv. unfold enter_state. destruct (resolve_room s rn d) as [[key room] rooms1].
  simpl. apply JSMapFacts.get_set_other. congruence.
Qed.

Lemma never_joined_step env ev s v :
  is_join_of v ev = false -> JSMap.get (users s) v = None ->
  JSMap.get (users (st (handle env ev s))) v = None.
Proof.
  intros Hj Hv.
  destruct (st_handle env ev s)
    as [| |user room Hu Hroom Hcv|ws p d rn un role Hev _ Hf Hcv
        |ws p d rn un role Hev _ Hok].
  - assumption.
  - now apply leave_state_users_None.
  - cbn [leave_mid users]. rewrite JSMapFacts.get_delete.
    destruct (String.eqb (event_user ev) v); [reflexivity|assumption].
  - cbn [create_state users]. now apply leave_state_users_None.
  - rewrite Hev in Hj. simpl in Hj. rewrite andb_true_r in Hj.
    apply String.eqb_neq in Hj.
    rewrite enter_state_users by congruence. now apply leave_state_users_None.
Qed.

Lemma never_joined_run v tr :
  forall s, never_joined v tr = true -> JSMap.get (users s) v = None ->
            JSMap.get (users (run s tr)) v = None.
Proof.
  induction tr as [|x tr IH]; intros s Hn Hv; simpl in *; [assumption|].
  apply andb_true_iff in Hn. destruct Hn as [Hx Htr].
  apply IH; [assumption|]. unfold step. apply never_joined_step; [|assumption].
  now apply negb_true_iff in Hx.
Qed.

(** C10. In a state reached by a run whose room ids are fresh, a session id is
    a key of [users] exactly when some room of the directory has it in its
    membership map; that room is unique, is the room stored under the
    [roomId] of the user record, carries that id and holds the same record;
    [totalUsers] of [getStats] is the sum of the [userCount]s; a new
    connection changes no statistic, and a session that sent no [join_room]
    is not a key of [users]. *)
Theorem users_rooms_consistent tr :
  fresh_run init tr = true ->
  let s := run init tr in
  (forall userId,
     JSMap.has (users s) userId = true <-> exists k, member s userId k) /\
  (forall userId k1 k2, member s userId k1 -> member s userId k2 -> k1 = k2) /\
  (forall userId user, JSMap.get (users s) userId = Some user ->
     exists room, JSMap.get (rooms s) (User.roomId user) = Some room /\
                  Room.id room = User.roomId user /\
                  JSMap.get (Room.users room) userId = Some user) /\
  totalUsers (getStats s) = list_sum (map userCount (roomsInfo (getStats s))) /\
  (forall env userId ws, getStats (st (onConnection env userId ws s)) = getStats s) /\
  (forall userId, never_joined userId tr = true -> JSMap.has (users s) userId = false).
Proof.
  intros Hfresh s.
  destruct (Inv_fresh_run tr init Inv_fresh_init Hfresh) as [[Hdir _] Hc].
  fold s in Hdir, Hc.
  split; [intros userId; now apply user_iff_member|].
  split; [intros userId k1 k2; now apply member_unique|].
  split.
  { intros userId user Hu. destruct (user_in_room s Hc _ _ Hu) as [room [Hr Hm]].
    exists room. split; [assumption|]. split; [|assumption].
    now apply (directory_ok_get s). }
  split; [rewrite getStats_sum; apply (users_count s Hc)|].
  split.
  { intros env userId ws. unfold onConnection. rewrite sendToUser_eq. reflexivity. }
  intros userId Hn. apply JSMapFacts.has_false.
  apply never_joined_run; [assumption|reflexivity].
Qed.

Lemma users_rooms_consistent_witness :
  totalUsers (getStats state_abc) = 3 /\
  list_sum (map userCount (roomsInfo (getStats state_abc))) = 3 /\
  JSMap.has (users state_abc) "D" = false.
Proof.
  assert (Hfresh : fresh_run init trace_abc = true) by (vm_compute; reflexivity).
  destruct (users_rooms_consistent trace_abc Hfresh) as [_ [_ [_ [Hsum [_ Hnever]]]]].
  fold state_abc in Hsum, Hnever.
  split; [vm_compute; reflexivity|]. split.
  - rewrite <- Hsum. vm_compute. reflexivity.
  - apply Hnever. vm_compute. reflexivity.
Defined.
Lemma leave_last_member s userId user room :
  directory_ok s ->
  JSMap.get (users s) userId = Some user ->
  JSMap.get (rooms s) (User.roomId user) = Some room ->
  JSMap.size (JSMap.delete (Room.users room) userId) = 0 ->
  JSMap.get (rooms (leave_state s userId)) (User.roomId user) = None.
Proof.
  intros Hdir Hu Hr Hsize. unfold leave_state. rewrite Hu, Hr. simpl.
  rewrite Hsize. simpl. rewrite (directory_ok_get _ _ _ Hdir Hr).
  apply JSMapFacts.get_delete_same.
Qed.

(** ** Joining *)

Lemma leave_log_eq env s userId d user room :
  directory_ok s ->
  JSMap.get (users s) userId = Some user ->
  JSMap.get (rooms s) (User.roomId user) = Some room ->
  leave_log env s userId d
  = broadcast_log env (JSMap.delete (Room.users room) userId)
      (left_message user
         (map userInfo (JSMap.values (JSMap.delete (Room.users room) userId))) d)
      None.
Proof.
  intros Hdir Hu Hr. unfold leave_log. rewrite Hu, Hr.
  unfold room_broadcast, room_users_info, leave_mid. simpl.
  rewrite (directory_ok_get _ _ _ Hdir Hr), JSMapFacts.get_set_same. reflexivity.
Qed.

Lemma broadcast_log_In env us message exclude v V :
  In (v, V) us -> not_excluded v exclude = true ->
  readyState env (User.socket V) = OPEN ->
  In (User.socket V, message) (broadcast_log env us message exclude) /\
  (sendThrows env (User.socket V) message = false ->
   In (User.socket V, message) (delivered env (broadcast_log env us message exclude))).
Proof.
  intros Hin Hex Hopen.
  assert (H : In (User.socket V, message) (broadcast_log env us message exclude)).
  { unfold broadcast_log, recipients. apply in_map_iff. exists (v, V).
    split; [reflexivity|]. apply filter_In. split; [assumption|]. simpl.
    now rewrite Hex, Hopen. }
  split; [exact H|]. intros Hsend. unfold delivered. apply filter_In.
  split; [exact H|]. simpl. now rewrite Hsend.
Qed.

Lemma delivered_app env l1 l2 :
  delivered env (l1 ++ l2) = (delivered env l1 ++ delivered env l2)%list.
Proof. apply filter_app. Qed.

(** A join whose leave goes to its end and whose room is found, or created
    under a name that has a text: the session is inserted, and the join then
    throws exactly when the name of the user has no text. *)
Lemma join_result_enters env s userId ws rn un role d :
  can_leave s userId = true ->
  (find_room (leave_state s userId) rn <> None \/ converts rn = true) ->
  join_result env s userId ws rn un role d
  = match ToString un with
    | Throw e =>
        mkRes (Throw e) (enter_state (leave_state s userId) userId ws rn un role d)
              (leave_log env s userId d
               ++ joined_reply env (leave_state s userId) userId ws rn un role d)
    | Ok _ =>
        mkRes (Ok tt) (enter_state (leave_state s userId) userId ws rn un role d)
              (leave_log env s userId d
               ++ enter_log env (leave_state s userId) userId ws rn un role d)
    end.
Proof.
  intros Hl Hok. unfold join_result. rewrite (leave_result_ok env userId d s Hl).
  cbn [out st log]. unfold enter_result, converts in *.
  destruct (find_room (leave_state s userId) rn); [destruct (ToString rn); reflexivity|].
  destruct Hok as [Hok|Hok]; [congruence|].
  destruct (ToString rn); [reflexivity|discriminate].
Qed.

(** The session has no user record after a join that did not insert it. *)
Lemma join_result_effect env s userId ws rn un role d :
  consistent s ->
  JSMap.has (users (st (join_result env s userId ws rn un role d))) userId = true ->
  can_leave s userId = true /\
  (find_room (leave_state s userId) rn <> None \/ converts rn = true).
Proof.
  intros Hc Hhas.
  assert (Hgone : JSMap.has (users (leave_state s userId)) userId = false)
    by (apply JSMapFacts.has_false; now apply leave_state_users).
  destruct (join_result_cases env userId ws rn un role d s)
    as [[e [Ho H]]|[Ho [[e [Hf [Ht H]]]|[Hok _]]]].
  - exfalso. rewrite H in Hhas.
    destruct (leave_result_cases env userId d s)
      as [[Ho' _]|[e' [_ [[Hs _]|[user [room [Hu [Hr [Hcv [Hs _]]]]]]]]]].
    + congruence.
    + rewrite Hs in Hhas. congruence.
    + rewrite Hs in Hhas. cbn [leave_mid users] in Hhas.
      apply JSMapFacts.has_true in Hhas. destruct Hhas as [x Hx].
      rewrite JSMapFacts.get_delete_same in Hx. discriminate.
  - exfalso. rewrite H in Hhas. cbn [st create_state users] in Hhas. congruence.
  - split; [|assumption].
    unfold can_leave. unfold leave_result in Ho.
    destruct (JSMap.get (users s) userId) as [user|]; [|reflexivity].
    destruct (JSMap.get (rooms s) (User.roomId user)) as [room|]; [|reflexivity].
    unfold converts. destruct (ToString (User.name user)); [|discriminate].
    cbn [out template] in Ho. destruct (ToString (Room.name room)); [reflexivity|discriminate].
Qed.

Lemma Inv_fresh_join s userId ws rn un role d :
  Inv_fresh s -> JSMap.get (rooms s) (uuid_room d) = None ->
  (find_room (leave_state s userId) rn <> None \/ converts rn = true) ->
  Inv_fresh (enter_state (leave_state s userId) userId ws rn un role d).
Proof.
  intros [HI Hc] Hfresh Hok. split; [apply Inv_enter; [now apply Inv_leave|assumption]|].
  apply consistent_enter.
  - apply directory_ok_leave, HI.
  - apply consistent_leave; [apply HI|assumption].
  - now apply leave_state_users.
  - now apply leave_state_rooms_None.
Qed.

(** The state and the [send] calls of an insertion, member by member *)
Lemma enter_log_eq env s userId ws rn un role d :
  directory_ok s -> consistent s ->
  JSMap.get (users s) userId = None -> readyState env ws = OPEN ->
  exists key room,
    (JSMap.get (rooms s) key = Some room \/
     (key = uuid_room d /\ room = new_room rn d /\ find_room s rn = None)) /\
    Room.name room = rn /\
    let user := User.mk userId ws role un key (now_joinedAt d) in
    let members := (Room.users room ++ [(userId, user)])%list in
    let infos := map userInfo (JSMap.values members) in
    JSMap.get (rooms (enter_state s userId ws rn un role d)) key
    = Some (Room.with_users room members) /\
    JSMap.get (users (enter_state s userId ws rn un role d)) userId = Some user /\
    joined_reply env s userId ws rn un role d
    = [(ws, room_joined key rn (S (JSMap.size (Room.users room))))] /\
    enter_log env s userId ws rn un role d
    = ([(ws, room_joined key rn (S (JSMap.size (Room.users room))))]
       ++ broadcast_log env members (joined_message user infos d) (Some userId)
       ++ [(ws, user_list infos)])%list.
Proof.
  intros Hdir Hc Hu Hopen.
  assert (Hcore : forall key room rooms1,
            resolve_room s rn d = (key, room, rooms1) ->
            Room.id room = key -> Room.name room = rn ->
            JSMap.get (Room.users room) userId = None ->
            let user := User.mk userId ws role un key (now_joinedAt d) in
            let members := (Room.users room ++ [(userId, user)])%list in
            let infos := map userInfo (JSMap.values members) in
            JSMap.get (rooms (enter_state s userId ws rn un role d)) key
            = Some (Room.with_users room members) /\
            JSMap.get (users (enter_state s userId ws rn un role d)) userId = Some user /\
            joined_reply env s userId ws rn un role d
            = [(ws, room_joined key rn (S (JSMap.size (Room.users room))))] /\
            enter_log env s userId ws rn un role d
            = ([(ws, room_joined key rn (S (JSMap.size (Room.users room))))]
               ++ broadcast_log env members (joined_message user infos d) (Some userId)
               ++ [(ws, user_list infos)])%list).
  { intros key room rooms1 E Hid Hname Hnot user members infos.
    unfold enter_log, joined_reply, enter_state. rewrite E.
    unfold new_user, joined_room. rewrite Hid. fold user.
    rewrite (JSMapFacts.set_absent _ _ user Hnot). fold members.
    unfold room_broadcast, room_users_info, user_list_log. simpl.
    rewrite Hid, !JSMapFacts.get_set_same. simpl. fold infos.
    unfold send_log. rewrite Hopen. rewrite Hname.
    assert (Hsz : JSMap.size members = S (JSMap.size (Room.users room))).
    { unfold members, JSMap.size. rewrite length_app. simpl. apply Nat.add_1_r. }
    rewrite Hsz.
    split; [reflexivity|]. split; [reflexivity|]. split; [reflexivity|].
    unfold room_users_info. simpl.
    rewrite ?Hid, ?JSMapFacts.get_set_same. reflexivity. }
  destruct (resolve_room_cases s rn d)
    as [[key [room [E [Hin [Hname [Hf Hcv]]]]]]|[E [Hf Hnone]]].
  - assert (Hget : JSMap.get (rooms s) key = Some room)
      by (apply JSMapFacts.In_get; [apply Hdir|assumption]).
    exists key, room. split; [now left|]. split; [assumption|].
    apply (Hcore key room (rooms s) E); [now apply Hdir|assumption|].
    destruct (JSMap.get (Room.users room) userId) as [V|] eqn:EV; [|reflexivity].
    destruct (member_is_user s Hc _ _ _ _ Hget EV). congruence.
  - exists (uuid_room d), (new_room rn d).
    split; [right; repeat split; assumption|].
    split; [reflexivity|].
    apply (Hcore _ _ _ E); reflexivity.
Qed.

(** ** What an event leaves alone *)

(** A room of the state after a leave is a room of the state before it, with
    the same id, name and creation time, and with the same members or the
    same members without the leaver. *)
Lemma leave_state_room_of s userId k room :
  directory_ok s ->
  JSMap.get (rooms (leave_state s userId)) k = Some room ->
  exists room0,
    JSMap.get (rooms s) k = Some room0 /\
    Room.id room = Room.id room0 /\ Room.name room = Room.name room0 /\
    Room.createdAt room = Room.createdAt room0 /\
    (Room.users room = Room.users room0 \/
     Room.users room = JSMap.delete (Room.users room0) userId).
Proof.
  intros Hdir Hget.
  destruct (leave_state_rooms s userId k Hdir) as [H|[user [room0 [_ [Hr [Hk H]]]]]];
    rewrite H in Hget.
  - exists room. repeat (split; [auto|]). now left.
  - destruct (Nat.eqb (JSMap.size (Room.users (left_room room0 userId))) 0);
      [discriminate|].
    inversion Hget; subst. exists room0. repeat (split; [auto|]). now right.
Qed.

Lemma delete_size_0 {V} (m : JSMap.t V) k k' :
  JSMap.size (JSMap.delete m k) = 0 -> k' <> k -> JSMap.get m k' = None.
Proof.
  intros Hsize Hk. rewrite <- (JSMapFacts.get_delete_other m k k') by congruence.
  destruct (JSMap.delete m k); [reflexivity|discriminate].
Qed.

Lemma leave_state_users_other s userId v :
  v <> userId ->
  JSMap.get (users (leave_state s userId)) v = JSMap.get (users s) v.
Proof.
  intros Hv. unfold leave_state.
  destruct (JSMap.get (users s) userId) as [user|]; [|reflexivity].
  destruct (JSMap.get (rooms s) (User.roomId user)) as [room|]; [|reflexivity].
  destruct (Nat.eqb (JSMap.size (Room.users (left_room room userId))) 0); simpl;
    apply JSMapFacts.get_delete_other; congruence.
Qed.

Lemma leave_state_member_other s userId k v :
  directory_ok s -> v <> userId ->
  member_record (leave_state s userId) k v = member_record s k v.
Proof.
  intros Hdir Hv. unfold member_record.
  destruct (leave_state_rooms s userId k Hdir) as [H|[user [room0 [_ [Hr [Hk H]]]]]];
    rewrite H; [reflexivity|].
  subst k. rewrite Hr.
  destruct (Nat.eqb (JSMap.size (Room.users (left_room room0 userId))) 0) eqn:E.
  - apply Nat.eqb_eq in E. symmetry. now apply (delete_size_0 _ userId).
  - simpl. apply JSMapFacts.get_delete_other. congruence.
Qed.

Lemma enter_state_member_other s userId ws rn un role d k v :
  directory_ok s -> JSMap.get (rooms s) (uuid_room d) = None -> v <> userId ->
  member_record (enter_state s userId ws rn un role d) k v = member_record s k v.
Proof.
  intros Hdir Hfresh Hv. unfold member_record.
  destruct (enter_state_rooms s userId ws rn un role d Hdir)
    as [key [room [Hid [Hname [Hcase [_ Hget]]]]]].
  rewrite Hget. destruct (String.eqb_spec key k) as [<-|Hk]; [|reflexivity].
  simpl. rewrite JSMapFacts.get_set_other by congruence.
  destruct Hcase as [[H _]|[Hkey [Hempty _]]].
  - now rewrite H.
  - rewrite Hkey, Hfresh, Hempty. reflexivity.
Qed.

Lemma enter_state_room_of s userId ws rn un role d k room0 room :
  directory_ok s -> JSMap.get (rooms s) (uuid_room d) = None ->
  JSMap.get (rooms s) k = Some room0 ->
  JSMap.get (rooms (enter_state s userId ws rn un role d)) k = Some room ->
  Room.id room = Room.id room0 /\ Room.name room = Room.name room0 /\
  Room.createdAt room = Room.createdAt room0.
Proof.
  intros Hdir Hfresh H0 H1.
  destruct (enter_state_rooms s userId ws rn un role d Hdir)
    as [key [room1 [Hid [Hname [Hcase [_ Hget]]]]]].
  rewrite Hget in H1. destruct (String.eqb_spec key k) as [<-|Hk].
  - inversion H1; subst room. destruct Hcase as [[H _]|[Hkey _]].
    + assert (room1 = room0) by congruence. subst. repeat split; reflexivity.
    + congruence.
  - assert (room = room0) by congruence. subst. repeat split; reflexivity.
Qed.

Lemma leave_mid_member_other s userId user room k v :
  JSMap.get (rooms s) (User.roomId user) = Some room -> v <> userId ->
  member_record (leave_mid s userId user room) k v = member_record s k v.
Proof.
  intros Hr Hv. unfold member_record. rewrite leave_mid_rooms.
  destruct (String.eqb_spec (User.roomId user) k) as [<-|Hk]; [|reflexivity].
  rewrite Hr. simpl. apply JSMapFacts.get_delete_other. congruence.
Qed.

Lemma create_state_rooms s rn d k :
  JSMap.get (rooms (create_state s rn d)) k
  = if String.eqb (uuid_room d) k then Some (new_room rn d) else JSMap.get (rooms s) k.
Proof. unfold create_state. simpl. apply JSMapFacts.get_set. Qed.

(** An event of the session [u] leaves the records of every other session
    as they were, in [users] and in every room. *)
Lemma reached_other s u ev s' v :
  directory_ok s -> fresh_draw s ev = true -> reached s u ev s' -> v <> u ->
  JSMap.get (users s') v = JSMap.get (users s) v /\
  forall k, member_record s' k v = member_record s k v.
Proof.
  intros Hdir Hfresh Hreach Hv.
  destruct Hreach as [| |user room Hu Hr Hc|ws p d rn un role Hev Hvalid Hfind Hc
                      |ws p d rn un role Hev Hvalid Hc].
  - split; reflexivity.
  - split; [now apply leave_state_users_other|].
    intros k. now apply leave_state_member_other.
  - split; [simpl; apply JSMapFacts.get_delete_other; congruence|].
    intros k. now apply leave_mid_member_other.
  - rewrite Hev in Hfresh. simpl in Hfresh.
    apply negb_true_iff, JSMapFacts.has_false in Hfresh.
    split; [simpl; now apply leave_state_users_other|].
    intros k. rewrite <- (leave_state_member_other s u k v Hdir Hv).
    unfold member_record at 1. rewrite create_state_rooms.
    destruct (String.eqb_spec (uuid_room d) k) as [<-|Hk]; [|reflexivity].
    unfold member_record. rewrite (leave_state_rooms_None s u _ Hfresh). reflexivity.
  - rewrite Hev in Hfresh. simpl in Hfresh.
    apply negb_true_iff, JSMapFacts.has_false in Hfresh.
    split.
    + rewrite enter_state_users by assumption. now apply leave_state_users_other.
    + intros k. rewrite enter_state_member_other; try assumption.
      * now apply leave_state_member_other.
      * now apply directory_ok_leave.
      * now apply leave_state_rooms_None.
Qed.

(** A room that is in the directory before and after an event has kept its
    id, its name and its creation time. *)
Lemma reached_room_identity s u ev s' k room room' :
  directory_ok s -> fresh_draw s ev = true -> reached s u ev s' ->
  JSMap.get (rooms s) k = Some room -> JSMap.get (rooms s') k = Some room' ->
  Room.id room' = Room.id room /\ Room.name room' = Room.name room /\
  Room.createdAt room' = Room.createdAt room.
Proof.
  intros Hdir Hfresh Hreach H0 H1.
  destruct Hreach as [| |user room0 Hu Hr Hc|ws p d rn un role Hev Hvalid Hfind Hc
                      |ws p d rn un role Hev Hvalid Hc].
  - assert (room' = room) by congruence. subst. repeat split; reflexivity.
  - destruct (leave_state_room_of s _ k room' Hdir H1) as [r0 [G [A [B [C _]]]]].
    assert (r0 = room) by congruence. subst. auto.
  - rewrite leave_mid_rooms in H1.
    destruct (String.eqb_spec (User.roomId user) k) as [<-|Hk].
    + assert (room0 = room) by congruence. inversion H1; subst.
      repeat split; reflexivity.
    + assert (room' = room) by congruence. subst. repeat split; reflexivity.
  - rewrite Hev in Hfresh. simpl in Hfresh.
    apply negb_true_iff, JSMapFacts.has_false in Hfresh.
    rewrite create_state_rooms in H1.
    destruct (String.eqb_spec (uuid_room d) k) as [<-|Hk]; [congruence|].
    destruct (leave_state_room_of s _ k room' Hdir H1) as [r0 [G [A [B [C _]]]]].
    assert (r0 = room) by congruence. subst. auto.
  - rewrite Hev in Hfresh. simpl in Hfresh.
    apply negb_true_iff, JSMapFacts.has_false in Hfresh.
    destruct (JSMap.get (rooms (leave_state s u)) k) as [r1|] eqn:E1.
    + destruct (leave_state_room_of s _ k r1 Hdir E1) as [r0 [G [A [B [C _]]]]].
      assert (r0 = room) by congruence. subst r0.
      destruct (enter_state_room_of _ _ _ _ _ _ _ k r1 room'
                  (directory_ok_leave s _ Hdir)
                  (leave_state_rooms_None s _ _ Hfresh) E1 H1) as [A' [B' C']].
      repeat split; congruence.
    + (* the room was emptied by the leave: the insertion does not bring the
         key back, its created room has the fresh id *)
      exfalso.
      destruct (enter_state_rooms (leave_state s u) u
                  ws rn un role d (directory_ok_leave s _ Hdir))
        as [key [room1 [Hid [Hname [Hcase [_ Hget]]]]]].
      rewrite Hget in H1. destruct (String.eqb_spec key k) as [<-|Hk]; [|congruence].
      destruct Hcase as [[Hc1 _]|[Hkey _]]; congruence.
Qed.

(** ** Stored records *)

Lemma truthy_field_Some x v :
  truthy_field x = Some v -> x = Some v /\ ToBoolean v = true.
Proof.
  unfold truthy_field. destruct x as [w|]; [|discriminate].
  destruct (ToBoolean w) eqn:E; [|discriminate].
  intros H; inversion H; subst. auto.
Qed.

Lemma valid_join_Some p rn un role :
  valid_join p = Some (rn, un, role) ->
  truthy_field (roomName p) = Some rn /\ truthy_field (userName p) = Some un /\
  exists ur, truthy_field (userRole p) = Some ur /\ parseRole ur = Some role.
Proof.
  unfold valid_join.
  destruct (truthy_field (roomName p)) as [rn'|]; [|discriminate].
  destruct (truthy_field (userName p)) as [un'|]; [|discriminate].
  destruct (truthy_field (userRole p)) as [ur|]; [|discriminate].
  destruct (parseRole ur) as [role'|] eqn:E; [|discriminate].
  intros H; inversion H; subst. eauto.
Qed.

Lemma valid_join_truthy p rn un role :
  valid_join p = Some (rn, un, role) -> ToBoolean rn = true /\ ToBoolean un = true.
Proof.
  intros Hv. destruct (valid_join_Some p rn un role Hv) as [H1 [H2 _]].
  apply truthy_field_Some in H1, H2. tauto.
Qed.

Lemma records_ok_init : records_ok init.
Proof. split; intros k x H; discriminate. Qed.

Lemma records_ok_leave s userId :
  directory_ok s -> records_ok s -> records_ok (leave_state s userId).
Proof.
  intros Hdir [Hu Hr]. split.
  - intros k user H. apply Hu.
    destruct (String.eqb_spec k userId) as [->|Hk].
    + unfold leave_state in H.
      destruct (JSMap.get (users s) userId) as [u0|] eqn:E0; [|congruence].
      destruct (JSMap.get (rooms s) (User.roomId u0)) as [room|]; [|congruence].
      destruct (Nat.eqb (JSMap.size (Room.users (left_room room userId))) 0);
        simpl in H; rewrite JSMapFacts.get_delete_same in H; discriminate.
    + now rewrite leave_state_users_other in H.
  - intros k room H.
    destruct (leave_state_room_of s userId k room Hdir H) as [r0 [G [_ [B _]]]].
    rewrite B. eapply Hr; eauto.
Qed.

Lemma records_ok_mid s userId user room :
  records_ok s -> JSMap.get (rooms s) (User.roomId user) = Some room ->
  records_ok (leave_mid s userId user room).
Proof.
  intros [Hu Hr] Hroom. split.
  - intros k user' H. simpl in H. apply Hu.
    destruct (String.eqb_spec k userId) as [->|Hk].
    + rewrite JSMapFacts.get_delete_same in H. discriminate.
    + rewrite JSMapFacts.get_delete_other in H by congruence. exact H.
  - intros k room'. rewrite leave_mid_rooms.
    destruct (String.eqb (User.roomId user) k).
    + intros H; inversion H; subst. simpl. eapply Hr; eauto.
    + apply Hr.
Qed.

Lemma records_ok_create s rn d :
  records_ok s -> ToBoolean rn = true -> records_ok (create_state s rn d).
Proof.
  intros [Hu Hr] Hrn. split; [exact Hu|].
  intros k room. rewrite create_state_rooms. destruct (String.eqb (uuid_room d) k).
  - intros H; inversion H; subst. exact Hrn.
  - apply Hr.
Qed.

Lemma records_ok_enter s userId ws rn un role d :
  directory_ok s -> records_ok s -> ToBoolean rn = true -> ToBoolean un = true ->
  records_ok (enter_state s userId ws rn un role d).
Proof.
  intros Hdir [Hu Hr] Hrn Hun.
  destruct (enter_state_rooms s userId ws rn un role d Hdir)
    as [key [room [Hid [Hname [Hcase [Husers Hget]]]]]].
  split.
  - intros k user. rewrite Husers, JSMapFacts.get_set.
    destruct (String.eqb_spec userId k) as [<-|Hk].
    + intros H; inversion H; subst. split; [reflexivity|assumption].
    + apply Hu.
  - intros k room'. rewrite Hget. destruct (String.eqb key k).
    + intros H; inversion H; subst. simpl. congruence.
    + apply Hr.
Qed.

Lemma records_ok_reached s u ev s' :
  directory_ok s -> records_ok s -> reached s u ev s' -> records_ok s'.
Proof.
  intros Hdir Hrec Hreach.
  destruct Hreach as [| |user room Hu Hr Hc|ws p d rn un role Hev Hvalid Hfind Hc
                      |ws p d rn un role Hev Hvalid Hc].
  - assumption.
  - now apply records_ok_leave.
  - now apply records_ok_mid.
  - apply records_ok_create; [now apply records_ok_leave|].
    apply (valid_join_truthy p rn un role Hvalid).
  - destruct (valid_join_truthy p rn un role Hvalid).
    apply records_ok_enter; try assumption; [now apply directory_ok_leave|].
    now apply records_ok_leave.
Qed.

Lemma records_ok_step s x : Inv s -> records_ok s -> records_ok (step s x).
Proof.
  intros [Hdir _] Hrec. unfold step.
  exact (records_ok_reached s _ _ _ Hdir Hrec (st_handle (fst x) (snd x) s)).
Qed.

Lemma records_ok_run tr : forall s, Inv s -> records_ok s -> records_ok (run s tr).
Proof.
  induction tr as [|x tr IH]; intros s HI Hrec; simpl; [assumption|].
  apply IH; [now apply Inv_step|now apply records_ok_step].
Qed.

(** C3. In a state reached by a run whose room ids are fresh, a session is a
    member of at most one room.  A [join_room] with an accepted payload goes
    to its end when the name stored for the session (if it is in a room), the
    requested room name and the new user name have a text, as all strings
    have.  Whenever the join takes effect (the session has a user record
    after it), the session is a member of exactly one room, which has the
    requested name.  If the session was in a room before, the [send] calls of
    the join then start with the [user_left] broadcast to the members that
    remain in that room, with the id, name and role of the session, the list
    of the members that remain and the text of its name in the system
    message: each of them whose socket is open is sent it (and is handed it
    unless its own send throws); and if none remains, the directory no longer
    has the old room afterwards. *)
Theorem join_leaves_previous_room tr env userId ws p d rn un role :
  fresh_run init tr = true ->
  valid_join p = Some (rn, un, role) ->
  JSMap.has (rooms (run init tr)) (uuid_room d) = false ->
  let s := run init tr in
  let r := handleJoinRoom env userId ws (PObject p) d s in
  (forall k1 k2, member s userId k1 -> member s userId k2 -> k1 = k2) /\
  ((forall user, JSMap.get (users s) userId = Some user ->
                 converts (User.name user) = true) ->
   converts rn = true -> converts un = true ->
   out r = Ok tt /\ JSMap.has (users (st r)) userId = true) /\
  (JSMap.has (users (st r)) userId = true ->
   (exists k room,
      JSMap.get (rooms (st r)) k = Some room /\ Room.name room = rn /\
      JSMap.has (Room.users room) userId = true /\
      forall k', member (st r) userId k' -> k' = k) /\
   (forall user room,
      JSMap.get (users s) userId = Some user ->
      JSMap.get (rooms s) (User.roomId user) = Some room ->
      let remaining := JSMap.delete (Room.users room) userId in
      let note :=
        user_left (mkUserInfo userId (User.name user) (User.role user))
          (map (fun u => mkUserInfo (User.id u) (User.name u) (User.role u))
               (JSMap.values remaining))
          (mkSystemMessage (uuid_left d) "系统"
             (text_of (User.name user) ++ " 离开了房间") (now_left d)) in
      converts (User.name user) = true /\
      (exists rest, log r = (broadcast_log env remaining note None ++ rest)%list) /\
      (forall v V, In (v, V) remaining -> readyState env (User.socket V) = OPEN ->
         In (User.socket V, note) (log r) /\
         (sendThrows env (User.socket V) note = false ->
          In (User.socket V, note) (delivered env (log r)))) /\
      (remaining = [] -> JSMap.get (rooms (st r)) (User.roomId user) = None))).
Proof.
  intros Hfresh Hv Hd s r.
  pose proof (Inv_fresh_run tr init Inv_fresh_init Hfresh) as HIf. fold s in HIf, Hd.
  apply JSMapFacts.has_false in Hd.
  subst r. rewrite (handleJoinRoom_valid env userId ws p d s rn un role Hv).
  split; [intros k1 k2; apply member_unique, HIf|].
  destruct (enter_state_rooms (leave_state s userId) userId ws rn un role d
              (directory_ok_leave s userId (proj1 (proj1 HIf))))
    as [key [room [Hid [Hname [Hcase [Husers Hget]]]]]].
  assert (Henters : can_leave s userId = true ->
            (find_room (leave_state s userId) rn <> None \/ converts rn = true) ->
            st (join_result env s userId ws rn un role d)
            = enter_state (leave_state s userId) userId ws rn un role d /\
            exists rest, log (join_result env s userId ws rn un role d)
                         = (leave_log env s userId d ++ rest)%list).
  { intros Hl Hok. rewrite (join_result_enters env s userId ws rn un role d Hl Hok).
    destruct (ToString un); cbn [st log]; split; try reflexivity; eauto. }
  split.
  - intros Hname0 Hrn Hun.
    assert (Hl : can_leave s userId = true).
    { rewrite (can_leave_fresh s userId HIf).
      destruct (JSMap.get (users s) userId) as [user|]; [now apply Hname0|reflexivity]. }
    rewrite (join_result_enters env s userId ws rn un role d Hl (or_intror Hrn)).
    unfold converts in Hun. destruct (ToString un); [|discriminate]. cbn [out st].
    split; [reflexivity|]. apply JSMapFacts.has_true. rewrite Husers.
    eexists. apply JSMapFacts.get_set_same.
  - intros Hhas.
    destruct (join_result_effect env s userId ws rn un role d (proj2 HIf) Hhas)
      as [Hl Hok].
    destruct (Henters Hl Hok) as [Hst [rest Hlog]]. rewrite Hst, Hlog.
    pose proof (Inv_fresh_join s userId ws rn un role d HIf Hd Hok) as HIf'.
    destruct HIf as [[Hdir HI] Hc].
    split.
    + exists key, (joined_room room userId (new_user userId ws role un room d)).
      rewrite Hget, String.eqb_refl. split; [reflexivity|]. split; [assumption|].
      assert (Hhas' : JSMap.has (Room.users (joined_room room userId
                         (new_user userId ws role un room d))) userId = true).
      { apply JSMapFacts.has_true. eexists. simpl. apply JSMapFacts.get_set_same. }
      split; [exact Hhas'|].
      intros k' Hm. apply (member_unique _ userId k' key (proj2 HIf') Hm).
      eexists. split; [|exact Hhas']. rewrite Hget, String.eqb_refl. reflexivity.
    + intros user room0 Hu Hr.
      rewrite (leave_log_eq env s userId d user room0 Hdir Hu Hr).
      assert (Huid : User.id user = userId).
      { apply (proj1 (records_ok_run tr init Inv_init records_ok_init) _ _ Hu). }
      unfold left_message, userInfo. rewrite Huid.
      set (remaining := JSMap.delete (Room.users room0) userId).
      set (note := user_left _ _ _).
      split.
      { rewrite (can_leave_fresh s userId (conj (conj Hdir HI) Hc)), Hu in Hl. exact Hl. }
      split; [eexists; reflexivity|]. split.
      * intros v V Hin Hopen.
        destruct (broadcast_log_In env remaining note None v V Hin eq_refl Hopen)
          as [H1 H2].
        split; [apply in_or_app; now left|].
        intros Hsend. rewrite delivered_app. apply in_or_app. left. now apply H2.
      * intros Hempty.
        assert (Hgone : JSMap.get (rooms (leave_state s userId)) (User.roomId user) = None).
        { apply (leave_last_member s userId user room0 Hdir Hu Hr).
          fold remaining. now rewrite Hempty. }
        rewrite Hget.
        destruct (String.eqb_spec key (User.roomId user)) as [E|E]; [|assumption].
        exfalso. destruct Hcase as [[H _]|[H _]]; congruence.
Qed.

Lemma join_leaves_previous_room_witness :
  let r := handleJoinRoom env_open "A" "wsA" (PObject payload_alice_beta) (draws "r4")
             state_abc in
  out r = Ok tt /\
  In ("wsB", user_left (mkUserInfo "A" (JString "Alice") product_manager)
               [mkUserInfo "B" (JString "Bob") developer]
               (mkSystemMessage "m-left" "系统" "Alice 离开了房间" 10))
     (log r).
Proof.
  assert (Hfresh : fresh_run init trace_abc = true) by (vm_compute; reflexivity).
  assert (Hd : JSMap.has (rooms (run init trace_abc)) (uuid_room (draws "r4")) = false)
    by (vm_compute; reflexivity).
  destruct (join_leaves_previous_room trace_abc env_open "A" "wsA" payload_alice_beta
              (draws "r4") (JString "beta") (JString "Alice") product_manager
              Hfresh eq_refl Hd) as [_ [Hends Hleft]].
  assert (Hu : JSMap.get (users (run init trace_abc)) "A" = Some alice)
    by (vm_compute; reflexivity).
  assert (Hr : JSMap.get (rooms (run init trace_abc)) (User.roomId alice) = Some room_alpha)
    by (vm_compute; reflexivity).
  assert (Hname : forall user, JSMap.get (users (run init trace_abc)) "A" = Some user ->
                               converts (User.name user) = true).
  { intros user H. rewrite Hu in H. inversion H; subst user. reflexivity. }
  destruct (Hends Hname eq_refl eq_refl) as [Hout Hhas].
  split; [exact Hout|].
  destruct (Hleft Hhas) as [_ Hleft'].
  destruct (Hleft' alice room_alpha Hu Hr) as [_ [_ [Hsent _]]].
  assert (Hin : In ("B", bob) (JSMap.delete (Room.users room_alpha) "A"))
    by (vm_compute; left; reflexivity).
  exact (proj1 (Hsent "B" bob Hin eq_refl)).
Defined.

(** ** Names that are not strings *)

(** C2, evaluated where it fails.  A [join_room] whose [roomName] is the
    object [{"toString": 1}] passes the tests of [handleJoinRoom]; the room is
    stored, then the template of the log line throws: the directory keeps a
    room with no member, no user is stored, and the only answer is the error
    reported later.  A member whose name is such an object leaves its room
    empty in the directory as well: its [leave_room] throws between the
    deletion of its records and the deletion of the room. *)
Theorem room_without_members :
  let r := handle env_open
             (Incoming "A" "wsA" (join_message payload_room_no_text) (draws "r1")) init in
  let r' := handle env_open (Incoming "A" "wsA" leave_frame (draws "r2"))
              (run init trace_no_text) in
  valid_join payload_room_no_text = Some (no_text, JString "Alice", developer) /\
  out r = Ok (Some TypeError_primitive) /\ log r = [] /\
  st r = mkState [("r1", Room.mk "r1" no_text [] 20)] [] /\
  (exists room, In room (JSMap.values (rooms (st r))) /\
                JSMap.size (Room.users room) = 0) /\
  out r' = Ok None /\ log r' = [("wsA", error TypeError_primitive)] /\
  st r' = mkState [("r1", Room.mk "r1" (JString "alpha") [] 20)] [] /\
  (exists room, In room (JSMap.values (rooms (st r'))) /\
                JSMap.size (Room.users room) = 0).
Proof.
  vm_compute. repeat (split; [reflexivity|]).
  split; [eexists; split; [left; reflexivity|reflexivity]|].
  repeat (split; [reflexivity|]).
  eexists; split; [left; reflexivity|reflexivity].
Qed.

(** C7, evaluated where it fails.  Two sessions join with the room name
    [["alpha"]].  An array is equal to no room name under [===], so the
    lookup by name finds no room at the second join either, and the directory
    holds two rooms of the same name under two identifiers, with one of the
    two sessions in each. *)
Theorem same_name_two_rooms :
  let s := run init trace_arrays in
  exists room1 room2,
    JSMap.get (rooms s) "r1" = Some room1 /\ JSMap.get (rooms s) "r2" = Some room2 /\
    Room.name room1 = alpha_array /\ Room.name room2 = alpha_array /\
    Room.id room1 <> Room.id room2 /\
    JSMap.keys (Room.users room1) = ["A"] /\ JSMap.keys (Room.users room2) = ["B"] /\
    find_room s alpha_array = None /\
    fresh_run init trace_arrays = true.
Proof.
  eexists. eexists. vm_compute.
  repeat (split; [reflexivity|]). split; [discriminate|]. repeat split.
Qed.

(** C4, evaluated where it fails.  A is in the room "alpha"; B sends a
    [join_room] for "alpha" with the user name [{"toString": 1}].  The join
    takes effect: B is stored as the second member and is sent [room_joined]
    with the count 2.  The text of the [user_joined] message then throws:
    A is sent no [user_joined], B no [user_list], and the error is reported to
    B later. *)
Theorem join_without_notifications :
  let s := run init (firstn 2 trace_abc) in
  let r := handle env_open
             (Incoming "B" "wsB" (join_message payload_name_no_text) (draws "r2")) s in
  valid_join payload_name_no_text = Some (JString "alpha", no_text, developer) /\
  out r = Ok (Some TypeError_primitive) /\
  log r = [("wsB", room_joined "r1" (JString "alpha") 2)] /\
  (exists room, JSMap.get (rooms (st r)) "r1" = Some room /\
                JSMap.keys (Room.users room) = ["A"; "B"]) /\
  JSMap.keys (users (st r)) = ["A"; "B"] /\
  log (report env_open "wsB" (Some TypeError_primitive) (st r))
  = [("wsB", error TypeError_primitive)].
Proof.
  vm_compute. repeat (split; [reflexivity|]). split; [|split; reflexivity].
  eexists. split; reflexivity.
Qed.

(** C5, evaluated where it fails.  The handler of a [join_room] with the user
    name [{"toString": 1}] throws, and the error is reported to the session;
    but the state has changed before the throw (a room and a user record were
    stored) and [room_joined] was sent.  A [leave_room] of that session then
    throws as well, after the deletion of its records.  And a [chat_message]
    of a session stored under such a name, with another member in its room,
    throws after its broadcast: the other member is sent the message and the
    sender the error. *)
Theorem command_failure_after_changes :
  let r := handle env_open
             (Incoming "A" "wsA" (join_message payload_name_no_text) (draws "r1")) init in
  let r' := handle env_open (Incoming "A" "wsA" leave_frame (draws "r2")) (st r) in
  let s2 := st (handle env_open
                  (Incoming "B" "wsB" (join_message payload_name_no_text) (draws "r2"))
                  (run init (firstn 2 trace_abc))) in
  let r2 := handle env_open (Incoming "B" "wsB" (chat_frame (Some "hi")) (draws "r3")) s2 in
  out (handleJoinRoom env_open "A" "wsA" (PObject payload_name_no_text) (draws "r1") init)
  = Throw TypeError_primitive /\
  out r = Ok (Some TypeError_primitive) /\
  log r = [("wsA", room_joined "r1" (JString "alpha") 1)] /\
  JSMap.keys (rooms (st r)) = ["r1"] /\ JSMap.keys (users (st r)) = ["A"] /\
  st r <> init /\
  out (handleLeaveRoom env_open "A" (draws "r2") (st r)) = Throw TypeError_primitive /\
  log r' = [("wsA", error TypeError_primitive)] /\
  users (st r') = [] /\ st r' <> st r /\
  out r2 = Ok (Some TypeError_primitive) /\ map fst (log r2) = ["wsA"] /\
  log (report env_open "wsB" (Some TypeError_primitive) (st r2))
  = [("wsB", error TypeError_primitive)].
Proof.
  vm_compute. repeat (split; [reflexivity|]).
  split; [discriminate|]. repeat (split; [reflexivity|]).
  split; [discriminate|]. repeat split.
Qed.

(** ** Connection and disconnection *)





(** ** The scenario of the specification *)

Example scenario_alice_joins :
  log (handle env_open
         (Incoming "A" "wsA" (join_frame "alpha" "Alice" "product_manager") (draws "r1"))
         init)
  = [("wsA", room_joined "r1" (JString "alpha") 1);
     ("wsA", user_list [mkUserInfo "A" (JString "Alice") product_manager])].
Proof. vm_compute. reflexivity. Qed.

Example scenario_bob_joins :
  log (handle env_open
         (Incoming "B" "wsB" (join_frame "alpha" "Bob" "developer") (draws "r2"))
         (run init (firstn 3 trace_abc)))
  = [("wsB", room_joined "r1" (JString "alpha") 2);
     ("wsA", user_joined (mkUserInfo "B" (JString "Bob") developer)
               [mkUserInfo "A" (JString "Alice") product_manager;
                mkUserInfo "B" (JString "Bob") developer]
               (mkSystemMessage "m-joined" "系统" "Bob 加入了房间" 40));
     ("wsB", user_list [mkUserInfo "A" (JString "Alice") product_manager;
                        mkUserInfo "B" (JString "Bob") developer])].
Proof. vm_compute. reflexivity. Qed.

Example scenario_bob_chats :
  handle env_open (Incoming "B" "wsB" (chat_frame (Some "hi")) (draws "r5")) state_ab
  = mkRes (Ok None) state_ab
      [("wsA", chat_message
                 (mkChatMessage "m-chat" "B" (JString "Bob") developer
                    (Some (JString "hi")) 50))].
Proof. vm_compute. reflexivity. Qed.

Example scenario_alice_disconnects :
  let r := handle env_open (Closed "A" (draws "r5")) state_ab in
  log r = [("wsB", user_left (mkUserInfo "A" (JString "Alice") product_manager)
                     [mkUserInfo "B" (JString "Bob") developer]
                     (mkSystemMessage "m-left" "系统" "Alice 离开了房间" 10))] /\
  JSMap.keys (rooms (st r)) = ["r1"] /\
  rooms (st (handle env_open (Incoming "B" "wsB" leave_frame (draws "r6")) (st r))) = [].
Proof. vm_compute. repeat split. Qed.

Example scenario_chat_without_room :
  let r := handle env_open (Incoming "D" "wsD" (chat_frame None) (draws "r5")) state_ab in
  r = mkRes (Ok (Some "用户未加入任何房间")) state_ab [] /\
  report env_open "wsD" (Some "用户未加入任何房间") state_ab
  = mkRes (Ok tt) state_ab [("wsD", error "用户未加入任何房间")].
Proof. vm_compute. split; reflexivity. Qed.

Example scenario_faulty_sockets :
  let r := handle env_faulty (Incoming "B" "wsB" (chat_frame (Some "hi")) (draws "r5"))
             state_ab in
  out r = Ok None /\ st r = state_ab /\ map fst (log r) = ["wsA"] /\
  delivered env_faulty (log r) = [].
Proof. vm_compute. repeat split. Qed.

(** * Further properties of the relay *)

(** ** Every listener, case by case *)

Lemma send_log_open env ws message : all_open env (send_log env ws message).
Proof.
  unfold all_open, send_log.
  destruct (readyState env ws) eqn:E; simpl; constructor; auto.
Qed.

Lemma broadcast_log_open env us message exclude :
  all_open env (broadcast_log env us message exclude).
Proof.
  unfold all_open, broadcast_log, recipients. apply Forall_forall.
  intros [w m] Hin. apply in_map_iff in Hin. destruct Hin as [e [Heq Hin]].
  apply filter_In in Hin. destruct Hin as [_ Hc].
  apply andb_true_iff in Hc. destruct Hc as [_ Hopen].
  inversion Heq; subst. simpl.
  destruct (readyState env (User.socket (snd e))); simpl in Hopen; congruence.
Qed.

Lemma room_broadcast_open env s roomId message exclude :
  all_open env (room_broadcast env s roomId message exclude).
Proof.
  unfold room_broadcast. destruct (JSMap.get (rooms s) roomId).
  - apply broadcast_log_open.
  - constructor.
Qed.

Lemma user_list_log_open env s userId : all_open env (user_list_log env s userId).
Proof.
  unfold user_list_log. destruct (JSMap.get (users s) userId) as [user|]; [|constructor].
  destruct (JSMap.get (rooms s) (User.roomId user)); [|constructor].
  apply send_log_open.
Qed.

Lemma leave_log_open env s userId d : all_open env (leave_log env s userId d).
Proof.
  unfold leave_log. destruct (JSMap.get (users s) userId) as [user|]; [|constructor].
  destruct (JSMap.get (rooms s) (User.roomId user)); [|constructor].
  apply room_broadcast_open.
Qed.

Lemma all_open_app env l1 l2 :
  all_open env l1 -> all_open env l2 -> all_open env (l1 ++ l2).
Proof. intros H1 H2. apply Forall_app. split; assumption. Qed.

Lemma enter_log_open env s userId ws rn un role d :
  all_open env (enter_log env s userId ws rn un role d).
Proof.
  unfold enter_log. destruct (resolve_room s rn d) as [[key room] rooms1].
  apply all_open_app; [apply send_log_open|].
  apply all_open_app; [apply room_broadcast_open|apply user_list_log_open].
Qed.

Lemma joined_reply_open env s userId ws rn un role d :
  all_open env (joined_reply env s userId ws rn un role d).
Proof.
  unfold joined_reply. destruct (resolve_room s rn d) as [[key room] rooms1].
  apply send_log_open.
Qed.

Lemma leave_result_open env s userId d :
  all_open env (log (leave_result env s userId d)).
Proof.
  destruct (leave_result_cases env userId d s)
    as [[_ [_ Hl]]|[e [_ [[_ Hl]|[user [room [_ [_ [_ [_ Hl]]]]]]]]]]; rewrite Hl;
    try apply leave_log_open.
  constructor.
Qed.

Lemma join_result_open env s userId ws rn un role d :
  all_open env (log (join_result env s userId ws rn un role d)).
Proof.
  destruct (join_result_cases env userId ws rn un role d s)
    as [[e [_ H]]|[_ [[e [_ [_ H]]]|[_ [[e [_ H]]|[_ H]]]]]]; rewrite H; cbn [log].
  - apply leave_result_open.
  - apply leave_log_open.
  - apply all_open_app; [apply leave_log_open|apply joined_reply_open].
  - apply all_open_app; [apply leave_log_open|apply enter_log_open].
Qed.

Lemma dispatch_open env userId ws message d s :
  all_open env (log (dispatch env userId ws message d s)).
Proof.
  unfold dispatch.
  destruct message as [|[[| | |ty| |]|] payload];
    try (rewrite sendError_eq; apply send_log_open).
  { constructor. }
  destruct (String.eqb ty "join_room").
  { destruct payload as [| |p]; try constructor.
    destruct (valid_join p) as [[[rn un] role]|] eqn:Hv.
    - rewrite (handleJoinRoom_valid env userId ws p d s rn un role Hv).
      apply join_result_open.
    - destruct (handleJoinRoom_invalid env userId ws p d s Hv) as [e [_ H]].
      rewrite H. apply send_log_open. }
  destruct (String.eqb ty "chat_message").
  { rewrite handleChatMessage_eq.
    destruct (JSMap.get (users s) userId) as [user|]; [|constructor].
    destruct (JSMap.get (rooms s) (User.roomId user)) as [room|]; [|constructor].
    destruct payload; try constructor. apply room_broadcast_open. }
  destruct (String.eqb ty "leave_room").
  { rewrite handleLeaveRoom_eq. apply leave_result_open. }
  destruct (String.eqb ty "list_users").
  { rewrite handleListUsers_eq. apply user_list_log_open. }
  rewrite sendError_eq. apply send_log_open.
Qed.

Lemma onMessage_out env userId ws frame d s :
  exists pending, out (onMessage env userId ws frame d s) = Ok pending.
Proof.
  unfold onMessage. destruct frame as [|message].
  - rewrite (bind_eq _ _ _ _ _ _ (sendError_eq _ _ _ _)). eexists. reflexivity.
  - rewrite handleMessage_eq. cbv zeta.
    destruct (out (dispatch env userId ws message d s)); [eexists; reflexivity|].
    destruct (awaited message); eexists; reflexivity.
Qed.

Lemma handle_open env ev s : all_open env (log (handle env ev s)).
Proof.
  destruct ev as [userId ws|userId ws frame d|userId d]; cbn [handle].
  - unfold onConnection. rewrite (bind_eq _ _ _ _ _ _ (sendToUser_eq _ _ _ _)).
    cbn [log ret]. rewrite app_nil_r. apply send_log_open.
  - unfold onMessage. destruct frame as [|message].
    + rewrite (bind_eq _ _ _ _ _ _ (sendError_eq _ _ _ _)).
      cbn [log ret]. rewrite app_nil_r. apply send_log_open.
    + rewrite handleMessage_eq. cbv zeta.
      pose proof (dispatch_open env userId ws message d s) as Ho.
      destruct (out (dispatch env userId ws message d s)); [exact Ho|].
      destruct (awaited message); [exact Ho|].
      cbn [log]. apply all_open_app; [exact Ho|apply send_log_open].
  - unfold onClose, handleDisconnect.
    pose proof (leave_result_open env s userId d) as Ho.
    rewrite <- handleLeaveRoom_eq in Ho.
    destruct (handleLeaveRoom env userId d s) as [[[]|e] s' l] eqn:E.
    + rewrite (bind_eq _ _ _ _ _ _ E). cbn [log ret] in *. now rewrite app_nil_r.
    + rewrite (bind_throw _ _ _ _ _ _ E). exact Ho.
Qed.

(** X1. The message listener lets no error escape: whatever the frame (not
    parsable, [null], of an unknown type, with no payload, from a session in
    no room, with names that have no text), the state and the sockets, also
    when a [send] throws, the handler of a frame returns normally; and the
    report of the error of a rejected handler, made later and whatever the
    state and the sockets are by then, returns normally too. *)
Theorem message_listener_never_throws env userId ws frame d s :
  exists pending,
    out (onMessage env userId ws frame d s) = Ok pending /\
    forall env' s', out (report env' ws pending s') = Ok tt.
Proof.
  destruct (onMessage_out env userId ws frame d s) as [pending H].
  exists pending. split; [exact H|].
  intros env' s'. rewrite report_eq. reflexivity.
Qed.

(** X2. The server calls [send] only on sockets whose [readyState] is OPEN,
    in every listener and in every state, and also in the later report of
    the error of a rejected handler, with the [readyState] of that time. *)
Theorem sends_only_on_open_sockets env ev s :
  Forall (fun x => readyState env (fst x) = OPEN) (log (handle env ev s)) /\
  forall env' ws pending s',
    Forall (fun x => readyState env' (fst x) = OPEN) (log (report env' ws pending s')).
Proof.
  split; [exact (handle_open env ev s)|].
  intros env' ws pending s'. rewrite report_eq. cbn [log].
  destruct pending; [apply send_log_open|constructor].
Qed.

(** ** Isolation of sessions, identity of rooms *)

(** X3. Isolation of sessions.  In a state reached by any run, an event of
    one session, with a fresh room id, changes neither the user record of
    another session nor the record of another session in any room: a frame or
    a disconnection of a session can move that session only, also when its
    handler throws half-way. *)
Theorem other_sessions_untouched tr env ev v :
  fresh_draw (run init tr) ev = true -> v <> event_user ev ->
  let s := run init tr in
  let s' := st (handle env ev s) in
  JSMap.get (users s') v = JSMap.get (users s) v /\
  forall k, member_record s' k v = member_record s k v.
Proof.
  intros Hfresh Hv s s'. subst s'.
  destruct (Inv_run tr init Inv_init) as [Hdir _]. fold s in Hdir, Hfresh.
  exact (reached_other s _ ev _ v Hdir Hfresh (st_handle env ev s) Hv).
Qed.

Lemma other_sessions_untouched_witness :
  let s := run init trace_abc in
  let s' := st (handle env_open (Closed "A" (draws "r4")) s) in
  JSMap.get (users s') "B" = JSMap.get (users s) "B" /\
  forall k, member_record s' k "B" = member_record s k "B".
Proof.
  apply (other_sessions_untouched trace_abc env_open (Closed "A" (draws "r4")) "B").
  - reflexivity.
  - discriminate.
Defined.

(** X4. A room keeps its identity.  In a state reached by any run, an event
    with a fresh room id leaves the id, the name and the creation time of
    every room that is in the directory before and after it as they were:
    joins and leaves only change the membership map of a room, or remove the
    room. *)
Theorem room_identity_stable tr env ev k room room' :
  fresh_draw (run init tr) ev = true ->
  JSMap.get (rooms (run init tr)) k = Some room ->
  JSMap.get (rooms (st (handle env ev (run init tr)))) k = Some room' ->
  Room.id room' = Room.id room /\ Room.name room' = Room.name room /\
  Room.createdAt room' = Room.createdAt room.
Proof.
  intros Hfresh H0 H1. set (s := run init tr) in *.
  destruct (Inv_run tr init Inv_init) as [Hdir _]. fold s in Hdir.
  exact (reached_room_identity s _ ev _ k room room' Hdir Hfresh
           (st_handle env ev s) H0 H1).
Qed.

Lemma room_identity_stable_witness :
  Room.id (Room.with_users room_alpha [("B", bob)]) = Room.id room_alpha /\
  Room.name (Room.with_users room_alpha [("B", bob)]) = Room.name room_alpha /\
  Room.createdAt (Room.with_users room_alpha [("B", bob)]) = Room.createdAt room_alpha.
Proof.
  apply (room_identity_stable trace_abc env_open (Closed "A" (draws "r4")) "r1").
  - reflexivity.
  - vm_compute. reflexivity.
  - vm_compute. reflexivity.
Defined.

(** ** The names of the stored records *)

(** X5. After any run, every user record is stored under its own session id
    and has a truthy name, and every room of the directory has a truthy name:
    the test at the head of [handleJoinRoom] keeps falsy names, the empty
    string among them, out of the state.  Truthy is all it keeps: the name
    [[]] passes it, is stored, and its text is empty. *)
Theorem stored_names_truthy tr :
  let s := run init tr in
  (forall k user, JSMap.get (users s) k = Some user ->
     User.id user = k /\ ToBoolean (User.name user) = true /\
     User.name user <> JString "") /\
  (forall k room, JSMap.get (rooms s) k = Some room ->
     ToBoolean (Room.name room) = true /\ Room.name room <> JString "") /\
  (let s' := st (handle env_open
                   (Incoming "A" "wsA"
                      (join_message (join_payload (JArray []) (JArray []) "developer"))
                      (draws "r1")) init) in
   exists user room,
     JSMap.get (users s') "A" = Some user /\ ToString (User.name user) = Ok "" /\
     JSMap.get (rooms s') "r1" = Some room /\ ToString (Room.name room) = Ok "").
Proof.
  intros s.
  destruct (records_ok_run tr init Inv_init records_ok_init) as [Hu Hr]. fold s in Hu, Hr.
  split; [|split].
  - intros k user H. destruct (Hu k user H) as [Hid Ht].
    split; [exact Hid|]. split; [exact Ht|].
    intros E. rewrite E in Ht. discriminate.
  - intros k room H. pose proof (Hr k room H) as Ht.
    split; [exact Ht|]. intros E. rewrite E in Ht. discriminate.
  - vm_compute. eexists. eexists. repeat split.
Qed.

Lemma stored_names_truthy_witness :
  User.id alice = "A" /\ ToBoolean (User.name alice) = true /\
  User.name alice <> JString "".
Proof.
  apply (proj1 (stored_names_truthy trace_abc) "A" alice). vm_compute. reflexivity.
Defined.

(** ** Statistics *)

Lemma list_sum_ge_length (l : list nat) :
  (forall n, In n l -> 1 <= n) -> length l <= list_sum l.
Proof.
  induction l as [|n l IH]; simpl; intros H; [lia|].
  pose proof (H n (or_introl eq_refl)).
  assert (length l <= list_sum l) by (apply IH; intros m Hm; apply H; now right).
  lia.
Qed.

Lemma ids_are_keys (m : JSMap.t Room.t) :
  (forall k room, In (k, room) m -> Room.id room = k) ->
  map Room.id (JSMap.values m) = JSMap.keys m.
Proof.
  induction m as [|[k room] m IH]; simpl; intros H; [reflexivity|].
  rewrite (H k room) by now left. f_equal. apply IH.
  intros k' r' Hin. apply H. now right.
Qed.

Lemma names_apart (m : JSMap.t Room.t) :
  NoDup (JSMap.keys m) ->
  (forall k1 room1 k2 room2, In (k1, room1) m -> In (k2, room2) m ->
     strict_eq (Room.name room1) (Room.name room2) = true -> k1 = k2) ->
  ForallOrdPairs (fun a b => strict_eq a b = false) (map Room.name (JSMap.values m)).
Proof.
  induction m as [|[k room] m IH]; simpl; intros Hnd Huniq; [constructor|].
  inversion Hnd as [|? ? Hnotin Hnd']; subst. constructor.
  - apply Forall_forall. intros n Hin. apply in_map_iff in Hin.
    destruct Hin as [room' [Hn Hin]]. unfold JSMap.values in Hin.
    apply in_map_iff in Hin. destruct Hin as [[k' r'] [Heq Hin]].
    simpl in Heq. subst r' n.
    destruct (strict_eq (Room.name room) (Room.name room')) eqn:E; [|reflexivity].
    exfalso. assert (k = k') by (apply (Huniq k room k' room'); [now left|now right|exact E]).
    subst k'. apply Hnotin. change k with (fst (k, room')). now apply in_map.
  - apply IH; [assumption|]. intros k1 r1 k2 r2 H1 H2. apply Huniq; now right.
Qed.

Lemma rooms_nonempty_leave s userId :
  directory_ok s -> rooms_nonempty s -> rooms_nonempty (leave_state s userId).
Proof.
  intros Hdir Hne k room H.
  destruct (leave_state_rooms s userId k Hdir) as [E|[user [room0 [_ [_ [_ E]]]]]];
    rewrite E in H.
  - eapply Hne; eauto.
  - destruct (Nat.eqb (JSMap.size (Room.users (left_room room0 userId))) 0) eqn:Es;
      [discriminate|].
    inversion H; subst. now apply Nat.eqb_neq.
Qed.

Lemma users_named_leave s userId :
  users_named s -> users_named (leave_state s userId).
Proof.
  intros Hn k user H. apply (Hn k).
  destruct (String.eqb_spec k userId) as [->|Hk].
  - unfold leave_state in H.
    destruct (JSMap.get (users s) userId) as [u0|] eqn:E0; [|congruence].
    destruct (JSMap.get (rooms s) (User.roomId u0)) as [room|]; [|congruence].
    destruct (Nat.eqb (JSMap.size (Room.users (left_room room userId))) 0);
      simpl in H; rewrite JSMapFacts.get_delete_same in H; discriminate.
  - now rewrite leave_state_users_other in H.
Qed.

Lemma texts_ok_join u ws p d rn un role :
  texts_ok_event (Incoming u ws (Parsed (Msg (Some (JString "join_room")) (PObject p))) d)
  = true ->
  valid_join p = Some (rn, un, role) -> converts rn = true /\ converts un = true.
Proof.
  simpl. intros H Hv. rewrite Hv in H. now apply andb_true_iff in H.
Qed.

(** In a run whose accepted names have a text no handler throws half-way:
    no room stays without members and no stored name is without text. *)
Lemma texts_reached s u ev s' :
  Inv s -> rooms_nonempty s -> users_named s -> texts_ok_event ev = true ->
  reached s u ev s' -> rooms_nonempty s' /\ users_named s'.
Proof.
  intros [Hdir _] Hne Hn Ht Hreach.
  destruct Hreach as [| |user room Hu Hr Hc|ws p d rn un role Hev Hvalid Hfind Hc
                      |ws p d rn un role Hev Hvalid Hc].
  - split; assumption.
  - split; [now apply rooms_nonempty_leave|now apply users_named_leave].
  - rewrite (Hn _ _ Hu) in Hc. discriminate.
  - subst ev. destruct (texts_ok_join _ _ _ _ _ _ _ Ht Hvalid). congruence.
  - subst ev. destruct (texts_ok_join _ _ _ _ _ _ _ Ht Hvalid) as [_ Hun].
    destruct (enter_state_rooms (leave_state s u) u ws rn un role d
                (directory_ok_leave s u Hdir))
      as [key [room [Hid [Hname [Hcase [Husers Hget]]]]]].
    split.
    + intros k room'. rewrite Hget. destruct (String.eqb key k).
      * intros H; inversion H; subst. simpl.
        eapply get_size_pos. apply JSMapFacts.get_set_same.
      * apply (rooms_nonempty_leave s u Hdir Hne).
    + intros k user. rewrite Husers, JSMapFacts.get_set.
      destruct (String.eqb u k).
      * intros H; inversion H; subst. exact Hun.
      * apply (users_named_leave s u Hn).
Qed.

Lemma texts_run tr :
  forall s, Inv s -> rooms_nonempty s -> users_named s -> texts_ok tr = true ->
            rooms_nonempty (run s tr) /\ users_named (run s tr).
Proof.
  induction tr as [|x tr IH]; intros s HI Hne Hn Ht; simpl; [split; assumption|].
  simpl in Ht. apply andb_true_iff in Ht. destruct Ht as [Hx Ht].
  destruct (texts_reached s _ _ _ HI Hne Hn Hx (st_handle (fst x) (snd x) s)).
  apply IH; try assumption. now apply Inv_step.
Qed.

(** X6. [getStats] after a run.  [totalRooms] is the number of listed rooms,
    the listed rooms have pairwise distinct ids, and no two of their names
    are equal for [===].  In a run in which the room name and the user name
    of every accepted [join_room] have a text, as all strings have, no room
    of the directory is without members and every listed [userCount] is at
    least 1; when the room ids are fresh too, there are at least as many
    users as rooms. *)
Theorem getStats_counts tr :
  let stats := getStats (run init tr) in
  totalRooms stats = length (roomsInfo stats) /\
  NoDup (map stats_id (roomsInfo stats)) /\
  ForallOrdPairs (fun a b => strict_eq a b = false) (map stats_name (roomsInfo stats)) /\
  (texts_ok tr = true ->
   (forall k room, JSMap.get (rooms (run init tr)) k = Some room ->
      JSMap.size (Room.users room) <> 0) /\
   (forall r, In r (roomsInfo stats) -> 1 <= userCount r) /\
   (fresh_run init tr = true -> totalRooms stats <= totalUsers stats)).
Proof.
  intros stats. subst stats. set (s := run init tr).
  destruct (Inv_run tr init Inv_init) as [Hdir [Hnames _]]. fold s in Hdir, Hnames.
  assert (Hlen : totalRooms (getStats s) = length (roomsInfo (getStats s))).
  { unfold getStats, JSMap.size, JSMap.values. simpl. now rewrite !length_map. }
  split; [exact Hlen|]. split.
  { unfold getStats. simpl. rewrite map_map. simpl.
    change (NoDup (map Room.id (JSMap.values (rooms s)))).
    rewrite (ids_are_keys (rooms s) (proj2 Hdir)). apply Hdir. }
  split.
  { unfold getStats. simpl. rewrite map_map. simpl.
    change (ForallOrdPairs (fun a b => strict_eq a b = false)
              (map Room.name (JSMap.values (rooms s)))).
    apply names_apart; [apply Hdir|].
    intros k1 r1 k2 r2 H1 H2 Hn.
    apply (JSMapFacts.In_get _ _ _ (proj1 Hdir)) in H1, H2. eapply Hnames; eauto. }
  intros Ht.
  assert (Hne : rooms_nonempty s).
  { apply (texts_run tr init Inv_init); try assumption; intros k x H; discriminate. }
  assert (Hcount : forall r, In r (roomsInfo (getStats s)) -> 1 <= userCount r).
  { intros r Hin. unfold getStats in Hin. simpl in Hin. apply in_map_iff in Hin.
    destruct Hin as [room [Hr Hin]]. subst r. simpl.
    destruct (In_values_get s room Hdir Hin) as [k Hk].
    pose proof (Hne k room Hk). lia. }
  split; [exact Hne|]. split; [exact Hcount|].
  intros Hfresh.
  destruct (Inv_fresh_run tr init Inv_fresh_init Hfresh) as [_ Hc]. fold s in Hc.
  rewrite Hlen.
  assert (Hsum : totalUsers (getStats s) = list_sum (map userCount (roomsInfo (getStats s)))).
  { rewrite getStats_sum. apply (users_count s Hc). }
  rewrite Hsum. rewrite <- (length_map userCount).
  apply list_sum_ge_length. intros n Hn. apply in_map_iff in Hn.
  destruct Hn as [r [<- Hr]]. now apply Hcount.
Qed.

Lemma getStats_counts_witness :
  (forall k room, JSMap.get (rooms (run init trace_abc)) k = Some room ->
     JSMap.size (Room.users room) <> 0) /\
  totalRooms (getStats (run init trace_abc)) <= totalUsers (getStats (run init trace_abc)).
Proof.
  assert (Ht : texts_ok trace_abc = true) by (vm_compute; reflexivity).
  assert (Hf : fresh_run init trace_abc = true) by (vm_compute; reflexivity).
  split.
  - exact (proj1 (proj2 (proj2 (proj2 (getStats_counts trace_abc))) Ht)).
  - exact (proj2 (proj2 (proj2 (proj2 (proj2 (getStats_counts trace_abc))) Ht)) Hf).
Defined.

(** ** Chat messages *)

Lemma chat_of_member env s userId ws p d user :
  Inv_fresh s -> records_ok s ->
  JSMap.get (users s) userId = Some user ->
  exists room,
    JSMap.get (rooms s) (User.roomId user) = Some room /\
    JSMap.get (Room.users room) userId = Some user /\
    onMessage env userId ws
      (Parsed (Msg (Some (JString "chat_message")) (PObject p))) d s
    = mkRes (Ok (match ToString (User.name user) with
                 | Ok _ => None
                 | Throw e => Some e
                 end)) s
        (broadcast_log env (Room.users room)
           (chat_message
              (mkChatMessage (uuid_chat d) userId (User.name user) (User.role user)
                 (content p) (now_chat d)))
           (Some userId)).
Proof.
  intros HIf [Hrec _] Hu. pose proof HIf as [[Hdir _] Hc].
  destruct (user_in_room s Hc _ _ Hu) as [room [Hr Hm]].
  exists room. split; [assumption|]. split; [assumption|].
  destruct (room_of_user_named s userId user room HIf Hu Hr) as [Hcv _].
  apply converts_Ok in Hcv. destruct Hcv as [t Ht].
  rewrite onMessage_chat, handleChatMessage_eq, Hu, Hr. cbv zeta. cbn [out st log].
  unfold room_broadcast.
  rewrite (directory_ok_get s _ _ Hdir Hr), Hr.
  destruct (Hrec _ _ Hu) as [Hid _]. rewrite Hid.
  cbn [template]. rewrite Ht.
  destruct (ToString (User.name user)); reflexivity.
Qed.

(** X7. A chat message of a joined session.  In a state reached by a run
    whose room ids are fresh, a [chat_message] with a payload from a session
    that has a user record changes nothing in the state and calls [send]
    exactly on the open members of the sender's own room other than the
    sender, in the order of the membership map.  The message carries the
    sender's session id and the name and role stored at its join, and the
    [content] of the payload as it came, present or not, empty or not.  The
    listener returns normally; when the stored name of the sender has no
    text, the handler is rejected after its broadcast and the error is left
    to be reported. *)
Theorem chat_reaches_the_room tr env userId ws p d user :
  fresh_run init tr = true ->
  JSMap.get (users (run init tr)) userId = Some user ->
  let s := run init tr in
  exists room,
    JSMap.get (rooms s) (User.roomId user) = Some room /\
    JSMap.get (Room.users room) userId = Some user /\
    onMessage env userId ws
      (Parsed (Msg (Some (JString "chat_message")) (PObject p))) d s
    = mkRes (Ok (match ToString (User.name user) with
                 | Ok _ => None
                 | Throw e => Some e
                 end)) s
        (broadcast_log env (Room.users room)
           (chat_message
              (mkChatMessage (uuid_chat d) userId (User.name user) (User.role user)
                 (content p) (now_chat d)))
           (Some userId)).
Proof.
  intros Hfresh Hu s.
  apply chat_of_member; try assumption.
  - exact (Inv_fresh_run tr init Inv_fresh_init Hfresh).
  - apply (records_ok_run tr init Inv_init records_ok_init).
Qed.

Lemma chat_reaches_the_room_witness :
  let s := run init trace_abc in
  exists room,
    JSMap.get (rooms s) (User.roomId bob) = Some room /\
    JSMap.get (Room.users room) "B" = Some bob /\
    onMessage env_open "B" "wsB"
      (Parsed (Msg (Some (JString "chat_message"))
                 (PObject (mkPayload None None None None))))
      (draws "r4") s
    = mkRes (Ok None) s
        (broadcast_log env_open (Room.users room)
           (chat_message
              (mkChatMessage (uuid_chat (draws "r4")) "B" (User.name bob) (User.role bob)
                 None (now_chat (draws "r4"))))
           (Some "B")).
Proof.
  apply (chat_reaches_the_room trace_abc env_open "B" "wsB"
           (mkPayload None None None None) (draws "r4") bob);
    vm_compute; reflexivity.
Defined.


Lemma awaited_unrecognized ty payload :
  ty <> Some (JString "join_room") -> ty <> Some (JString "chat_message") ->
  awaited (Msg ty payload) = false.
Proof.
  intros H1 H2. unfold awaited. destruct ty as [[| | |ty| |]|]; try reflexivity.
  destruct (String.eqb_spec ty "join_room"); [congruence|].
  destruct (String.eqb_spec ty "chat_message"); [congruence|reflexivity].
Qed.




(** ** Listing the members *)

Lemma ids_of_members (us : JSMap.t User.t) :
  (forall k user, In (k, user) us -> User.id user = k) ->
  map info_id (map userInfo (JSMap.values us)) = JSMap.keys us.
Proof.
  induction us as [|[k user] us IH]; simpl; intros H; [reflexivity|].
  rewrite (H k user) by now left. f_equal. apply IH.
  intros k' u' Hin. apply H. now right.
Qed.

Lemma member_ids s k room :
  consistent s -> records_ok s -> JSMap.get (rooms s) k = Some room ->
  forall v user, In (v, user) (Room.users room) -> User.id user = v.
Proof.
  intros Hc [Hrec _] Hr v user Hin.
  apply (JSMapFacts.In_get _ _ _ (members_keys s Hc _ _ Hr)) in Hin.
  destruct (member_is_user s Hc _ _ _ _ Hr Hin) as [Hu _].
  apply (Hrec _ _ Hu).
Qed.

(** X9. [getRoomUsers].  For an id that is not in the directory the list is
    empty.  For a room of a state reached by a run whose room ids are fresh,
    the list has one entry per member, in the order of the membership map;
    the ids of the entries are the keys of that map, so they are pairwise
    distinct; and each entry is the id, name and role of a user record of
    [users] whose [roomId] is this room. *)
Theorem getRoomUsers_lists_members tr k :
  fresh_run init tr = true ->
  let s := run init tr in
  match JSMap.get (rooms s) k with
  | None => getRoomUsers k s = mkRes (Ok []) s []
  | Some room =>
      let infos := map (fun u => mkUserInfo (User.id u) (User.name u) (User.role u))
                       (JSMap.values (Room.users room)) in
      getRoomUsers k s = mkRes (Ok infos) s [] /\
      length infos = JSMap.size (Room.users room) /\
      map info_id infos = JSMap.keys (Room.users room) /\
      NoDup (map info_id infos) /\
      forall i, In i infos ->
        exists user, JSMap.get (users s) (info_id i) = Some user /\
                     i = mkUserInfo (info_id i) (User.name user) (User.role user) /\
                     User.roomId user = k
  end.
Proof.
  intros Hfresh s.
  destruct (Inv_fresh_run tr init Inv_fresh_init Hfresh) as [_ Hc]. fold s in Hc.
  pose proof (records_ok_run tr init Inv_init records_ok_init) as Hrec. fold s in Hrec.
  rewrite getRoomUsers_eq. unfold room_users_info.
  destruct (JSMap.get (rooms s) k) as [room|] eqn:Hr; [|reflexivity].
  cbn zeta.
  change (map (fun u => mkUserInfo (User.id u) (User.name u) (User.role u))
              (JSMap.values (Room.users room)))
    with (map userInfo (JSMap.values (Room.users room))).
  assert (Hids : map info_id (map userInfo (JSMap.values (Room.users room)))
                 = JSMap.keys (Room.users room)).
  { apply ids_of_members. now apply (member_ids s k room). }
  split; [reflexivity|]. split.
  { unfold JSMap.size, JSMap.values. now rewrite !length_map. }
  split; [exact Hids|]. split.
  { rewrite Hids. eapply members_keys; eauto. }
  intros i Hi. apply in_map_iff in Hi. destruct Hi as [user [<- Hin]].
  unfold JSMap.values in Hin. apply in_map_iff in Hin.
  destruct Hin as [[v user'] [Heq Hin]]. simpl in Heq. subst user'.
  pose proof (member_ids s k room Hc Hrec Hr v user Hin) as Hid.
  apply (JSMapFacts.In_get _ _ _ (members_keys s Hc _ _ Hr)) in Hin.
  destruct (member_is_user s Hc _ _ _ _ Hr Hin) as [Hu Hk].
  exists user. simpl. rewrite Hid. split; [assumption|]. split; [|assumption].
  unfold userInfo. now rewrite Hid.
Qed.

Lemma getRoomUsers_lists_members_witness :
  getRoomUsers "r1" (run init trace_abc)
  = mkRes (Ok [mkUserInfo "A" (JString "Alice") product_manager;
               mkUserInfo "B" (JString "Bob") developer])
          (run init trace_abc) [].
Proof.
  pose proof (getRoomUsers_lists_members trace_abc "r1") as H.
  assert (Hfresh : fresh_run init trace_abc = true) by (vm_compute; reflexivity).
  specialize (H Hfresh). cbv zeta in H.
  change (JSMap.get (rooms (run init trace_abc)) "r1") with (Some room_alpha) in H.
  exact (proj1 H).
Defined.

(** X10. [list_users].  In a state reached by a run whose room ids are fresh,
    a [list_users] frame never changes the state and never fails.  From a
    session with no user record it is not answered at all, not even by an
    [error]; from a joined session it is answered by one [user_list], on the
    socket stored in the user record at the join, listing the members of the
    session's room with the session itself, under its id, stored name and
    role, among them. *)
Theorem list_users_reply tr env userId ws payload d :
  fresh_run init tr = true ->
  let s := run init tr in
  let r := onMessage env userId ws
             (Parsed (Msg (Some (JString "list_users")) payload)) d s in
  match JSMap.get (users s) userId with
  | None => r = mkRes (Ok None) s []
  | Some user =>
      exists room,
        JSMap.get (rooms s) (User.roomId user) = Some room /\
        let infos := map (fun u => mkUserInfo (User.id u) (User.name u) (User.role u))
                         (JSMap.values (Room.users room)) in
        In (mkUserInfo userId (User.name user) (User.role user)) infos /\
        r = mkRes (Ok None) s (send_log env (User.socket user) (user_list infos))
  end.
Proof.
  intros Hfresh s r. subst r.
  destruct (Inv_fresh_run tr init Inv_fresh_init Hfresh) as [[Hdir _] Hc].
  fold s in Hdir, Hc.
  destruct (records_ok_run tr init Inv_init records_ok_init) as [Hrec _]. fold s in Hrec.
  assert (E : onMessage env userId ws
                (Parsed (Msg (Some (JString "list_users")) payload)) d s
              = mkRes (Ok None) s (user_list_log env s userId)).
  { unfold onMessage. rewrite handleMessage_eq.
    change (dispatch env userId ws (Msg (Some (JString "list_users")) payload) d s)
      with (handleListUsers env userId s).
    rewrite handleListUsers_eq. reflexivity. }
  rewrite E. unfold user_list_log.
  destruct (JSMap.get (users s) userId) as [user|] eqn:Hu; [|reflexivity].
  destruct (user_in_room s Hc _ _ Hu) as [room [Hr Hm]].
  exists room. split; [assumption|]. split.
  { destruct (Hrec _ _ Hu) as [Hid _]. rewrite <- Hid at 1.
    change (In (userInfo user) (map userInfo (JSMap.values (Room.users room)))).
    apply in_map. unfold JSMap.values. apply in_map_iff.
    exists (userId, user). split; [reflexivity|]. now apply JSMapFacts.get_In. }
  rewrite Hr. unfold room_users_info.
  rewrite (directory_ok_get s _ _ Hdir Hr), Hr. reflexivity.
Qed.

Lemma list_users_reply_witness :
  onMessage env_open "D" "wsD"
    (Parsed (Msg (Some (JString "list_users")) PUndefined)) (draws "r4")
    (run init trace_abc)
  = mkRes (Ok None) (run init trace_abc) [].
Proof.
  pose proof (list_users_reply trace_abc env_open "D" "wsD" PUndefined (draws "r4")) as H.
  assert (Hfresh : fresh_run init trace_abc = true) by (vm_compute; reflexivity).
  specialize (H Hfresh). cbv zeta in H.
  change (JSMap.get (users (run init trace_abc)) "D") with (@None User.t) in H.
  exact H.
Defined.

(** ** The room of a session along a run *)

Lemma session_room_leave_other s userId v :
  directory_ok s -> consistent s -> userId <> v ->
  session_room (leave_state s v) userId = session_room s userId.
Proof.
  intros Hdir Hc Hne. unfold session_room.
  rewrite leave_state_users_other by assumption.
  destruct (JSMap.get (users s) userId) as [user|] eqn:Hu; [|reflexivity].
  destruct (user_in_room s Hc _ _ Hu) as [room [Hr Hm]]. rewrite Hr.
  destruct (leave_state_rooms s v (User.roomId user) Hdir)
    as [H|[user0 [room0 [_ [Hr0 [Hk H]]]]]]; rewrite H.
  - now rewrite Hr.
  - rewrite <- Hk in Hr0. assert (room0 = room) by congruence. subst room0.
    assert (Hin : JSMap.get (Room.users (left_room room v)) userId = Some user).
    { simpl. rewrite JSMapFacts.get_delete_other by congruence. assumption. }
    apply get_size_pos in Hin. apply Nat.eqb_neq in Hin. rewrite Hin. reflexivity.
Qed.

Lemma session_room_enter_other s userId v ws rn un role d :
  directory_ok s -> consistent s -> JSMap.get (rooms s) (uuid_room d) = None ->
  userId <> v ->
  session_room (enter_state s v ws rn un role d) userId = session_room s userId.
Proof.
  intros Hdir Hc Hfresh Hne. unfold session_room.
  rewrite enter_state_users by assumption.
  destruct (JSMap.get (users s) userId) as [user|] eqn:Hu; [|reflexivity].
  destruct (user_in_room s Hc _ _ Hu) as [room [Hr Hm]]. rewrite Hr.
  destruct (enter_state_rooms s v ws rn un role d Hdir)
    as [key [room1 [Hid [Hname [Hcase [_ Hget]]]]]].
  rewrite Hget. destruct (String.eqb_spec key (User.roomId user)) as [E|E].
  - destruct Hcase as [[H _]|[Hkey _]]; [|congruence].
    simpl. rewrite E in H. congruence.
  - now rewrite Hr.
Qed.

Lemma session_room_enter s userId ws rn un role d :
  directory_ok s ->
  session_room (enter_state s userId ws rn un role d) userId = Some rn.
Proof.
  intros Hdir. unfold session_room.
  destruct (enter_state_rooms s userId ws rn un role d Hdir)
    as [key [room [Hid [Hname [_ [Husers Hget]]]]]].
  rewrite Husers, JSMapFacts.get_set_same. simpl.
  rewrite Hget, Hid, String.eqb_refl. simpl. now rewrite Hname.
Qed.

Lemma session_room_leave s userId :
  consistent s -> session_room (leave_state s userId) userId = None.
Proof.
  intros Hc. unfold session_room. now rewrite leave_state_users.
Qed.

Lemma session_machine_other userId cur ev :
  event_user ev <> userId -> session_machine userId cur ev = cur.
Proof.
  intros H. destruct ev as [v ws|v ws frame d|v d]; simpl in *.
  - reflexivity.
  - destruct (String.eqb_spec v userId); [contradiction|].
    destruct frame as [|[|[[| | |ty| |]|] payload]]; reflexivity.
  - destruct (String.eqb_spec v userId); [contradiction|reflexivity].
Qed.

Lemma can_leave_texts s userId :
  Inv s -> rooms_nonempty s -> users_named s -> can_leave s userId = true.
Proof.
  intros [_ [_ Hm]] Hne Hn. unfold can_leave.
  destruct (JSMap.get (users s) userId) as [user|] eqn:Hu; [|reflexivity].
  destruct (JSMap.get (rooms s) (User.roomId user)) as [room|] eqn:Hr; [|reflexivity].
  rewrite (Hn _ _ Hu). simpl. apply (Hm _ _ Hr). eapply Hne; eauto.
Qed.

(** When no handler throws half-way, a listener does one of three things to
    the state: nothing; the leave of its session; or, for an accepted
    [join_room], the leave and then the insertion. *)
Lemma handle_cases_texts env ev s :
  Inv s -> rooms_nonempty s -> users_named s -> texts_ok_event ev = true ->
  (st (handle env ev s) = s /\
   forall cur, session_machine (event_user ev) cur ev = cur) \/
  (st (handle env ev s) = leave_state s (event_user ev) /\
   forall cur, session_machine (event_user ev) cur ev = None) \/
  (exists ws p d rn un role,
     ev = Incoming (event_user ev) ws
            (Parsed (Msg (Some (JString "join_room")) (PObject p))) d /\
     valid_join p = Some (rn, un, role) /\
     st (handle env ev s)
     = enter_state (leave_state s (event_user ev)) (event_user ev) ws rn un role d).
Proof.
  intros HI Hne Hn Ht.
  assert (Hleave : forall d, st (handleLeaveRoom env (event_user ev) d s)
                             = leave_state s (event_user ev)).
  { intros d. rewrite handleLeaveRoom_ok; [reflexivity|now apply can_leave_texts]. }
  destruct ev as [userId ws|userId ws frame d|userId d]; cbn [handle event_user] in *.
  - left. unfold onConnection. rewrite (bind_eq _ _ _ _ _ _ (sendToUser_eq _ _ _ _)).
    split; reflexivity.
  - unfold onMessage. destruct frame as [|message].
    + left. rewrite (bind_eq _ _ _ _ _ _ (sendError_eq _ _ _ _)). split; reflexivity.
    + rewrite st_handleMessage. unfold dispatch.
      destruct message as [|[[| | |ty| |]|] payload];
        try (left; rewrite sendError_eq; split; reflexivity).
      { left. split; reflexivity. }
      cbn [session_machine]. rewrite String.eqb_refl.
      destruct (String.eqb_spec ty "join_room") as [->|_].
      { destruct payload as [| |p]; try (left; split; reflexivity).
        destruct (valid_join p) as [[[rn un] role]|] eqn:Hv.
        - right; right. exists ws, p, d, rn, un, role.
          split; [reflexivity|]. split; [exact Hv|].
          destruct (texts_ok_join _ _ _ _ _ _ _ Ht Hv) as [Hrn Hun].
          rewrite (handleJoinRoom_valid env userId ws p d s rn un role Hv).
          rewrite join_result_enters; [|now apply can_leave_texts|now right].
          destruct (ToString un); reflexivity.
        - left. destruct (handleJoinRoom_invalid env userId ws p d s Hv) as [e [_ H]].
          rewrite H. split; reflexivity. }
      destruct (String.eqb ty "chat_message").
      { left. rewrite handleChatMessage_eq.
        destruct (JSMap.get (users s) userId) as [user|]; [|split; reflexivity].
        destruct (JSMap.get (rooms s) (User.roomId user)) as [room|]; [|split; reflexivity].
        destruct payload; split; reflexivity. }
      destruct (String.eqb ty "leave_room").
      { right; left. split; [apply Hleave|reflexivity]. }
      destruct (String.eqb ty "list_users").
      { left. rewrite handleListUsers_eq. split; reflexivity. }
      left. rewrite sendError_eq. split; reflexivity.
  - right; left. split.
    + unfold onClose, handleDisconnect. specialize (Hleave d).
      destruct (handleLeaveRoom env userId d s) as [[[]|e] s' l] eqn:E.
      * rewrite (bind_eq _ _ _ _ _ _ E). exact Hleave.
      * rewrite (bind_throw _ _ _ _ _ _ E). exact Hleave.
    + intros cur. simpl. now rewrite String.eqb_refl.
Qed.

Lemma session_room_step env ev s userId :
  Inv_fresh s -> rooms_nonempty s -> users_named s ->
  fresh_draw s ev = true -> texts_ok_event ev = true ->
  session_room (st (handle env ev s)) userId
  = session_machine userId (session_room s userId) ev.
Proof.
  intros [HI Hc] Hne Hn Hfresh Ht. pose proof HI as [Hdir _].
  destruct (String.eqb_spec (event_user ev) userId) as [Heq|Hneq].
  - subst userId.
    destruct (handle_cases_texts env ev s HI Hne Hn Ht)
      as [[H Hm]|[[H Hm]|[ws [p [d [rn [un [role [Hev [Hv H]]]]]]]]]]; rewrite H.
    + now rewrite Hm.
    + rewrite Hm. now apply session_room_leave.
    + rewrite session_room_enter by now apply directory_ok_leave.
      rewrite Hev at 3. simpl. rewrite String.eqb_refl, Hv. reflexivity.
  - rewrite session_machine_other by assumption.
    assert (Hne' : userId <> event_user ev) by congruence.
    destruct (handle_cases_texts env ev s HI Hne Hn Ht)
      as [[H _]|[[H _]|[ws [p [d [rn [un [role [Hev [_ H]]]]]]]]]]; rewrite H.
    + reflexivity.
    + now apply session_room_leave_other.
    + rewrite Hev in Hfresh. simpl in Hfresh.
      apply negb_true_iff, JSMapFacts.has_false in Hfresh.
      rewrite session_room_enter_other; try assumption.
      * now apply session_room_leave_other.
      * now apply directory_ok_leave.
      * now apply consistent_leave.
      * now apply leave_state_rooms_None.
Qed.

Lemma session_room_run userId tr :
  forall s, Inv_fresh s -> rooms_nonempty s -> users_named s ->
    fresh_run s tr = true -> texts_ok tr = true ->
    session_room (run s tr) userId
    = fold_left (session_machine userId) (map snd tr) (session_room s userId).
Proof.
  induction tr as [|[env ev] tr IH]; intros s HI Hne Hn Hf Ht; simpl in *; [reflexivity|].
  apply andb_true_iff in Hf. destruct Hf as [Hx Htr].
  apply andb_true_iff in Ht. destruct Ht as [Hy Hts].
  destruct (texts_reached s _ _ _ (proj1 HI) Hne Hn Hy (st_handle env ev s)).
  rewrite IH; try assumption; [|now apply (Inv_fresh_step s (env, ev))].
  unfold step. simpl. now rewrite session_room_step.
Qed.

(** X11. The relay follows the state machine of a session.  After a run
    whose room ids are fresh and in which the names of every accepted
    [join_room] have a text, as all strings have, the name of the room a
    session is in is the state of [session_machine] for that session after
    the events of the run: the session is in the room named by its last
    accepted [join_room], unless a [leave_room] or a disconnection of the
    session came after it; rejected frames, chat messages, listings and all
    events of other sessions never move it. *)
Theorem session_follows_machine tr userId :
  fresh_run init tr = true -> texts_ok tr = true ->
  session_room (run init tr) userId
  = fold_left (session_machine userId) (map snd tr) None.
Proof.
  intros Hfresh Ht.
  apply (session_room_run userId tr init Inv_fresh_init); try assumption;
    intros k x H; discriminate.
Qed.

Lemma session_follows_machine_witness :
  session_room (run init trace_abc) "C"
  = fold_left (session_machine "C") (map snd trace_abc) None.
Proof.
  apply (session_follows_machine trace_abc "C"); vm_compute; reflexivity.
Defined.

(** ** The notifications of a join *)

(** X12. The notifications of a join that goes to its end.  In a state
    reached by a run whose room ids are fresh, take a [join_room] with an
    accepted payload from a session whose socket is open, whose room name and
    user name have a text, the session being in no room or stored under a
    name that has a text.  The handler returns normally.  It performs the
    leave of the session's room (nothing, for a session in no room) and then
    makes these [send] calls, in this order: [room_joined] to the joiner, with
    the id and name of the room and the number of members after the joiner's
    insertion (one more than before it: 1 in a created room); [user_joined]
    to the open members of the membership after the insertion other than the
    joiner, carrying the joiner's id, name and role, the text of the name in
    its system message, and a [users] list with the id, name and role of
    every member, the joiner among them; [user_list] to the joiner, with the
    same list. *)
Theorem join_notifications tr env userId ws p d rn un role t :
  fresh_run init tr = true ->
  valid_join p = Some (rn, un, role) ->
  readyState env ws = OPEN ->
  converts rn = true -> ToString un = Ok t ->
  (forall user, JSMap.get (users (run init tr)) userId = Some user ->
                converts (User.name user) = true) ->
  let s := run init tr in
  let r := handleJoinRoom env userId ws (PObject p) d s in
  exists key room,
    let user := User.mk userId ws role un key (now_joinedAt d) in
    let members := (Room.users room ++ [(userId, user)])%list in
    let infos := map (fun u => mkUserInfo (User.id u) (User.name u) (User.role u))
                     (JSMap.values members) in
    out r = Ok tt /\
    (JSMap.get (rooms (leave_state s userId)) key = Some room \/
     (key = uuid_room d /\ Room.users room = [])) /\
    Room.name room = rn /\
    JSMap.get (rooms (st r)) key = Some (Room.with_users room members) /\
    log r = (leave_log env s userId d
             ++ [(ws, room_joined key rn (S (JSMap.size (Room.users room))))]
             ++ broadcast_log env members
                  (user_joined (mkUserInfo userId un role) infos
                     (mkSystemMessage (uuid_joined d) "系统"
                        (t ++ " 加入了房间") (now_joined d)))
                  (Some userId)
             ++ [(ws, user_list infos)])%list /\
    In (mkUserInfo userId un role) infos /\
    (JSMap.get (users s) userId = None -> leave_log env s userId d = []) /\
    onMessage env userId ws
      (Parsed (Msg (Some (JString "join_room")) (PObject p))) d s
    = mkRes (Ok None) (st r) (log r).
Proof.
  intros Hfresh Hv Hopen Hrn Hun Hname s r.
  pose proof (Inv_fresh_run tr init Inv_fresh_init Hfresh) as HIf. fold s in HIf, Hname.
  pose proof HIf as [[Hdir HI] Hc].
  assert (Hleave : can_leave s userId = true).
  { rewrite (can_leave_fresh s userId HIf).
    destruct (JSMap.get (users s) userId) as [user|]; [now apply Hname|reflexivity]. }
  assert (Hr : r = mkRes (Ok tt)
                     (enter_state (leave_state s userId) userId ws rn un role d)
                     (leave_log env s userId d
                      ++ enter_log env (leave_state s userId) userId ws rn un role d)).
  { subst r. rewrite (handleJoinRoom_valid env userId ws p d s rn un role Hv).
    rewrite join_result_enters; [|assumption|now right]. now rewrite Hun. }
  rewrite onMessage_join. cbv zeta. fold r. rewrite Hr. cbn [out st log].
  destruct (enter_log_eq env (leave_state s userId) userId ws rn un role d)
    as [key [room [Hcase [Hroom [Hrooms [_ [_ Hlog]]]]]]].
  - now apply directory_ok_leave.
  - now apply consistent_leave.
  - now apply leave_state_users.
  - assumption.
  - exists key, room. cbv zeta in Hrooms, Hlog |- *.
    split; [reflexivity|]. split.
    { destruct Hcase as [H|[H1 [H2 _]]]; [now left|right; split; [assumption|]].
      now rewrite H2. }
    split; [assumption|]. split; [assumption|]. split.
    { rewrite Hlog. unfold joined_message, userInfo, text_of. cbn [User.id User.name User.role].
      rewrite Hun. reflexivity. }
    split.
    { unfold JSMap.values. rewrite !map_app. apply in_or_app. right. now left. }
    split; [|reflexivity].
    intros Hu. unfold leave_log. now rewrite Hu.
Qed.

Lemma join_notifications_witness :
  let s := state_abc in
  let r := handleJoinRoom env_open "D" "wsD" (PObject payload_dave_alpha) (draws "r4") s in
  exists key room,
    let user := User.mk "D" "wsD" developer (JString "Dave") key
                  (now_joinedAt (draws "r4")) in
    let members := (Room.users room ++ [("D", user)])%list in
    let infos := map (fun u => mkUserInfo (User.id u) (User.name u) (User.role u))
                     (JSMap.values members) in
    out r = Ok tt /\
    (JSMap.get (rooms (leave_state s "D")) key = Some room \/
     (key = uuid_room (draws "r4") /\ Room.users room = [])) /\
    Room.name room = JString "alpha" /\
    JSMap.get (rooms (st r)) key = Some (Room.with_users room members) /\
    log r = (leave_log env_open s "D" (draws "r4")
             ++ [("wsD", room_joined key (JString "alpha")
                           (S (JSMap.size (Room.users room))))]
             ++ broadcast_log env_open members
                  (user_joined (mkUserInfo "D" (JString "Dave") developer) infos
                     (mkSystemMessage (uuid_joined (draws "r4")) "系统"
                        ("Dave" ++ " 加入了房间") (now_joined (draws "r4"))))
                  (Some "D")
             ++ [("wsD", user_list infos)])%list /\
    In (mkUserInfo "D" (JString "Dave") developer) infos /\
    (JSMap.get (users s) "D" = None -> leave_log env_open s "D" (draws "r4") = []) /\
    onMessage env_open "D" "wsD"
      (Parsed (Msg (Some (JString "join_room")) (PObject payload_dave_alpha)))
      (draws "r4") s
    = mkRes (Ok None) (st r) (log r).
Proof.
  apply (join_notifications trace_abc env_open "D" "wsD" payload_dave_alpha (draws "r4")
           (JString "alpha") (JString "Dave") developer "Dave");
    try (vm_compute; reflexivity).
  intros user H. vm_compute in H. discriminate H.
Defined.

(** ** Joining the room one is alone in *)

(** X13. Joining again the room one is alone in.  In a state reached by a run
    whose room ids are fresh, let a session be the only member of its room,
    stored under a name that has a text, and send an accepted [join_room] for
    the name of that same room, with a fresh room id.  Then the old room is
    deleted and a room of the same name is created under the new id and with
    a new creation time, with the session as its only member; and the
    handler returns normally when the new user name has a text. *)
Theorem rejoin_alone tr env userId ws p d un role user room :
  fresh_run init tr = true ->
  JSMap.get (users (run init tr)) userId = Some user ->
  JSMap.get (rooms (run init tr)) (User.roomId user) = Some room ->
  valid_join p = Some (Room.name room, un, role) ->
  JSMap.size (JSMap.delete (Room.users room) userId) = 0 ->
  JSMap.has (rooms (run init tr)) (uuid_room d) = false ->
  converts (User.name user) = true ->
  let s := run init tr in
  let r := handleJoinRoom env userId ws (PObject p) d s in
  let user' := User.mk userId ws role un (uuid_room d) (now_joinedAt d) in
  (converts un = true -> out r = Ok tt) /\
  JSMap.get (rooms (st r)) (User.roomId user) = None /\
  JSMap.get (rooms (st r)) (uuid_room d)
  = Some (Room.mk (uuid_room d) (Room.name room) [(userId, user')] (now_created d)) /\
  JSMap.get (users (st r)) userId = Some user'.
Proof.
  intros Hfresh Hu Hr Hv Hsize Hd Hcu s r user'.
  pose proof (Inv_fresh_run tr init Inv_fresh_init Hfresh) as HIf.
  fold s in HIf, Hu, Hr, Hd.
  pose proof HIf as [[Hdir [Hnames Hnamed]] Hc].
  apply JSMapFacts.has_false in Hd.
  destruct (room_of_user_named s userId user room HIf Hu Hr) as [Hcr _].
  assert (Hleave : can_leave s userId = true).
  { rewrite (can_leave_fresh s userId HIf), Hu. exact Hcu. }
  subst r.
  rewrite (handleJoinRoom_valid env userId ws p d s (Room.name room) un role Hv).
  rewrite join_result_enters; [|assumption|now right].
  set (s0 := leave_state s userId).
  assert (Hst : st (match ToString un with
                    | Ok _ => mkRes (Ok tt) (enter_state s0 userId ws (Room.name room) un role d)
                               (leave_log env s userId d
                                ++ enter_log env s0 userId ws (Room.name room) un role d)
                    | Throw e => mkRes (Throw e)
                               (enter_state s0 userId ws (Room.name room) un role d)
                               (leave_log env s userId d
                                ++ joined_reply env s0 userId ws (Room.name room) un role d)
                    end)
                = enter_state s0 userId ws (Room.name room) un role d)
    by (destruct (ToString un); reflexivity).
  rewrite Hst. clear Hst.
  split.
  { unfold converts. destruct (ToString un); [reflexivity|discriminate]. }
  assert (Hgone : JSMap.get (rooms s0) (User.roomId user) = None)
    by now apply (leave_last_member s userId user room).
  pose proof (directory_ok_leave s userId Hdir) as Hdir0. fold s0 in Hdir0.
  assert (Hfresh0 : JSMap.get (rooms s0) (uuid_room d) = None)
    by now apply leave_state_rooms_None.
  assert (Hne_key : uuid_room d <> User.roomId user).
  { intros E'. rewrite E' in Hd. rewrite Hd in Hr. discriminate. }
  (* no room of the state after the leave has the name *)
  assert (Hnone : forall k room0, In (k, room0) (rooms s0) ->
                    strict_eq (Room.name room0) (Room.name room) = false).
  { intros k room0 Hin.
    destruct (strict_eq (Room.name room0) (Room.name room)) eqn:Hn; [|reflexivity].
    exfalso.
    apply (JSMapFacts.In_get _ _ _ (proj1 Hdir0)) in Hin.
    destruct (leave_state_room_of s userId k room0 Hdir Hin) as [r1 [G [_ [B _]]]].
    assert (k = User.roomId user).
    { apply (Hnames k r1 _ room G Hr). now rewrite <- B. }
    subst k. rewrite Hgone in Hin. discriminate. }
  assert (E : resolve_room s0 (Room.name room) d
              = (uuid_room d, new_room (Room.name room) d,
                 JSMap.set (rooms s0) (uuid_room d) (new_room (Room.name room) d))).
  { destruct (resolve_room_cases s0 (Room.name room) d)
      as [[key [room1 [_ [Hin [_ [Hfind _]]]]]]|[E _]]; [|exact E].
    exfalso. unfold find_room in Hfind. apply find_some in Hfind.
    destruct Hfind as [_ Hs]. simpl in Hs.
    rewrite (Hnone key room1 Hin) in Hs. discriminate. }
  unfold enter_state. rewrite E. cbn [rooms users].
  split.
  { rewrite !JSMapFacts.get_set_other by assumption. exact Hgone. }
  split; [|apply JSMapFacts.get_set_same].
  rewrite JSMapFacts.get_set_same. reflexivity.
Qed.

Lemma rejoin_alone_witness :
  let s := run init trace_abc in
  let r := handleJoinRoom env_open "C" "wsC" (PObject payload_carol_beta) (draws "r4") s in
  let user' := User.mk "C" "wsC" developer (JString "Carol") "r4"
                 (now_joinedAt (draws "r4")) in
  (converts (JString "Carol") = true -> out r = Ok tt) /\
  JSMap.get (rooms (st r)) (User.roomId carol) = None /\
  JSMap.get (rooms (st r)) "r4"
  = Some (Room.mk "r4" (Room.name room_beta) [("C", user')] (now_created (draws "r4"))) /\
  JSMap.get (users (st r)) "C" = Some user'.
Proof.
  apply (rejoin_alone trace_abc env_open "C" "wsC" payload_carol_beta (draws "r4")
           (JString "Carol") developer carol room_beta);
    vm_compute; reflexivity.
Defined.

(** ** Falsy fields in a join *)

(** X14. A [join_room] whose [roomName], [userName] or [userRole] is absent
    or falsy (the empty string, [null], [false], [0]) is answered by the
    error for missing parameters, whatever the other fields are (also when
    [userRole] is outside the enumeration as well), and changes nothing. *)
Theorem join_rejects_empty_strings env s userId ws p d :
  (roomName p = None \/ roomName p = Some (JString "") \/
   userName p = None \/ userName p = Some (JString "") \/
   userRole p = None \/ userRole p = Some (JString "") \/
   truthy_field (roomName p) = None \/ truthy_field (userName p) = None \/
   truthy_field (userRole p) = None) ->
  handleJoinRoom env userId ws (PObject p) d s
  = mkRes (Ok tt) s
      (send_log env ws (error "缺少必要参数: roomName, userName, userRole")) /\
  onMessage env userId ws (Parsed (Msg (Some (JString "join_room")) (PObject p))) d s
  = mkRes (Ok None) s
      (send_log env ws (error "缺少必要参数: roomName, userName, userRole")).
Proof.
  intros H.
  assert (Hbad : truthy_field (roomName p) = None \/ truthy_field (userName p) = None \/
                 truthy_field (userRole p) = None).
  { destruct H as [H|[H|[H|[H|[H|[H|H]]]]]]; try (rewrite H; simpl; tauto). exact H. }
  assert (E : handleJoinRoom env userId ws (PObject p) d s
              = mkRes (Ok tt) s
                  (send_log env ws (error "缺少必要参数: roomName, userName, userRole"))).
  { unfold handleJoinRoom.
    destruct (truthy_field (roomName p)) as [rn|]; [|apply sendError_eq].
    destruct (truthy_field (userName p)) as [un|]; [|apply sendError_eq].
    destruct (truthy_field (userRole p)) as [ur|]; [|apply sendError_eq].
    destruct Hbad as [Hb|[Hb|Hb]]; discriminate. }
  split; [exact E|]. rewrite onMessage_join. cbv zeta. rewrite E. reflexivity.
Qed.

Lemma join_rejects_empty_strings_witness :
  handleJoinRoom env_open "A" "wsA" (PObject payload_empty_room) (draws "r4") state_abc
  = mkRes (Ok tt) state_abc
      (send_log env_open "wsA" (error "缺少必要参数: roomName, userName, userRole")) /\
  onMessage env_open "A" "wsA"
    (Parsed (Msg (Some (JString "join_room")) (PObject payload_empty_room)))
    (draws "r4") state_abc
  = mkRes (Ok None) state_abc
      (send_log env_open "wsA" (error "缺少必要参数: roomName, userName, userRole")).
Proof.
  apply (join_rejects_empty_strings env_open state_abc "A" "wsA" payload_empty_room
           (draws "r4")).
  right; left. reflexivity.
Defined.

(** ** Leaving a room *)

(** X15. The leave of a member.  In a state reached by a run whose room ids
    are fresh, let a session with a user record leave, by [leave_room] or by
    a disconnection.  Its record is removed from its room and from [users]
    in every case.  When its stored name has a text, the handler returns
    normally, [user_left] is sent to the open ones among the members that
    remain, in their order, with the id, name and role of the leaver, the
    text of its name in the system message, and a [users] list that has
    exactly the ids of the members that remain, the leaver not among them;
    and the room stays in the directory with these members when there are
    any, and is deleted when there is none.  When the stored name has no
    text, the handler throws after the removal of the record: nobody is
    notified, and the room stays in the directory, also with no member. *)
Theorem leave_notifies_the_others tr env userId d user room :
  fresh_run init tr = true ->
  JSMap.get (users (run init tr)) userId = Some user ->
  JSMap.get (rooms (run init tr)) (User.roomId user) = Some room ->
  let s := run init tr in
  let r := handleLeaveRoom env userId d s in
  let others := JSMap.delete (Room.users room) userId in
  let infos := map (fun u => mkUserInfo (User.id u) (User.name u) (User.role u))
                   (JSMap.values others) in
  JSMap.get (users (st r)) userId = None /\
  map info_id infos = JSMap.keys others /\
  ~ In userId (map info_id infos) /\
  match ToString (User.name user) with
  | Ok t =>
      out r = Ok tt /\
      log r = broadcast_log env others
                (user_left (mkUserInfo userId (User.name user) (User.role user)) infos
                   (mkSystemMessage (uuid_left d) "系统" (t ++ " 离开了房间")
                      (now_left d)))
                None /\
      JSMap.get (rooms (st r)) (User.roomId user)
      = if Nat.eqb (JSMap.size others) 0 then None
        else Some (Room.with_users room others)
  | Throw e =>
      out r = Throw e /\ log r = [] /\
      JSMap.get (rooms (st r)) (User.roomId user) = Some (Room.with_users room others)
  end.
Proof.
  intros Hfresh Hu Hr s r others infos.
  pose proof (Inv_fresh_run tr init Inv_fresh_init Hfresh) as HIf.
  fold s in HIf, Hu, Hr. pose proof HIf as [[Hdir HI] Hc].
  pose proof (records_ok_run tr init Inv_init records_ok_init) as Hrec. fold s in Hrec.
  destruct (room_of_user_named s userId user room HIf Hu Hr) as [Hcr _].
  assert (Hids : map info_id infos = JSMap.keys others).
  { apply (ids_of_members others). intros k u0 Hin. apply JSMapFacts.In_delete in Hin.
    apply (member_ids s _ room Hc Hrec Hr k u0), Hin. }
  assert (Hid : User.id user = userId) by apply (proj1 Hrec _ _ Hu).
  subst r. rewrite handleLeaveRoom_eq. unfold leave_result. rewrite Hu, Hr.
  split.
  { destruct (ToString (User.name user)); cbn [st].
    - now apply leave_state_users.
    - simpl. apply JSMapFacts.get_delete_same. }
  split; [exact Hids|]. split.
  { rewrite Hids. apply JSMapFacts.get_None_keys. apply JSMapFacts.get_delete_same. }
  destruct (ToString (User.name user)) as [t|e] eqn:Et; cbn [out st log].
  - split; [now apply template_one|]. split.
    + rewrite (leave_log_eq env s userId d user room Hdir Hu Hr).
      unfold left_message, userInfo, text_of. rewrite Et, Hid. reflexivity.
    + destruct (Nat.eqb (JSMap.size others) 0) eqn:Es.
      * apply Nat.eqb_eq in Es. now apply (leave_last_member s userId user room).
      * unfold leave_state. rewrite Hu, Hr. unfold left_room at 1. simpl.
        fold others. rewrite Es. simpl. apply JSMapFacts.get_set_same.
  - split; [reflexivity|]. split; [reflexivity|].
    simpl. apply JSMapFacts.get_set_same.
Qed.

Lemma leave_notifies_the_others_witness :
  let s := run init trace_abc in
  let r := handleLeaveRoom env_open "A" (draws "r4") s in
  let others := JSMap.delete (Room.users room_alpha) "A" in
  let infos := map (fun u => mkUserInfo (User.id u) (User.name u) (User.role u))
                   (JSMap.values others) in
  JSMap.get (users (st r)) "A" = None /\
  map info_id infos = JSMap.keys others /\
  ~ In "A" (map info_id infos) /\
  out r = Ok tt /\
  log r = broadcast_log env_open others
            (user_left (mkUserInfo "A" (JString "Alice") product_manager) infos
               (mkSystemMessage "m-left" "系统" ("Alice" ++ " 离开了房间") 10))
            None /\
  JSMap.get (rooms (st r)) "r1" = Some (Room.with_users room_alpha others).
Proof.
  apply (leave_notifies_the_others trace_abc env_open "A" (draws "r4") alice room_alpha);
    vm_compute; reflexivity.
Defined.

(** ** Only a join adds *)

Lemma leave_state_users_sub s userId v user :
  JSMap.get (users (leave_state s userId)) v = Some user ->
  JSMap.get (users s) v = Some user.
Proof.
  unfold leave_state.
  destruct (JSMap.get (users s) userId) as [u0|]; [|auto].
  destruct (JSMap.get (rooms s) (User.roomId u0)) as [room|]; [|auto].
  destruct (Nat.eqb (JSMap.size (Room.users (left_room room userId))) 0); simpl;
    rewrite JSMapFacts.get_delete; destruct (String.eqb userId v);
    intros H; congruence.
Qed.

Lemma reached_adds_nothing s u ev s' :
  directory_ok s -> is_join_of u ev = false -> reached s u ev s' ->
  (forall v user, JSMap.get (users s') v = Some user ->
     JSMap.get (users s) v = Some user) /\
  (forall k room', JSMap.get (rooms s') k = Some room' ->
     exists room, JSMap.get (rooms s) k = Some room /\
                  Room.name room' = Room.name room).
Proof.
  intros Hdir Hj Hreach.
  destruct Hreach as [| |user room Hu Hr Hc|ws p d rn un role Hev Hvalid Hfind Hc
                      |ws p d rn un role Hev Hvalid Hc].
  - split; [auto|]. intros k room' Hk. eauto.
  - split.
    + intros v user Hv. now apply leave_state_users_sub in Hv.
    + intros k room' Hk.
      destruct (leave_state_room_of s _ k room' Hdir Hk) as [r0 [G [_ [B _]]]].
      eauto.
  - split.
    + intros v user' Hv. simpl in Hv. rewrite JSMapFacts.get_delete in Hv.
      destruct (String.eqb u v); [discriminate|exact Hv].
    + intros k room'. rewrite leave_mid_rooms.
      destruct (String.eqb_spec (User.roomId user) k) as [<-|Hk].
      * intros H; inversion H; subst. exists room. split; [assumption|reflexivity].
      * intros H. eauto.
  - exfalso. rewrite Hev in Hj. simpl in Hj.
    rewrite String.eqb_refl in Hj. discriminate.
  - exfalso. rewrite Hev in Hj. simpl in Hj.
    rewrite String.eqb_refl in Hj. discriminate.
Qed.

(** X16. In a state reached by any run, an event that is not a [join_room]
    frame with a payload adds nothing: every user record and every room of
    the state after it was there before it, the record unchanged and the room
    under the same key.  Chat messages, listings, leaves, disconnections,
    connections and rejected frames can only remove. *)
Theorem only_join_adds tr env ev :
  is_join_of (event_user ev) ev = false ->
  let s := run init tr in
  let s' := st (handle env ev s) in
  (forall v user, JSMap.get (users s') v = Some user ->
     JSMap.get (users s) v = Some user) /\
  (forall k room', JSMap.get (rooms s') k = Some room' ->
     exists room, JSMap.get (rooms s) k = Some room /\
                  Room.name room' = Room.name room).
Proof.
  intros Hj s s'. subst s'.
  destruct (Inv_run tr init Inv_init) as [Hdir _]. fold s in Hdir.
  exact (reached_adds_nothing s _ ev _ Hdir Hj (st_handle env ev s)).
Qed.

Lemma only_join_adds_witness :
  let s := run init trace_abc in
  let s' := st (handle env_open (Closed "C" (draws "r4")) s) in
  (forall v user, JSMap.get (users s') v = Some user ->
     JSMap.get (users s) v = Some user) /\
  (forall k room', JSMap.get (rooms s') k = Some room' ->
     exists room, JSMap.get (rooms s) k = Some room /\
                  Room.name room' = Room.name room).
Proof.
  apply (only_join_adds trace_abc env_open (Closed "C" (draws "r4"))). reflexivity.
Defined.

(** ** Room names *)

Lemma filter_nil {A} (f : A -> bool) l :
  (forall x, In x l -> f x = false) -> filter f l = [].
Proof.
  induction l as [|x l IH]; simpl; intros H; [reflexivity|].
  rewrite (H x) by now left. apply IH. intros y Hy. apply H. now right.
Qed.

Lemma strict_eq_trans a b c :
  strict_eq a b = true -> strict_eq c b = true -> strict_eq a c = true.
Proof.
  intros H1 H2.
  destruct (strict_eq_true _ _ H1) as [-> _].
  destruct (strict_eq_true _ _ H2) as [-> _]. exact H1.
Qed.

Lemma lookup_by_name_unique (m : JSMap.t Room.t) rn :
  NoDup (JSMap.keys m) ->
  (forall k1 room1 k2 room2, In (k1, room1) m -> In (k2, room2) m ->
     strict_eq (Room.name room1) (Room.name room2) = true -> k1 = k2) ->
  length (filter (fun e => strict_eq (Room.name (snd e)) rn) m) <= 1.
Proof.
  induction m as [|[k room] m IH]; simpl; intros Hnd Huniq; [lia|].
  inversion Hnd as [|? ? Hnotin Hnd']; subst.
  destruct (strict_eq (Room.name room) rn) eqn:Hn.
  - rewrite filter_nil; [simpl; lia|].
    intros [k' room'] Hin. simpl.
    destruct (strict_eq (Room.name room') rn) eqn:Hn'; [|reflexivity].
    exfalso. apply Hnotin.
    assert (k = k').
    { apply (Huniq k room k' room'); [now left|now right|].
      now apply (strict_eq_trans _ rn). }
    subst k'. change k with (fst (k, room')). now apply in_map.
  - apply IH; [assumption|].
    intros k1 room1 k2 room2 H1 H2. apply Huniq; now right.
Qed.

(** X17. Room names, as the lookup of [handleJoinRoom] sees them.  After any
    sequence of connections, frames and disconnections, two entries of the
    directory whose names are equal for [===] are one entry; a lookup by
    name, for any value, meets at most one room; two rooms named by the same
    string are one room; and two sessions that are members of rooms named by
    the same string are members of the room of one identifier. *)
Theorem room_names_unique tr :
  let s := run init tr in
  (forall k1 room1 k2 room2,
     In (k1, room1) (rooms s) -> In (k2, room2) (rooms s) ->
     strict_eq (Room.name room1) (Room.name room2) = true ->
     k1 = k2 /\ room1 = room2) /\
  (forall rn,
     length (filter (fun e => strict_eq (Room.name (snd e)) rn) (rooms s)) <= 1) /\
  (forall t k1 room1 k2 room2,
     JSMap.get (rooms s) k1 = Some room1 -> JSMap.get (rooms s) k2 = Some room2 ->
     Room.name room1 = JString t -> Room.name room2 = JString t ->
     k1 = k2 /\ room1 = room2) /\
  (forall t userId1 userId2 k1 k2 room1 room2,
     JSMap.get (rooms s) k1 = Some room1 -> JSMap.get (rooms s) k2 = Some room2 ->
     JSMap.has (Room.users room1) userId1 = true ->
     JSMap.has (Room.users room2) userId2 = true ->
     Room.name room1 = JString t -> Room.name room2 = JString t ->
     k1 = k2 /\ Room.id room1 = Room.id room2).
Proof.
  intros s. destruct (Inv_run tr init Inv_init) as [Hdir [Hnames _]].
  fold s in Hdir, Hnames.
  assert (Huniq : forall k1 room1 k2 room2,
             In (k1, room1) (rooms s) -> In (k2, room2) (rooms s) ->
             strict_eq (Room.name room1) (Room.name room2) = true ->
             k1 = k2 /\ room1 = room2).
  { intros k1 room1 k2 room2 H1 H2 Hn.
    apply (JSMapFacts.In_get _ _ _ (proj1 Hdir)) in H1, H2.
    assert (k1 = k2) by (eapply Hnames; eauto). subst k2.
    split; [reflexivity|congruence]. }
  assert (Hstr : forall t k1 room1 k2 room2,
             JSMap.get (rooms s) k1 = Some room1 -> JSMap.get (rooms s) k2 = Some room2 ->
             Room.name room1 = JString t -> Room.name room2 = JString t ->
             k1 = k2 /\ room1 = room2).
  { intros t k1 room1 k2 room2 H1 H2 N1 N2.
    assert (k1 = k2).
    { apply (Hnames k1 room1 k2 room2 H1 H2). rewrite N1, N2. simpl.
      apply String.eqb_refl. }
    subst k2. split; [reflexivity|congruence]. }
  split; [exact Huniq|]. split.
  { intros rn. apply lookup_by_name_unique; [apply Hdir|].
    intros k1 room1 k2 room2 H1 H2 Hn. now apply (Huniq k1 room1 k2 room2). }
  split; [exact Hstr|].
  intros t userId1 userId2 k1 k2 room1 room2 H1 H2 _ _ N1 N2.
  destruct (Hstr t k1 room1 k2 room2 H1 H2 N1 N2) as [-> ->]. split; reflexivity.
Qed.

Lemma room_names_unique_witness :
  JSMap.get (rooms state_abc) "r1" = Some room_alpha /\
  Room.name room_alpha = JString "alpha" /\
  ("r1" = "r1" /\ room_alpha = room_alpha).
Proof.
  split; [vm_compute; reflexivity|]. split; [reflexivity|].
  apply (proj1 (proj2 (proj2 (room_names_unique trace_abc))) "alpha" "r1" room_alpha
           "r1" room_alpha); vm_compute; reflexivity.
Defined.

(** * The conversation history of [ChatSDK]: properties *)

Section ChatHistoryFacts.
Import ChatSDK.

Lemma slice_skipn {A} (l : list A) start :
  exists k, slice l start = skipn k l /\
            ((start <= 0)%Z -> l <> [] -> k < List.length l) /\
            ((start < 0)%Z -> (Z.of_nat (List.length l - k) <= - start)%Z).
Proof.
  unfold slice. eexists. split; [reflexivity|]. split.
  - intros Hs Hl. assert (0 < List.length l) by (destruct l; [congruence|simpl; lia]).
    destruct (Z.ltb_spec start 0); lia.
  - intros Hs. destruct (Z.ltb_spec start 0); lia.
Qed.

Lemma skipn_In {A} k (l : list A) x : In x (skipn k l) -> In x l.
Proof.
  intros H. rewrite <- (firstn_skipn k l). apply in_or_app. now right.
Qed.



Lemma find_app_not_system l m :
  isSystemMessage m = false ->
  find isSystemMessage (l ++ [m]) = find isSystemMessage l.
Proof.
  intros Hm. induction l as [|x l IH]; simpl; [now rewrite Hm|].
  destruct (isSystemMessage x); [reflexivity|assumption].
Qed.

(** The two forms of the result of [addMessage] *)
Lemma addMessage_cases h r c now :
  let pushed := (messages h ++ [mkChatMessage r c now])%list in
  (messages (addMessage h r c now) = pushed /\
   (maxLength h = 0 \/ Z.of_nat (List.length pushed) <= maxLength h)%Z) \/
  (exists k,
     messages (addMessage h r c now)
     = match find isSystemMessage pushed with
       | Some m => m :: skipn k (filter notSystemMessage pushed)
       | None => skipn k (filter notSystemMessage pushed)
       end /\
     slice (filter notSystemMessage pushed)
       (- maxLength h + match find isSystemMessage pushed with
                        | Some _ => 1 | None => 0 end)%Z
     = skipn k (filter notSystemMessage pushed) /\
     (maxLength h <> 0 /\ Z.of_nat (List.length pushed) > maxLength h)%Z).
Proof.
  intros pushed. unfold addMessage. fold pushed.
  destruct (Z.eqb_spec (maxLength h) 0) as [E0|E0]; simpl.
  - left. split; [reflexivity|now left].
  - destruct (Z.gtb_spec (Z.of_nat (List.length pushed)) (maxLength h)) as [Hg|Hg].
    + right.
      destruct (slice_skipn (filter notSystemMessage pushed)
                  (- maxLength h + match find isSystemMessage pushed with
                                   | Some _ => 1 | None => 0 end)%Z) as [k [Hk _]].
      exists k. rewrite Hk. split; [|split; [reflexivity|lia]].
      destruct (find isSystemMessage pushed); reflexivity.
    + left. split; [reflexivity|right; lia].
Qed.

Lemma maxLength_addMessage h r c now : maxLength (addMessage h r c now) = maxLength h.
Proof.
  unfold addMessage.
  destruct (negb (maxLength h =? 0)%Z
            && (Z.of_nat (List.length (messages h ++ [mkChatMessage r c now])) >? maxLength h)%Z);
    reflexivity.
Qed.

(** X18. The limit of the history.  With a [maxLength] of 2 or more, the
    history has at most [maxLength] messages after every [addMessage],
    whatever it was before. *)
Theorem history_bounded h r c now :
  (2 <= maxLength h)%Z ->
  (Z.of_nat (List.length (messages (addMessage h r c now))) <= maxLength h)%Z.
Proof.
  intros HM. unfold addMessage.
  set (pushed := (messages h ++ [mkChatMessage r c now])%list).
  destruct (Z.eqb_spec (maxLength h) 0) as [E0|E0]; [lia|]. simpl.
  destruct (Z.gtb_spec (Z.of_nat (List.length pushed)) (maxLength h)) as [Hg|Hg];
    [|simpl; lia].
  simpl.
  destruct (find isSystemMessage pushed) as [sys|];
    match goal with
    | |- context [slice ?l ?s] =>
        destruct (slice_skipn l s) as [k [Hk [_ Hlen]]]; rewrite Hk;
        specialize (Hlen ltac:(lia))
    end; simpl; rewrite length_skipn in *; lia.
Qed.

Lemma history_bounded_witness :
  (Z.of_nat (List.length (messages (addMessage history_full user "second question" 102)))
   <= 2)%Z.
Proof.
  apply (history_bounded history_full user "second question" 102).
  simpl. lia.
Defined.

Lemma filter_not_system_all l :
  (forall m, In m l -> isSystemMessage m = false) -> filter notSystemMessage l = l.
Proof.
  induction l as [|m l IH]; simpl; intros H; [reflexivity|].
  unfold notSystemMessage at 1. unfold isSystemMessage in H.
  rewrite (H m) by now left. simpl. f_equal. apply IH. intros x Hx. apply H. now right.
Qed.

(** X19. The limit 1 does not limit a history with a system prompt.  When
    [maxLength] is 1 and the history starts with its only system message,
    [addMessage] of a user or assistant message drops nothing: the history
    is the old one with the new message at its end, so it grows by one
    message at every call. *)
Theorem limit_one_keeps_everything h sys rest r c now :
  maxLength h = 1%Z ->
  messages h = sys :: rest ->
  isSystemMessage sys = true ->
  (forall m, In m rest -> isSystemMessage m = false) ->
  is_system r = false ->
  messages (addMessage h r c now) = (messages h ++ [mkChatMessage r c now])%list.
Proof.
  intros HM Hmsgs Hsys Hrest Hr.
  set (new := mkChatMessage r c now).
  assert (Hfilter : filter notSystemMessage (messages h ++ [new]) = (rest ++ [new])%list).
  { rewrite Hmsgs. simpl. unfold notSystemMessage at 1. unfold isSystemMessage in Hsys.
    rewrite Hsys. simpl. apply filter_not_system_all. intros m Hin.
    apply in_app_or in Hin. destruct Hin as [Hin|[<-|[]]]; [auto|exact Hr]. }
  assert (Hfind : find isSystemMessage (messages h ++ [new]) = Some sys).
  { rewrite Hmsgs. simpl. now rewrite Hsys. }
  unfold addMessage. fold new. rewrite Hfind, Hfilter, HM.
  destruct (negb (1 =? 0)%Z && (Z.of_nat (List.length (messages h ++ [new])) >? 1)%Z);
    [|reflexivity].
  cbn [messages]. rewrite Hmsgs. unfold slice.
  change (- (1) + 1 <? 0)%Z with false. cbv iota.
  rewrite Z.min_l by lia. reflexivity.
Qed.

Lemma limit_one_keeps_everything_witness :
  messages (addMessage history_limit_one user "second question" 102)
  = [prompt_message; question_message; mkChatMessage user "second question" 102].
Proof.
  apply (limit_one_keeps_everything history_limit_one prompt_message [question_message]
           user "second question" 102).
  - reflexivity.
  - reflexivity.
  - reflexivity.
  - intros m [<-|[]]. reflexivity.
  - reflexivity.
Defined.

(** The start of the slice of [addMessage] when the new message is not a
    system message and [maxLength] is not negative: the last message is kept. *)
Lemma addMessage_others h r c now :
  (0 <= maxLength h)%Z -> is_system r = false ->
  let new := mkChatMessage r c now in
  let others := (filter notSystemMessage (messages h) ++ [new])%list in
  filter notSystemMessage (messages h ++ [new]) = others /\
  find isSystemMessage (messages h ++ [new]) = find isSystemMessage (messages h) /\
  (messages (addMessage h r c now) = (messages h ++ [new])%list \/
   exists k, k < List.length others /\
     messages (addMessage h r c now)
     = match find isSystemMessage (messages h) with
       | Some m => m :: skipn k others
       | None => skipn k others
       end).
Proof.
  intros HM Hr new others.
  assert (Hnew : isSystemMessage new = false) by exact Hr.
  assert (Hfilter : filter notSystemMessage (messages h ++ [new]) = others).
  { rewrite filter_app. simpl. unfold notSystemMessage at 2.
    unfold isSystemMessage in Hnew. now rewrite Hnew. }
  split; [exact Hfilter|]. split; [now apply find_app_not_system|].
  destruct (addMessage_cases h r c now) as [[E _]|[k [E [Hs [HM0 Hlen]]]]];
    fold new in E; [now left|right].
  fold new in Hs. rewrite Hfilter in *.
  rewrite (find_app_not_system _ _ Hnew) in *.
  assert (Hothers : others <> []) by (unfold others; destruct (filter _ _); discriminate).
  destruct (slice_skipn others
              (- maxLength h + match find isSystemMessage (messages h) with
                               | Some _ => 1 | None => 0 end)%Z) as [k' [Hk' [Hlt _]]].
  exists k'. split.
  - apply Hlt; [|assumption]. destruct (find isSystemMessage (messages h)); lia.
  - rewrite E. replace (skipn k others) with (skipn k' others) by congruence. reflexivity.
Qed.

(** With a [maxLength] that is not negative, the message added is the last
    of the history. *)
Lemma addMessage_ends h r c now :
  (0 <= maxLength h)%Z -> is_system r = false ->
  exists front,
    messages (addMessage h r c now) = (front ++ [mkChatMessage r c now])%list.
Proof.
  intros HM Hr.
  destruct (addMessage_others h r c now HM Hr) as [_ [_ [E|[k [Hk E]]]]]; rewrite E.
  - eexists. reflexivity.
  - rewrite length_app in Hk. simpl in Hk.
    assert (Hs : skipn k (filter notSystemMessage (messages h) ++ [mkChatMessage r c now])
                 = (skipn k (filter notSystemMessage (messages h))
                    ++ [mkChatMessage r c now])%list).
    { rewrite skipn_app.
      replace (k - List.length (filter notSystemMessage (messages h))) with 0 by lia.
      reflexivity. }
    rewrite Hs. destruct (find isSystemMessage (messages h)) as [m|].
    + exists (m :: skipn k (filter notSystemMessage (messages h))). reflexivity.
    + eexists. reflexivity.
Qed.




(** ** The system prompt stays first *)

Lemma prompt_first_addMessage h r c now :
  is_system r = false -> prompt_first (messages h) ->
  prompt_first (messages (addMessage h r c now)).
Proof.
  intros Hr Hpf.
  assert (Hin_filter : forall k m l, In m (skipn k (filter notSystemMessage l)) ->
                                     isSystemMessage m = false).
  { intros k m l Hin. apply skipn_In in Hin. apply filter_In in Hin.
    unfold notSystemMessage in Hin. unfold isSystemMessage.
    now destruct (is_system (role m)). }
  destruct (addMessage_cases h r c now) as [[E _]|[k [E _]]]; rewrite E.
  - intros m Hin. destruct (messages h) as [|m0 l]; simpl in *; [destruct Hin|].
    apply in_app_or in Hin. destruct Hin as [Hin|[<-|[]]]; [auto|exact Hr].
  - destruct (find isSystemMessage (messages h ++ [mkChatMessage r c now])).
    + intros m Hin. simpl in Hin. eapply Hin_filter; eauto.
    + intros m Hin. destruct (skipn k _) as [|m0 l] eqn:Es; simpl in Hin; [destruct Hin|].
      apply (Hin_filter k m (messages h ++ [mkChatMessage r c now])%list).
      rewrite Es. now right.
Qed.

Lemma prompt_first_clearHistory h keep : prompt_first (messages (clearHistory h keep)).
Proof.
  unfold clearHistory. destruct keep; simpl; [|intros m []].
  destruct (find isSystemMessage (messages h)); intros m [].
Qed.

Lemma updateFirstSystem_head l p now l' :
  updateFirstSystem l p now = Some l' ->
  (forall m, In m (tl l) -> isSystemMessage m = false) ->
  l' = mkChatMessage system p now :: tl l /\ exists m0, hd_error l = Some m0 /\ isSystemMessage m0 = true.
Proof.
  destruct l as [|m l]; simpl; [discriminate|].
  destruct (isSystemMessage m) eqn:Em.
  - intros H _. inversion H; subst. split; [|eauto].
    unfold isSystemMessage in Em. destruct (role m); try discriminate. reflexivity.
  - intros H Htl. exfalso.
    assert (Hnone : updateFirstSystem l p now = None).
    { clear H. induction l as [|x l IH]; simpl; [reflexivity|].
      rewrite (Htl x) by now left.
      rewrite IH; [reflexivity|]. intros y Hy. apply Htl. now right. }
    rewrite Hnone in H. discriminate.
Qed.

Lemma prompt_first_updateSystemPrompt h p now :
  prompt_first (messages h) -> prompt_first (messages (updateSystemPrompt h p now)).
Proof.
  intros Hpf. unfold updateSystemPrompt.
  destruct (updateFirstSystem (messages h) p now) as [l'|] eqn:E; simpl.
  - destruct (updateFirstSystem_head _ _ _ _ E Hpf) as [-> _]. exact Hpf.
  - intros m Hin. simpl in Hin.
    assert (Hnone : forall l, updateFirstSystem l p now = None ->
                              forall x, In x l -> isSystemMessage x = false).
    { induction l as [|y l IH]; simpl; [intros _ x []|].
      destruct (isSystemMessage y) eqn:Ey; [discriminate|].
      destruct (updateFirstSystem l p now); [discriminate|].
      intros _ x [<-|Hx]; [assumption|now apply IH]. }
    now apply (Hnone _ E).
Qed.

Lemma prompt_first_chat_end h answer now :
  prompt_first (messages h) -> prompt_first (messages (snd (chat_end h answer now))).
Proof.
  intros Hpf. unfold chat_end.
  destruct answer as [completion|e]; simpl; [|exact Hpf].
  destruct (extractContent completion) as [s|msg]; simpl; [|exact Hpf].
  destruct (String.eqb s ""); [exact Hpf|].
  now apply prompt_first_addMessage.
Qed.

(** X21. The place of the system prompt.  Whatever the synchronous steps
    applied to an SDK since its construction (the two segments of chats, in
    any interleaving and with any answer of the API, [clearHistory],
    [updateSystemPrompt], [setMaxHistoryLength] with any value), no message
    after the first one is a system message: the history has at most one
    system message and it is the first message. *)
Theorem system_prompt_stays_first systemPrompt now ops :
  let h := fold_left apply ops (create systemPrompt now) in
  Forall (fun m => isSystemMessage m = false) (tl (messages h)).
Proof.
  intros h. subst h. apply Forall_forall.
  assert (H0 : prompt_first (messages (create systemPrompt now))).
  { unfold create. simpl. destruct (truthy systemPrompt); intros m []. }
  revert H0. generalize (create systemPrompt now).
  induction ops as [|op ops IH]; intros h Hpf; simpl; [exact Hpf|].
  apply IH. destruct op as [input n1|answer n2|keep|p n|n]; simpl.
  - now apply prompt_first_addMessage.
  - now apply prompt_first_chat_end.
  - apply prompt_first_clearHistory.
  - now apply prompt_first_updateSystemPrompt.
  - exact Hpf.
Qed.

(** ** One translation request *)

Lemma find_updateFirstSystem l p now l' :
  updateFirstSystem l p now = Some l' ->
  find isSystemMessage l' = Some (mkChatMessage system p now).
Proof.
  revert l'. induction l as [|m l IH]; simpl; intros l'; [discriminate|].
  destruct (isSystemMessage m) eqn:Em.
  - intros H; inversion H; subst. simpl.
    unfold isSystemMessage in *. simpl. rewrite Em.
    destruct (role m); try discriminate. reflexivity.
  - destruct (updateFirstSystem l p now) as [l''|]; [|discriminate].
    intros H; inversion H; subst. simpl. rewrite Em. now apply IH.
Qed.

Lemma translate_history h p now :
  messages (clearHistory (updateSystemPrompt h p now) true) = [mkChatMessage system p now].
Proof.
  unfold clearHistory, updateSystemPrompt.
  destruct (updateFirstSystem (messages h) p now) as [l'|] eqn:E; simpl.
  - now rewrite (find_updateFirstSystem _ _ _ _ E).
  - reflexivity.
Qed.

(** X22. What one translation request sends.  Whatever the history the
    shared SDK was left with, the sequence [updateSystemPrompt],
    [clearHistory(true)], [chat] of [translateController], which runs up to
    the API call with nothing in between, calls the API with exactly two
    messages, the system prompt of the request and its content, provided
    [maxLength] is not negative; with a negative [maxLength] the call carries
    the system prompt alone and the content is not sent. *)
Theorem translate_request h systemPrompt content now_prompt now_user :
  snd (translate_begin h systemPrompt content now_prompt now_user)
  = if (maxLength h <? 0)%Z
    then [mkOpenAIMessage system systemPrompt]
    else [mkOpenAIMessage system systemPrompt; mkOpenAIMessage user content].
Proof.
  unfold translate_begin.
  set (h0 := clearHistory (updateSystemPrompt h systemPrompt now_prompt) true).
  assert (Hm : messages h0 = [mkChatMessage system systemPrompt now_prompt])
    by apply translate_history.
  assert (HM : maxLength h0 = maxLength h).
  { unfold h0, clearHistory, updateSystemPrompt.
    destruct (updateFirstSystem (messages h) systemPrompt now_prompt); reflexivity. }
  unfold chat_begin. cbn [snd].
  unfold getFormattedMessages, addMessage. rewrite Hm, HM. simpl.
  destruct (Z.eqb_spec (maxLength h) 0) as [E0|E0]; simpl.
  - rewrite E0. reflexivity.
  - destruct (Z.gtb_spec 2 (maxLength h)) as [Hg|Hg]; simpl.
    + unfold slice. simpl.
      destruct (Z.ltb_spec (maxLength h) 0) as [Hneg|Hpos].
      * destruct (Z.ltb_spec (- maxLength h + 1) 0); [lia|].
        replace (Z.to_nat (Z.min (- maxLength h + 1) 1)) with 1 by lia. reflexivity.
      * assert (maxLength h = 1%Z) by lia.
        replace (- maxLength h + 1)%Z with 0%Z by lia. reflexivity.
    + destruct (Z.ltb_spec (maxLength h) 0); [lia|reflexivity].
Qed.

(** X23. The history around a chat.  The first segment of [chat], with a
    [maxLength] that is not negative, leaves a history that ends with the
    user's message, and sends that history as the request, which ends with
    the user's message too.  The second segment runs on the history of its
    own time, which other calls may have changed: when [chat] throws (the
    API call was rejected or no content could be extracted) it leaves that
    history as it is, so the user's message is not taken back by it; when
    [chat] returns, it returns the completion of the call, a content was
    extracted from it, and that content is added as an assistant message,
    the last one of the history when [maxLength] is not negative, unless it
    is the empty string, in which case nothing is added.  So a [chat] during
    whose [await] nothing else runs on the SDK leaves a history that ends
    with the user's message when it throws or extracts the empty string, and
    with the assistant's message otherwise. *)
Theorem chat_history_end h userInput now_user :
  (0 <= maxLength h)%Z ->
  let asked := mkChatMessage user userInput now_user in
  let begun := chat_begin h userInput now_user in
  (exists front, messages (fst begun) = (front ++ [asked])%list) /\
  snd begun = getFormattedMessages (fst begun) /\
  (exists front, snd begun = (front ++ [mkOpenAIMessage user userInput])%list) /\
  (forall h' answer now_reply,
    let ended := chat_end h' answer now_reply in
    match fst ended with
    | Throw _ => snd ended = h'
    | Ok completion =>
        answer = Resolved completion /\
        exists s,
          extractContent completion = Ok s /\
          snd ended = (if String.eqb s "" then h'
                       else addMessage h' assistant s now_reply) /\
          ((0 <= maxLength h')%Z -> s <> "" ->
           exists front,
             messages (snd ended)
             = (front ++ [mkChatMessage assistant s now_reply])%list)
    end) /\
  (forall api now_reply,
     let res := chat h userInput now_user api now_reply in
     match fst res with
     | Throw _ => exists front, messages (snd res) = (front ++ [asked])%list
     | Ok completion =>
         exists s front,
           extractContent completion = Ok s /\
           messages (snd res)
           = (front ++ [if String.eqb s "" then asked
                        else mkChatMessage assistant s now_reply])%list
     end).
Proof.
  intros HM asked begun. subst begun. unfold chat_begin. cbn [fst snd].
  destruct (addMessage_ends h user userInput now_user HM eq_refl) as [front Hfront].
  split; [exists front; exact Hfront|]. split; [reflexivity|]. split.
  { exists (map convertToOpenAIMessage front). unfold getFormattedMessages.
    rewrite Hfront, map_app. reflexivity. }
  split.
  - intros h' answer now_reply. cbv zeta. unfold chat_end.
    destruct answer as [completion|e]; cbn [fst snd]; [|reflexivity].
    destruct (extractContent completion) as [s|msg] eqn:E; cbn [fst snd]; [|reflexivity].
    split; [reflexivity|]. exists s. split; [exact E|].
    unfold truthy. destruct (String.eqb_spec s "") as [->|Hs].
    + split; [reflexivity|]. intros _ Hne. congruence.
    + split; [reflexivity|]. intros HM' _.
      now apply addMessage_ends.
  - intros api now_reply. cbv zeta. unfold chat, chat_begin, chat_end. cbn [fst snd].
    destruct (api _) as [completion|e]; cbn [fst snd]; [|exists front; exact Hfront].
    destruct (extractContent completion) as [s|msg] eqn:E; cbn [fst snd];
      [|exists front; exact Hfront].
    exists s. unfold truthy. destruct (String.eqb_spec s "") as [->|Hs].
    + exists front. split; [exact E|exact Hfront].
    + destruct (addMessage_ends (addMessage h user userInput now_user) assistant s
                  now_reply) as [front' Hfront'];
        [now rewrite maxLength_addMessage|reflexivity|].
      exists front'. split; [exact E|exact Hfront'].
Qed.

Lemma chat_history_end_witness :
  (exists front,
     messages (fst (chat_begin history_full "second question" 102))
     = (front ++ [mkChatMessage user "second question" 102])%list) /\
  snd (chat_begin history_full "second question" 102)
  = getFormattedMessages (fst (chat_begin history_full "second question" 102)) /\
  exists s front,
    extractContent (Some completion_answer) = Ok s /\
    messages (snd (chat history_full "second question" 102 api_answers 103))
    = (front ++ [if String.eqb s "" then mkChatMessage user "second question" 102
                 else mkChatMessage assistant s 103])%list.
Proof.
  assert (HM : (0 <= maxLength history_full)%Z) by (simpl; lia).
  pose proof (chat_history_end history_full "second question" 102 HM) as H.
  cbv zeta in H. split; [exact (proj1 H)|]. split; [exact (proj1 (proj2 H))|].
  exact (proj2 (proj2 (proj2 (proj2 H))) api_answers 103%Z).
Defined.

(** Two translation requests on the shared SDK, the second arriving while
    the first awaits the API: the second clears the history, and the answer
    to the first is added after the question of the second. *)
Example chat_interleaved :
  map (fun m => (role m, content m))
      (messages
         (fold_left apply
            [OpUpdateSystemPrompt "prompt A" 1; OpClearHistory true;
             OpChatBegin "question A" 2;
             OpUpdateSystemPrompt "prompt B" 3; OpClearHistory true;
             OpChatBegin "question B" 4;
             OpChatEnd (Resolved (Some completion_answer)) 5]
            (create None 0)))
  = [(system, "prompt B"); (user, "question B"); (assistant, "an answer")].
Proof. vm_compute. reflexivity. Qed.

(** ** [updateSystemPrompt], [getStats] and [extractContent] *)

Lemma updateFirstSystem_others l p now l' :
  updateFirstSystem l p now = Some l' ->
  filter notSystemMessage l' = filter notSystemMessage l /\
  List.length l' = List.length l.
Proof.
  revert l'. induction l as [|m l IH]; simpl; intros l'; [discriminate|].
  destruct (isSystemMessage m) eqn:Em.
  - intros H; inversion H; subst. cbn [filter]. unfold notSystemMessage. cbn [role].
    unfold isSystemMessage in Em. rewrite Em. split; reflexivity.
  - destruct (updateFirstSystem l p now) as [l''|]; [|discriminate].
    intros H; inversion H; subst. destruct (IH _ eq_refl) as [Hf Hl].
    cbn [filter List.length]. rewrite Hf, Hl. split; reflexivity.
Qed.

Lemma updateFirstSystem_None l p now :
  updateFirstSystem l p now = None <-> find isSystemMessage l = None.
Proof.
  induction l as [|m l IH]; simpl; [tauto|].
  destruct (isSystemMessage m); [split; discriminate|].
  destruct (updateFirstSystem l p now); split; intros H; try discriminate; try reflexivity.
  - apply IH in H. discriminate.
  - now apply IH.
Qed.

(** X24. What [updateSystemPrompt] changes.  After the call the first system
    message of the history is the new prompt with the time of the call, the
    messages that are not system messages are the same as before in the same
    order, and the history is one message longer exactly when it had no
    system message. *)
Theorem updateSystemPrompt_effect h systemPrompt now :
  let h' := updateSystemPrompt h systemPrompt now in
  find isSystemMessage (messages h') = Some (mkChatMessage system systemPrompt now) /\
  filter notSystemMessage (messages h') = filter notSystemMessage (messages h) /\
  List.length (messages h')
  = match find isSystemMessage (messages h) with
    | Some _ => List.length (messages h)
    | None => S (List.length (messages h))
    end /\
  maxLength h' = maxLength h.
Proof.
  intros h'. subst h'. unfold updateSystemPrompt.
  destruct (updateFirstSystem (messages h) systemPrompt now) as [l'|] eqn:E; simpl.
  - destruct (updateFirstSystem_others _ _ _ _ E) as [Hf Hl].
    split; [now apply (find_updateFirstSystem _ _ _ _ E)|]. split; [exact Hf|].
    split; [|reflexivity].
    destruct (find isSystemMessage (messages h)) eqn:Ef; [exact Hl|].
    apply updateFirstSystem_None with (p := systemPrompt) (now := now) in Ef. congruence.
  - apply updateFirstSystem_None in E. rewrite E. repeat split.
Qed.

Lemma filter_roles_length (l : list ChatMessage) :
  List.length l
  = List.length (filter (fun m => is_system (role m)) l)
    + List.length (filter (fun m => is_user (role m)) l)
    + List.length (filter (fun m => is_assistant (role m)) l).
Proof.
  induction l as [|m l IH]; simpl; [reflexivity|].
  destruct (role m); simpl; lia.
Qed.

Lemma Math_min_spec xs : forall x,
  (Math_min x xs <= x)%Z /\ Forall (fun y => (Math_min x xs <= y)%Z) xs.
Proof.
  unfold Math_min. induction xs as [|y xs IH]; intros x; simpl.
  - split; [lia|constructor].
  - destruct (IH (Z.min x y)) as [H1 H2]. split; [lia|].
    constructor; [lia|exact H2].
Qed.

Lemma Math_max_spec xs : forall x,
  (x <= Math_max x xs)%Z /\ Forall (fun y => (y <= Math_max x xs)%Z) xs.
Proof.
  unfold Math_max. induction xs as [|y xs IH]; intros x; simpl.
  - split; [lia|constructor].
  - destruct (IH (Z.max x y)) as [H1 H2]. split; [lia|].
    constructor; [lia|exact H2].
Qed.

Lemma timestamp_or_0_eq m : timestamp_or_0 m = timestamp m.
Proof.
  unfold timestamp_or_0. destruct (Z.eqb_spec (timestamp m) 0); congruence.
Qed.

(** X25. The statistics of a history.  In the result of [getStats] the
    total is the sum of the three counts by role; the oldest and the newest
    date are [null] exactly when the history is empty, and otherwise every
    message of the history has its time between them. *)
Theorem getStats_consistent h :
  let stats := ChatSDK.getStats h in
  totalMessages stats = systemMessages stats + userMessages stats + assistantMessages stats /\
  match oldestMessage stats, newestMessage stats with
  | Some oldest, Some newest =>
      messages h <> [] /\
      Forall (fun m => (oldest <= timestamp m <= newest)%Z) (messages h)
  | None, None => messages h = []
  | _, _ => False
  end.
Proof.
  intros stats. subst stats. unfold ChatSDK.getStats. cbn [totalMessages systemMessages
    userMessages assistantMessages oldestMessage newestMessage].
  split; [apply filter_roles_length|].
  destruct (messages h) as [|m l]; simpl; [reflexivity|].
  split; [discriminate|].
  destruct (Math_min_spec (map timestamp_or_0 l) (timestamp_or_0 m)) as [Hm Hml].
  destruct (Math_max_spec (map timestamp_or_0 l) (timestamp_or_0 m)) as [HM HMl].
  rewrite timestamp_or_0_eq in *.
  constructor; [lia|].
  rewrite Forall_map in Hml, HMl. rewrite Forall_forall in *.
  intros x Hx. specialize (Hml x Hx). specialize (HMl x Hx).
  rewrite timestamp_or_0_eq in *. lia.
Qed.

(** X26. An empty content.  [extractContent] returns the empty string only
    when the [text] field of the first choice is the empty string: an empty
    [message.content], [message.text] or [delta.content] is passed over. *)
Theorem extractContent_empty completion :
  extractContent completion = Ok "" ->
  exists c firstChoice rest,
    completion = Some c /\
    choices c = Some (Some firstChoice :: rest) /\
    text firstChoice = Some "".
Proof.
  unfold extractContent. destruct completion as [c|]; [|discriminate].
  destruct (choices c) as [[|[fc|] rest]|] eqn:Ec; try discriminate.
  intros H. exists c, fc, rest. split; [reflexivity|]. split; [exact Ec|].
  assert (Htruthy : forall x s, truthy x = Some s -> s <> "").
  { intros x s. unfold truthy. destruct x as [y|]; [|discriminate].
    destruct (String.eqb_spec y ""); [discriminate|]. intros Hx; inversion Hx; congruence. }
  destruct (truthy _) as [s1|] eqn:E1 in H.
  { inversion H; subst. now apply Htruthy in E1. }
  destruct (truthy _) as [s2|] eqn:E2 in H.
  { inversion H; subst. now apply Htruthy in E2. }
  destruct (text fc) as [s3|]; [congruence|].
  destruct (truthy _) as [s4|] eqn:E4 in H; [|discriminate].
  inversion H; subst. now apply Htruthy in E4.
Qed.

Lemma extractContent_empty_witness :
  exists c firstChoice rest,
    Some completion_empty_text = Some c /\
    choices c = Some (Some firstChoice :: rest) /\
    text firstChoice = Some "".
Proof.
  apply (extractContent_empty (Some completion_empty_text)).
  reflexivity.
Defined.

End ChatHistoryFacts.

(** * The cache and the in-memory database: properties *)

Section CacheFacts.
Context {V : Type}.
Implicit Types (c : CacheManager.t V) (key : string) (v : V).

(** X27. The lifetime of a cache entry.  An entry set with no [ttl], or with
    the [ttl] 0, is returned by [get] at any time.  An entry set with another
    [ttl] is returned up to the time of its expiry, that time included, and
    not after; an expiry time that comes out as 0 counts as none. *)
Theorem cache_entry_lifetime c key v ttl now_created now_expires now :
  fst (CacheManager.get (CacheManager.set c key v ttl now_created now_expires) key now)
  = match ttl with
    | Some n =>
        if (n =? 0)%Z || (now_expires + n * 1000 =? 0)%Z || (now <=? now_expires + n * 1000)%Z
        then Some v else None
    | None => Some v
    end.
Proof.
  unfold CacheManager.get, CacheManager.set. rewrite JSMapFacts.get_set_same.
  unfold CacheManager.expired, CacheManager.expiry. cbn [CacheManager.expiresAt].
  destruct ttl as [n|]; [|reflexivity].
  destruct (Z.eqb_spec n 0) as [Hn|Hn]; [reflexivity|]. cbn [orb].
  destruct (Z.eqb_spec (now_expires + n * 1000) 0) as [He|He]; [reflexivity|]. cbn [negb andb orb].
  destruct (Z.ltb_spec (now_expires + n * 1000) now), (Z.leb_spec now (now_expires + n * 1000));
    try lia; reflexivity.
Qed.

Lemma get_cleanup_loop c now key (l : list (string * CacheManager.CacheItem V)) :
  JSMap.get
    (fold_left (fun m e => if CacheManager.expired (snd e) now
                           then JSMap.delete m (fst e) else m) l c) key
  = if existsb (fun e => String.eqb (fst e) key && CacheManager.expired (snd e) now) l
    then None else JSMap.get c key.
Proof.
  revert c. induction l as [|[k item] l IH]; intros c; simpl; [reflexivity|].
  rewrite IH. destruct (CacheManager.expired item now) eqn:Ex.
  - rewrite JSMapFacts.get_delete. rewrite Bool.andb_true_r.
    destruct (String.eqb k key); simpl; [|reflexivity].
    destruct (existsb _ l); reflexivity.
  - rewrite Bool.andb_false_r. reflexivity.
Qed.

Lemma existsb_expired_key c now key :
  NoDup (JSMap.keys c) ->
  existsb (fun e => String.eqb (fst e) key && CacheManager.expired (snd e) now) c
  = match JSMap.get c key with
    | Some item => CacheManager.expired item now
    | None => false
    end.
Proof.
  induction c as [|[k item] c IH]; simpl; intros Hnd; [reflexivity|].
  inversion Hnd as [|? ? Hnotin Hnd']; subst.
  destruct (String.eqb_spec k key) as [->|Hk]; simpl.
  - destruct (CacheManager.expired item now); [reflexivity|]. simpl.
    apply JSMapFacts.get_None_keys in Hnotin. rewrite (IH Hnd'), Hnotin. reflexivity.
  - now apply IH.
Qed.

Lemma get_cleanup c now key :
  NoDup (JSMap.keys c) ->
  JSMap.get (CacheManager.cleanup c now) key
  = match JSMap.get c key with
    | Some item => if CacheManager.expired item now then None else Some item
    | None => None
    end.
Proof.
  intros Hnd. unfold CacheManager.cleanup. rewrite get_cleanup_loop.
  rewrite (existsb_expired_key c now key Hnd).
  destruct (JSMap.get c key) as [item|]; [|reflexivity].
  destruct (CacheManager.expired item now); reflexivity.
Qed.

Lemma expired_later (item : CacheManager.CacheItem V) now now' :
  (now <= now')%Z -> CacheManager.expired item now = true ->
  CacheManager.expired item now' = true.
Proof.
  unfold CacheManager.expired. destruct (CacheManager.expiresAt item) as [e|]; [|discriminate].
  intros Hle H. apply andb_true_iff in H. destruct H as [H0 H1].
  rewrite H0. simpl. apply Z.ltb_lt in H1. apply Z.ltb_lt. lia.
Qed.

(** X28. The cleanup is not observable.  When the clock does not go back, a
    [get] or a [has] answers the same after a [cleanup] as it would have
    without it: the cleanup removes only entries that every later [get] and
    [has] treats as absent.  ([NoDup] says that [c] is a map: a key occurs
    once.) *)
Theorem cleanup_unobservable c key now now' :
  NoDup (JSMap.keys c) -> (now <= now')%Z ->
  fst (CacheManager.get (CacheManager.cleanup c now) key now')
  = fst (CacheManager.get c key now') /\
  fst (CacheManager.has (CacheManager.cleanup c now) key now')
  = fst (CacheManager.has c key now').
Proof.
  intros Hnd Hle. unfold CacheManager.get, CacheManager.has.
  rewrite (get_cleanup c now key Hnd).
  destruct (JSMap.get c key) as [item|]; [|split; reflexivity].
  destruct (CacheManager.expired item now) eqn:Ex.
  - rewrite (expired_later item now now' Hle Ex). split; reflexivity.
  - destruct (CacheManager.expired item now'); split; reflexivity.
Qed.

End CacheFacts.

Lemma cleanup_unobservable_witness :
  fst (CacheManager.get (CacheManager.cleanup cache_sample 5000) "old" 6000)
  = fst (CacheManager.get cache_sample "old" 6000) /\
  fst (CacheManager.has (CacheManager.cleanup cache_sample 5000) "old" 6000)
  = fst (CacheManager.has cache_sample "old" 6000).
Proof.
  apply (cleanup_unobservable cache_sample "old" 5000 6000).
  - repeat constructor; simpl; intuition discriminate.
  - lia.
Defined.

Section DatabaseFacts.
Context {V : Type} (truthy_value : V -> bool).
Implicit Types (db : MemoryDatabase.t V) (key : string).








Lemma In_keys_delete_iff {A} (m : JSMap.t A) k k' :
  In k' (JSMap.keys (JSMap.delete m k)) <-> In k' (JSMap.keys m) /\ k' <> k.
Proof.
  unfold JSMap.keys. rewrite !in_map_iff. split.
  - intros [e [He Hin]]. apply JSMapFacts.In_delete in Hin. subst k'. split; [|tauto].
    exists e. tauto.
  - intros [[e [He Hin]] Hne]. exists e. split; [assumption|].
    apply JSMapFacts.In_delete. subst k'. tauto.
Qed.

Lemma In_keys_cleanup (c : CacheManager.t V) now k :
  In k (JSMap.keys (CacheManager.cleanup c now)) -> In k (JSMap.keys c).
Proof.
  unfold CacheManager.cleanup.
  assert (H : forall (l : list (string * CacheManager.CacheItem V)) (m : CacheManager.t V),
             In k (JSMap.keys
                     (fold_left (fun m e => if CacheManager.expired (snd e) now
                                            then JSMap.delete m (fst e) else m) l m)) ->
             In k (JSMap.keys m)).
  { induction l as [|e l IH]; intros m; simpl; [auto|].
    intros H. apply IH in H. destruct (CacheManager.expired (snd e) now); [|assumption].
    now apply JSMapFacts.In_keys_delete in H. }
  apply H.
Qed.

Lemma cached_keys_stored_delete db key :
  cached_keys_stored db -> cached_keys_stored (snd (MemoryDatabase.delete db key)).
Proof.
  intros Hinv k. unfold MemoryDatabase.delete, CacheManager.delete.
  cbn [snd MemoryDatabase.data MemoryDatabase.cache].
  rewrite !In_keys_delete_iff. intros [Hin Hne]. split; [auto|assumption].
Qed.

Lemma cached_keys_stored_cache_get db key now :
  cached_keys_stored db ->
  cached_keys_stored
    (MemoryDatabase.mk (MemoryDatabase.data db)
       (snd (CacheManager.get (MemoryDatabase.cache db) key now))).
Proof.
  intros Hinv k. unfold CacheManager.get. cbn [MemoryDatabase.data MemoryDatabase.cache].
  destruct (JSMap.get (MemoryDatabase.cache db) key) as [item|]; [|apply Hinv].
  destruct (CacheManager.expired item now); cbn [snd]; [|apply Hinv].
  intros H. apply JSMapFacts.In_keys_delete in H. now apply Hinv.
Qed.

Lemma cached_keys_stored_apply db op :
  MemoryDatabase.is_load op = false ->
  cached_keys_stored db -> cached_keys_stored (MemoryDatabase.apply truthy_value db op).
Proof.
  intros Hop Hinv. destruct op as [key v ttl times|key times|key|key now| |now|file];
    cbn [MemoryDatabase.apply].
  - intros k. unfold MemoryDatabase.set, CacheManager.set.
    cbn [MemoryDatabase.data MemoryDatabase.cache].
    rewrite !JSMapFacts.In_keys_set. intros [->|H]; [now left|right; now apply Hinv].
  - unfold MemoryDatabase.get.
    pose proof (cached_keys_stored_cache_get db key (MemoryDatabase.cache_checked times) Hinv)
      as H1.
    destruct (CacheManager.get (MemoryDatabase.cache db) key
                (MemoryDatabase.cache_checked times)) as [cached cache1].
    cbn [snd] in H1.
    assert (Hdata : cached_keys_stored
              (snd match JSMap.get (MemoryDatabase.data (MemoryDatabase.mk (MemoryDatabase.data db) cache1)) key with
                   | None => (None, MemoryDatabase.mk (MemoryDatabase.data db) cache1)
                   | Some record =>
                       if MemoryDatabase.expired record (MemoryDatabase.record_checked times)
                       then (None, snd (MemoryDatabase.delete
                                          (MemoryDatabase.mk (MemoryDatabase.data db) cache1) key))
                       else (Some (MemoryDatabase.value record),
                             MemoryDatabase.mk
                               (MemoryDatabase.data (MemoryDatabase.mk (MemoryDatabase.data db) cache1))
                               (CacheManager.set
                                  (MemoryDatabase.cache (MemoryDatabase.mk (MemoryDatabase.data db) cache1))
                                  key (MemoryDatabase.value record) None
                                  (MemoryDatabase.cached_again times)
                                  (MemoryDatabase.cached_again times)))
                   end)).
    { cbn [MemoryDatabase.data MemoryDatabase.cache].
      destruct (JSMap.get (MemoryDatabase.data db) key) as [record|] eqn:Ed; [|exact H1].
      destruct (MemoryDatabase.expired record (MemoryDatabase.record_checked times)).
      - cbn [snd]. now apply cached_keys_stored_delete.
      - cbn [snd]. intros k. unfold CacheManager.set.
        cbn [MemoryDatabase.data MemoryDatabase.cache].
        rewrite JSMapFacts.In_keys_set. intros [->|H]; [|now apply H1].
        destruct (in_dec string_dec key (JSMap.keys (MemoryDatabase.data db))) as [Hin|Hnotin];
          [assumption|].
        apply JSMapFacts.get_None_keys in Hnotin. congruence. }
    destruct cached as [v|]; [|exact Hdata].
    destruct (truthy_value v); [exact H1|exact Hdata].
  - now apply cached_keys_stored_delete.
  - unfold MemoryDatabase.exists_.
    destruct (JSMap.get (MemoryDatabase.data db) key) as [record|]; [|exact Hinv].
    destruct (MemoryDatabase.expired record now); [|exact Hinv].
    now apply cached_keys_stored_delete.
  - intros k [].
  - intros k H. cbn [MemoryDatabase.data MemoryDatabase.cache] in *.
    apply In_keys_cleanup in H. now apply Hinv.
  - discriminate.
Qed.

(** X30. The cache and the stored keys.  As long as the load of the
    constructor does not come in between, the operations of the database
    ([set], [get], [delete], [exists], [clear]) and the runs of the cleanup
    timer of its cache keep every key of the cache a key of [data]: so it is
    from the construction until the load, and from a load that came before
    every operation on.  The load itself breaks it when a [set] came first:
    it replaces [data] and leaves the cache, which then holds a key that
    [data] has not. *)
Theorem cache_within_data ops :
  forallb (fun op => negb (MemoryDatabase.is_load op)) ops = true ->
  (forall db, cached_keys_stored db ->
              cached_keys_stored (fold_left (MemoryDatabase.apply truthy_value) ops db)) /\
  Forall (fun k => In k (JSMap.keys (MemoryDatabase.data
                           (fold_left (MemoryDatabase.apply truthy_value) ops
                              MemoryDatabase.create))))
         (JSMap.keys (MemoryDatabase.cache
                        (fold_left (MemoryDatabase.apply truthy_value) ops
                           MemoryDatabase.create))) /\
  (forall file,
     cached_keys_stored
       (fold_left (MemoryDatabase.apply truthy_value) ops
          (MemoryDatabase.load MemoryDatabase.create file))) /\
  (forall key v ttl times,
     let db := MemoryDatabase.load (V:=V)
                 (MemoryDatabase.set MemoryDatabase.create key v ttl times)
                 (Some JSMap.empty) in
     In key (JSMap.keys (MemoryDatabase.cache db)) /\
     ~ In key (JSMap.keys (MemoryDatabase.data db))).
Proof.
  intros Hops.
  assert (Hrun : forall db, cached_keys_stored db ->
            cached_keys_stored (fold_left (MemoryDatabase.apply truthy_value) ops db)).
  { induction ops as [|op ops IH]; intros db Hinv; simpl; [exact Hinv|].
    simpl in Hops. apply andb_true_iff in Hops. destruct Hops as [Hop Hops].
    apply IH; [exact Hops|]. apply cached_keys_stored_apply; [|exact Hinv].
    now apply negb_true_iff in Hop. }
  split; [exact Hrun|]. split.
  { apply Forall_forall. apply Hrun. intros k []. }
  split.
  { intros file. apply Hrun. destruct file as [records|]; intros k []. }
  intros key v ttl times db. subst db. cbn. split; [now left|]. intros [].
Qed.

End DatabaseFacts.


Lemma cache_within_data_witness :
  cached_keys_stored
    (fold_left (MemoryDatabase.apply string_truthy)
       [MemoryDatabase.OpGet "greeting" get_times_sample;
        MemoryDatabase.OpCleanup 5000%Z]
       db_loaded).
Proof.
  apply (proj1 (cache_within_data string_truthy
                  [MemoryDatabase.OpGet "greeting" get_times_sample;
                   MemoryDatabase.OpCleanup 5000%Z] eq_refl)).
  intros k [].
Defined.
